(** * Smart Suspender: the background service worker, embedded and verified

    The development follows the background script of the extension
    (the suspension engine, the eligibility policy, the inactivity
    scheduler, the tab life-cycle hooks and the message router).

    Conventions of the embedding:
    - JavaScript strings are [string]s whose characters stand for code
      units in the range U+0000..U+00FF;
    - JavaScript numbers are integers ([Z]); [None] stands for [NaN] where
      a conversion can produce it, and [Infinity] is an absent bound;
    - objects used as maps ([suspendedTabsCache], [lastActivityMap], the
      settings object) are finite maps;
    - asynchronous functions are state transformers over a [World] made of
      the browser side (tabs, storage, alarm, clock) and the module's
      global variables; an [await] on a host call may throw. *)

From Stdlib Require Import ZArith Ascii String.
From stdpp Require Import gmap strings list fin_maps sorting.

Local Open Scope Z_scope.

(** ** JavaScript string builtins used by the script *)

Module JsString.

Definition ascii_eqb (a b : ascii) : bool := Stdlib.Strings.Ascii.eqb a b.

(** [s.startsWith(p)] *)
Fixpoint startsWith (s p : string) {struct p} : bool :=
  match p with
  | EmptyString => true
  | String c p' =>
      match s with
      | EmptyString => false
      | String d s' => ascii_eqb c d && startsWith s' p'
      end
  end.

(** White space and line terminators removed by [trim] (code units up to
    U+00FF): TAB, LF, VT, FF, CR, SPACE and NBSP. *)
Definition isTrimmable (c : ascii) : bool :=
  match c with
  | "009" | "010" | "011" | "012" | "013" | " " | "160" => true
  | _ => false
  end%char.

Fixpoint trimStart (s : string) : string :=
  match s with
  | EmptyString => EmptyString
  | String c s' => if isTrimmable c then trimStart s' else s
  end.

(** [trimEnd] keeps a character when it is not white space or when
    something survives after it. *)
Fixpoint trimEnd (s : string) : string :=
  match s with
  | EmptyString => EmptyString
  | String c s' =>
      match trimEnd s' with
      | EmptyString => if isTrimmable c then EmptyString else String c EmptyString
      | t => String c t
      end
  end.

(** [s.trim()] *)
Definition trim (s : string) : string := trimEnd (trimStart s).

(** [s.split(c)] for a one-character separator: [cur] is the piece
    being read, in reverse. *)
Fixpoint splitChar_go (sep : ascii) (cur : string) (s : string) : list string :=
  match s with
  | EmptyString => [String.rev cur]
  | String c s' =>
      if ascii_eqb c sep
      then String.rev cur :: splitChar_go sep EmptyString s'
      else splitChar_go sep (String c cur) s'
  end.

Definition splitChar (sep : ascii) (s : string) : list string :=
  splitChar_go sep EmptyString s.

(** [s.split(/\r?\n|,/)]: the separators are CR LF, LF and the comma; a
    CR that no LF follows is an ordinary character. *)
Fixpoint splitEntries_go (cur : string) (s : string) : list string :=
  match s with
  | EmptyString => [String.rev cur]
  | String "013" (String "010" s') => String.rev cur :: splitEntries_go EmptyString s'
  | String "010" s' => String.rev cur :: splitEntries_go EmptyString s'
  | String "," s' => String.rev cur :: splitEntries_go EmptyString s'
  | String c s' => splitEntries_go (String c cur) s'
  end.

Definition splitEntries (s : string) : list string :=
  splitEntries_go EmptyString s.

(** [parts.join(sep)] *)
Fixpoint join (sep : string) (parts : list string) : string :=
  match parts with
  | [] => EmptyString
  | [p] => p
  | p :: rest => p +:+ sep +:+ join sep rest
  end.

(** Truthiness of a string: the empty string is falsy. *)
Definition nonEmpty (s : string) : bool :=
  match s with EmptyString => false | _ => true end.

End JsString.

(** ** Regular expressions

    [new RegExp(source)] and [re.test(input)] for the part of the pattern
    syntax that a URL pattern can reach through [isWhitelisted]:
    characters, [.], identity escapes, the quantifiers [*], [+] and [?]
    (greedy or lazy), groups, alternation and the assertions [^] and [$].
    Character classes, braces and the remaining escapes are reported as
    [ReUnsupported] instead of being given a meaning. *)

Module JsRegExp.

Import JsString.

Inductive Regex : Type :=
| REps
| RChar (c : ascii)
| RAny
| RStart
| REnd
| RSeq (a b : Regex)
| RAlt (a b : Regex)
| RStar (a : Regex).

Inductive Compiled : Type :=
| ReOk (r : Regex)
| ReSyntaxError
| ReUnsupported.

(** What the last term of the alternative being read allows next: an
    atom takes a quantifier, a quantified atom takes the lazy mark, an
    assertion or a lazy quantifier takes nothing. *)
Inductive Last : Type := LNone | LAtom | LQuant | LClosed.

Record Frame : Type := mkFrame {
  alts : list Regex;   (* finished alternatives, last one first *)
  terms : list Regex;  (* terms of the current alternative, last one first *)
  last : Last
}.

Definition emptyFrame : Frame := mkFrame [] [] LNone.

Definition seqOf (rev_terms : list Regex) : Regex :=
  fold_left (fun acc t => RSeq t acc) rev_terms REps.

Definition closeFrame (f : Frame) : Regex :=
  fold_left (fun acc a => RAlt a acc) (alts f) (seqOf (terms f)).

Definition pushTerm (t : Regex) (l : Last) (f : Frame) : Frame :=
  mkFrame (alts f) (t :: terms f) l.

Definition isSyntaxChar (c : ascii) : bool :=
  match c with
  | "^" | "$" | "\" | "." | "*" | "+" | "?" | "(" | ")" | "[" | "]"
  | "{" | "}" | "|" | "/" => true
  | _ => false
  end%char.

Definition quantify (q : Regex -> Regex) (f : Frame) : option Frame :=
  match last f, terms f with
  | LAtom, t :: ts => Some (mkFrame (alts f) (q t :: ts) LQuant)
  | _, _ => None
  end.

Fixpoint parse (src : string) (cur : Frame) (stack : list Frame) : Compiled :=
  match src with
  | EmptyString =>
      match stack with
      | [] => ReOk (closeFrame cur)
      | _ :: _ => ReSyntaxError
      end
  | String c rest =>
      match c with
      | "(" =>
          match rest with
          | String "?" (String ":" rest') => parse rest' emptyFrame (cur :: stack)
          | String "?" _ => ReUnsupported
          | _ => parse rest emptyFrame (cur :: stack)
          end
      | ")" =>
          match stack with
          | [] => ReSyntaxError
          | parent :: stack' => parse rest (pushTerm (closeFrame cur) LAtom parent) stack'
          end
      | "|" => parse rest (mkFrame (seqOf (terms cur) :: alts cur) [] LNone) stack
      | "*" =>
          match quantify RStar cur with
          | Some f => parse rest f stack
          | None => ReSyntaxError
          end
      | "+" =>
          match quantify (fun t => RSeq t (RStar t)) cur with
          | Some f => parse rest f stack
          | None => ReSyntaxError
          end
      | "?" =>
          match last cur with
          | LQuant => parse rest (mkFrame (alts cur) (terms cur) LClosed) stack
          | _ =>
              match quantify (fun t => RAlt t REps) cur with
              | Some f => parse rest f stack
              | None => ReSyntaxError
              end
          end
      | "^" => parse rest (pushTerm RStart LClosed cur) stack
      | "$" => parse rest (pushTerm REnd LClosed cur) stack
      | "." => parse rest (pushTerm RAny LAtom cur) stack
      | "\" =>
          match rest with
          | EmptyString => ReSyntaxError
          | String e rest' =>
              if isSyntaxChar e
              then parse rest' (pushTerm (RChar e) LAtom cur) stack
              else ReUnsupported
          end
      | "[" | "{" => ReUnsupported
      | _ => parse rest (pushTerm (RChar c) LAtom cur) stack
      end%char
  end.

(** [new RegExp(source)] *)
Definition compile (source : string) : Compiled := parse source emptyFrame [].

Definition isLineTerminator (c : ascii) : bool :=
  match c with "010" | "013" => true | _ => false end%char.

(** Backtracking matcher in continuation style: [pos] is the index in
    the input, [s] what is left of it.  An iteration of a star that
    consumes nothing is rejected, as the language's [RepeatMatcher]
    does. *)
Fixpoint rmatch (r : Regex) (pos : nat) (s : string)
         (k : nat -> string -> bool) : bool :=
  match r with
  | REps => k pos s
  | RChar c =>
      match s with
      | String d s' => ascii_eqb c d && k (S pos) s'
      | EmptyString => false
      end
  | RAny =>
      match s with
      | String d s' => negb (isLineTerminator d) && k (S pos) s'
      | EmptyString => false
      end
  | RStart => Nat.eqb pos 0 && k pos s
  | REnd => match s with EmptyString => k pos s | String _ _ => false end
  | RSeq a b => rmatch a pos s (fun p t => rmatch b p t k)
  | RAlt a b => rmatch a pos s k || rmatch b pos s k
  | RStar a =>
      (fix star (fuel : nat) (pos : nat) (s : string) {struct fuel} : bool :=
         k pos s ||
         match fuel with
         | O => false
         | S fuel' =>
             rmatch a pos s
               (fun p t => Nat.ltb (String.length t) (String.length s) && star fuel' p t)
         end) (String.length s) pos s
  end.

(** [re.test(input)] for a pattern without the global or sticky flag:
    a match is looked for at every start index. *)
Fixpoint search (r : Regex) (pos : nat) (s : string) : bool :=
  rmatch r pos s (fun _ _ => true) ||
  match s with
  | EmptyString => false
  | String _ s' => search r (S pos) s'
  end.

Definition test (r : Regex) (input : string) : bool := search r 0%nat input.

End JsRegExp.

(** ** [URLSearchParams.prototype.toString]

    The [application/x-www-form-urlencoded] serializer: the text is
    encoded in UTF-8, alphanumerics and [*-._] stay, a space becomes [+],
    every other byte is percent-encoded in upper-case hexadecimal. *)

Module UrlSearchParams.

Definition hexDigit (n : nat) : ascii :=
  match n with
  | 0 => "0" | 1 => "1" | 2 => "2" | 3 => "3" | 4 => "4" | 5 => "5"
  | 6 => "6" | 7 => "7" | 8 => "8" | 9 => "9" | 10 => "A" | 11 => "B"
  | 12 => "C" | 13 => "D" | 14 => "E" | _ => "F"
  end%nat%char.

Definition percent (byte : nat) : string :=
  String "%" (String (hexDigit (byte / 16)) (String (hexDigit (byte mod 16)) EmptyString)).

Definition between (lo hi n : nat) : bool := Nat.leb lo n && Nat.leb n hi.

Definition isPlain (n : nat) : bool :=
  between 48 57 n || between 65 90 n || between 97 122 n
  || Nat.eqb n 42 || Nat.eqb n 45 || Nat.eqb n 46 || Nat.eqb n 95.

Definition encodeUnit (c : ascii) : string :=
  let n := nat_of_ascii c in
  if Nat.eqb n 32 then "+"
  else if isPlain n then String c EmptyString
  else if Nat.ltb n 128 then percent n
  else percent (192 + n / 64) +:+ percent (128 + n mod 64).

Fixpoint encode (s : string) : string :=
  match s with
  | EmptyString => EmptyString
  | String c s' => encodeUnit c +:+ encode s'
  end.

(** [params.toString()] for a list of name/value pairs in insertion order. *)
Fixpoint toString (params : list (string * string)) : string :=
  match params with
  | [] => EmptyString
  | [(k, v)] => encode k +:+ "=" +:+ encode v
  | (k, v) :: rest => encode k +:+ "=" +:+ encode v +:+ "&" +:+ toString rest
  end.

End UrlSearchParams.

(** ** Values and data model *)

(** The values a settings object holds after it went through a message or
    through storage (both carry JSON). A key that is absent reads as
    [undefined]. *)
Inductive JsVal : Type :=
| JNull
| JBool (b : bool)
| JNum (n : Z)
| JStr (s : string).

Global Instance JsVal_eq_dec : EqDecision JsVal.
Proof. solve_decision. Defined.

(** Truthiness of a property read. *)
Definition truthy (v : option JsVal) : bool :=
  match v with
  | None | Some JNull => false
  | Some (JBool b) => b
  | Some (JNum n) => negb (n =? 0)
  | Some (JStr s) => JsString.nonEmpty s
  end.

Abbreviation Settings := (gmap string JsVal).

Definition DEFAULT_autoSuspendTime : JsVal := JNum 30.

Definition DEFAULT_SETTINGS : Settings :=
  <["autoSuspend" := JBool true]>
  (<["autoSuspendTime" := DEFAULT_autoSuspendTime]>
  (<["ignorePinned" := JBool true]>
  (<["ignoreAudio" := JBool true]>
  (<["ignoreActive" := JBool true]>
  (<["urlWhitelist" := JStr EmptyString]> ∅))))).

(** [{ ...base, ...over }] *)
Definition spread (base over : Settings) : Settings := over ∪ base.

Inductive Reason : Type := Manual | Auto.
Inductive Strategy : Type := Replace | Navigate.

Global Instance Reason_eq_dec : EqDecision Reason.
Proof. solve_decision. Defined.
Global Instance Strategy_eq_dec : EqDecision Strategy.
Proof. solve_decision. Defined.

(** A tab as the [chrome.tabs] API reports it. *)
Record Tab : Type := mkTab {
  tab_id : Z;
  tab_url : option string;
  tab_title : option string;
  tab_favIconUrl : option string;
  tab_windowId : Z;
  tab_index : Z;
  tab_pinned : bool;
  tab_audible : bool;
  tab_active : bool;
  tab_groupId : option Z;
  tab_lastAccessed : option Z
}.

(** An entry of [suspendedTabsCache]. *)
Record TabRecord : Type := mkTabRecord {
  rec_url : string;
  rec_title : option string;
  rec_favicon : option string;
  rec_suspendedAt : Z;
  rec_reason : Reason;
  rec_originalTabId : Z;
  rec_windowId : Z;
  rec_index : Z;
  rec_pinned : bool;
  rec_wasActive : bool;
  rec_strategy : Strategy;
  rec_placeholderTabId : option Z
}.

Abbreviation Registry := (gmap Z TabRecord).
Abbreviation ActivityMap := (gmap Z Z).

(** ** The browser side *)

Inductive StorageKey : Type := SUSPENDED_TABS | SETTINGS.

Inductive HostCall : Type :=
| TabsGet (id : Z)
| TabsQuery
| TabsCreate
| TabsMove (id : Z)
| TabsGroup (id : Z)
| TabsRemove (id : Z)
| TabsUpdate (id : Z)
| StorageGet (key : StorageKey)
| StorageSet (key : StorageKey)
| AlarmsClear
| AlarmsCreate (when : Z).

Inductive Exn : Type :=
| HostError (c : HostCall)
| TypeError
| SyntaxError.

(** [rejects] says which host calls throw, [stringToNumber] is the
    language's conversion of a string to a number ([None] for [NaN]);
    [calls] records the host calls made, the latest first. *)
Record Host : Type := mkHost {
  tabs : list Tab;
  currentWindow : Z;
  storedSettings : option Settings;
  storedTabs : option Registry;
  alarm : option Z;
  clock : Z;
  extensionId : string;
  rejects : HostCall -> bool;
  stringToNumber : string -> option Z;
  calls : list HostCall
}.

(** The module-level variables of the script. *)
Record Globals : Type := mkGlobals {
  currentSettings : Settings;
  suspendedTabsCache : Registry;
  lastActivityMap : ActivityMap;
  scanRunning : bool;
  scanRerunRequested : bool
}.

(** A scan that is waiting for its tab query: the locals it has bound. *)
Record ScanFrame : Type := mkScanFrame {
  frame_thresholdMs : Z;
  frame_now : Z
}.

(** [scans] lists the scans in flight, [scansStarted] counts the scans
    that ever passed the re-entrancy guard. *)
Record World : Type := mkWorld {
  host : Host;
  globals : Globals;
  scans : list ScanFrame;
  scansStarted : nat
}.

Definition with_host (f : Host -> Host) (w : World) : World :=
  mkWorld (f (host w)) (globals w) (scans w) (scansStarted w).

Definition with_globals (f : Globals -> Globals) (w : World) : World :=
  mkWorld (host w) (f (globals w)) (scans w) (scansStarted w).

Definition set_tabs (ts : list Tab) (h : Host) : Host :=
  mkHost ts (currentWindow h) (storedSettings h) (storedTabs h) (alarm h)
         (clock h) (extensionId h) (rejects h) (stringToNumber h) (calls h).

Definition set_storedSettings (s : option Settings) (h : Host) : Host :=
  mkHost (tabs h) (currentWindow h) s (storedTabs h) (alarm h)
         (clock h) (extensionId h) (rejects h) (stringToNumber h) (calls h).

Definition set_storedTabs (r : option Registry) (h : Host) : Host :=
  mkHost (tabs h) (currentWindow h) (storedSettings h) r (alarm h)
         (clock h) (extensionId h) (rejects h) (stringToNumber h) (calls h).

Definition set_alarm (a : option Z) (h : Host) : Host :=
  mkHost (tabs h) (currentWindow h) (storedSettings h) (storedTabs h) a
         (clock h) (extensionId h) (rejects h) (stringToNumber h) (calls h).

Definition log_call (c : HostCall) (h : Host) : Host :=
  mkHost (tabs h) (currentWindow h) (storedSettings h) (storedTabs h) (alarm h)
         (clock h) (extensionId h) (rejects h) (stringToNumber h) (c :: calls h).

Definition set_currentSettings (s : Settings) (g : Globals) : Globals :=
  mkGlobals s (suspendedTabsCache g) (lastActivityMap g) (scanRunning g)
            (scanRerunRequested g).

Definition set_suspendedTabsCache (r : Registry) (g : Globals) : Globals :=
  mkGlobals (currentSettings g) r (lastActivityMap g) (scanRunning g)
            (scanRerunRequested g).

Definition set_lastActivityMap (a : ActivityMap) (g : Globals) : Globals :=
  mkGlobals (currentSettings g) (suspendedTabsCache g) a (scanRunning g)
            (scanRerunRequested g).

Definition set_scanRunning (b : bool) (g : Globals) : Globals :=
  mkGlobals (currentSettings g) (suspendedTabsCache g) (lastActivityMap g) b
            (scanRerunRequested g).

Definition set_scanRerunRequested (b : bool) (g : Globals) : Globals :=
  mkGlobals (currentSettings g) (suspendedTabsCache g) (lastActivityMap g)
            (scanRunning g) b.

Definition set_scans (l : list ScanFrame) (w : World) : World :=
  mkWorld (host w) (globals w) l (scansStarted w).

Definition count_scan (w : World) : World :=
  mkWorld (host w) (globals w) (scans w) (S (scansStarted w)).

(** ** Computations: state, exceptions, and the edge of the model *)

Inductive Outcome (A : Type) : Type :=
| Ok (a : A) (w : World)
| Throw (e : Exn) (w : World)
| Unmodelled.

Arguments Ok {A} a w.
Arguments Throw {A} e w.
Arguments Unmodelled {A}.

Definition M (A : Type) : Type := World -> Outcome A.

Definition ret {A} (a : A) : M A := fun w => Ok a w.

Definition bind {A B} (m : M A) (k : A -> M B) : M B :=
  fun w =>
    match m w with
    | Ok a w' => k a w'
    | Throw e w' => Throw e w'
    | Unmodelled => Unmodelled
    end.

Definition throw {A} (e : Exn) : M A := fun w => Throw e w.

(** [try { m } catch (e) { h e }] *)
Definition tryCatch {A} (m : M A) (h : Exn -> M A) : M A :=
  fun w =>
    match m w with
    | Throw e w' => h e w'
    | o => o
    end.

(** [try { m } finally { f }] where [f] does not throw or return. *)
Definition tryFinally {A} (m : M A) (f : M unit) : M A :=
  fun w =>
    match m w with
    | Ok a w' => bind f (fun _ => ret a) w'
    | Throw e w' => bind f (fun _ => throw e) w'
    | Unmodelled => Unmodelled
    end.

Definition inspect {A} (f : World -> A) : M A := fun w => Ok (f w) w.
Definition modify (f : World -> World) : M unit := fun w => Ok tt (f w).

Notation "'do' x <- m ; k" := (bind m (fun x => k))
  (at level 10, x name, m at level 100, k at level 200).
Notation "m ;;; k" := (bind m (fun _ => k))
  (at level 100, k at level 200, right associativity).

(** Results of the pure helpers, which can throw as well. *)
Inductive Result (A : Type) : Type :=
| RVal (a : A)
| RThrow (e : Exn)
| RUnmodelled.

Arguments RVal {A} a.
Arguments RThrow {A} e.
Arguments RUnmodelled {A}.

Definition liftR {A} (r : Result A) : M A :=
  fun w =>
    match r with
    | RVal a => Ok a w
    | RThrow e => Throw e w
    | RUnmodelled => Unmodelled
    end.

(** ** The [chrome.*] calls the script makes *)

Module Chrome.

(** An awaited host call: it is recorded, and throws when the host
    rejects it. *)
Definition hostCall (c : HostCall) : M unit :=
  fun w =>
    let w' := with_host (log_call c) w in
    if rejects (host w) c then Throw (HostError c) w' else Ok tt w'.

Definition findTab (id : Z) (ts : list Tab) : option Tab :=
  List.find (fun t => tab_id t =? id) ts.

Definition replaceTab (id : Z) (f : Tab -> Tab) (ts : list Tab) : list Tab :=
  List.map (fun t => if tab_id t =? id then f t else t) ts.

Definition withoutTab (id : Z) (ts : list Tab) : list Tab :=
  List.filter (fun t => negb (tab_id t =? id)) ts.

(** Tab ids are handed out in increasing order. *)
Definition freshTabId (ts : list Tab) : Z :=
  1 + fold_right (fun t m => Z.max (tab_id t) m) 0 ts.

Definition setIndex (i : Z) (t : Tab) : Tab :=
  mkTab (tab_id t) (tab_url t) (tab_title t) (tab_favIconUrl t) (tab_windowId t)
        i (tab_pinned t) (tab_audible t) (tab_active t) (tab_groupId t)
        (tab_lastAccessed t).

Definition setGroupId (g : Z) (t : Tab) : Tab :=
  mkTab (tab_id t) (tab_url t) (tab_title t) (tab_favIconUrl t) (tab_windowId t)
        (tab_index t) (tab_pinned t) (tab_audible t) (tab_active t) (Some g)
        (tab_lastAccessed t).

Definition setActive (a : bool) (t : Tab) : Tab :=
  mkTab (tab_id t) (tab_url t) (tab_title t) (tab_favIconUrl t) (tab_windowId t)
        (tab_index t) (tab_pinned t) (tab_audible t) a (tab_groupId t)
        (tab_lastAccessed t).

(** Focusing a tab takes the focus from the other tabs of its window. *)
Definition unfocusWindow (windowId : Z) (ts : list Tab) : list Tab :=
  List.map (fun t => if tab_windowId t =? windowId then setActive false t else t) ts.

Record CreateProperties : Type := mkCreate {
  create_windowId : Z;
  create_index : Z;
  create_active : bool;
  create_pinned : bool;
  create_url : string
}.

Record UpdateProperties : Type := mkUpdate {
  update_url : string;
  update_active : option bool;
  update_pinned : option bool
}.

Definition applyUpdate (p : UpdateProperties) (t : Tab) : Tab :=
  mkTab (tab_id t) (Some (update_url p)) (tab_title t) (tab_favIconUrl t)
        (tab_windowId t) (tab_index t)
        (default (tab_pinned t) (update_pinned p)) (tab_audible t)
        (default (tab_active t) (update_active p)) (tab_groupId t)
        (tab_lastAccessed t).

(** [chrome.tabs.get(id)] *)
Definition tabs_get (id : Z) : M Tab :=
  hostCall (TabsGet id) ;;;
  fun w =>
    match findTab id (tabs (host w)) with
    | Some t => Ok t w
    | None => Throw (HostError (TabsGet id)) w
    end.

(** [chrome.tabs.query(filter)] *)
Definition tabs_query (p : Tab -> bool) : M (list Tab) :=
  hostCall TabsQuery ;;;
  inspect (fun w => List.filter p (tabs (host w))).

(** [chrome.tabs.create(props)]: the new tab gets a fresh id and comes
    last in the enumeration; the positions of the other tabs are left
    as they are. *)
Definition tabs_create (p : CreateProperties) : M Tab :=
  hostCall TabsCreate ;;;
  fun w =>
    let ts := tabs (host w) in
    let t := mkTab (freshTabId ts) (Some (create_url p)) None None
                   (create_windowId p) (create_index p) (create_pinned p)
                   false (create_active p) (Some (-1)) (Some (clock (host w))) in
    let ts' := if create_active p then unfocusWindow (create_windowId p) ts else ts in
    Ok t (with_host (set_tabs (ts' ++ [t])) w).

Definition onExistingTab (c : HostCall) (id : Z) (f : list Tab -> list Tab) : M unit :=
  hostCall c ;;;
  fun w =>
    match findTab id (tabs (host w)) with
    | Some _ => Ok tt (with_host (set_tabs (f (tabs (host w)))) w)
    | None => Throw (HostError c) w
    end.

(** [chrome.tabs.move(id, {index})] *)
Definition tabs_move (id : Z) (index : Z) : M unit :=
  onExistingTab (TabsMove id) id (replaceTab id (setIndex index)).

(** [chrome.tabs.group({tabIds: id, groupId})] *)
Definition tabs_group (id : Z) (groupId : Z) : M unit :=
  onExistingTab (TabsGroup id) id (replaceTab id (setGroupId groupId)).

(** [chrome.tabs.remove(id)] *)
Definition tabs_remove (id : Z) : M unit :=
  onExistingTab (TabsRemove id) id (withoutTab id).

(** [chrome.tabs.update(id, props)] *)
Definition tabs_update (id : Z) (p : UpdateProperties) : M unit :=
  onExistingTab (TabsUpdate id) id
    (fun ts =>
       let ts' :=
         match update_active p, findTab id ts with
         | Some true, Some t => unfocusWindow (tab_windowId t) ts
         | _, _ => ts
         end in
       replaceTab id (applyUpdate p) ts').

(** [chrome.storage.local.get(STORAGE_KEYS.SETTINGS)] *)
Definition storage_get_settings : M (option Settings) :=
  hostCall (StorageGet SETTINGS) ;;; inspect (fun w => storedSettings (host w)).

(** [chrome.storage.local.set({settings: s})] *)
Definition storage_set_settings (s : Settings) : M unit :=
  hostCall (StorageSet SETTINGS) ;;; modify (with_host (set_storedSettings (Some s))).

(** [chrome.storage.local.set({suspendedTabs: r})] *)
Definition storage_set_tabs (r : Registry) : M unit :=
  hostCall (StorageSet SUSPENDED_TABS) ;;; modify (with_host (set_storedTabs (Some r))).

(** [chrome.alarms.clear(SCAN_ALARM).catch(() => {})]: the script does
    not wait for the alarm calls, they are taken to succeed. *)
Definition alarms_clear : M unit :=
  modify (with_host (fun h => set_alarm None (log_call AlarmsClear h))).

(** [chrome.alarms.create(SCAN_ALARM, {when})] *)
Definition alarms_create (when : Z) : M unit :=
  modify (with_host (fun h => set_alarm (Some when) (log_call (AlarmsCreate when) h))).

(** [Date.now()] *)
Definition dateNow : M Z := inspect (fun w => clock (host w)).

(** [chrome.runtime.getURL(path)] *)
Definition runtime_getURL (extId path : string) : string :=
  "chrome-extension://" +:+ extId +:+ "/" +:+ path.

End Chrome.

(** ** The background script *)

Import JsString.

(** The response objects of the suspension engine; an absent key is [None]. *)
Record Response : Type := mkResponse {
  success : bool;
  already : option bool;
  ignored : option bool;
  replaced : option bool;
  navigated : option bool;
  notSuspended : option bool;
  restored : option Strategy;
  error : option Exn
}.

(** [{ success: false }] *)
Definition plainFailure : Response :=
  mkResponse false None None None None None None None.

(** [{ success: false, already: true }] *)
Definition alreadySuspended : Response :=
  mkResponse false (Some true) None None None None None None.

(** [{ success: true, replaced: true }] *)
Definition replacedOk : Response :=
  mkResponse true None None (Some true) None None None None.

(** [{ success: true, navigated: true }] *)
Definition navigatedOk : Response :=
  mkResponse true None None None (Some true) None None None.

(** [{ success: false, notSuspended: true }] *)
Definition notSuspendedResponse : Response :=
  mkResponse false None None None None (Some true) None None.

(** [{ success: true, restored: s }] *)
Definition restoredOk (s : Strategy) : Response :=
  mkResponse true None None None None None (Some s) None.

(** [{ success: false, error: e?.message }] *)
Definition failedWith (e : Exn) : Response :=
  mkResponse false None None None None None None (Some e).

(** *** Helper functions *)

Definition suspendedPage (extId : string) : string :=
  Chrome.runtime_getURL extId "suspended.html".

Definition isTruthyString (s : option string) : bool :=
  match s with Some t => nonEmpty t | None => false end.

Definition getSuspendedUrl (extId : string) (originalUrl : string)
           (title : option string) : string :=
  let params :=
    ("url", originalUrl) ::
    (if isTruthyString title then [("title", default EmptyString title)] else []) in
  suspendedPage extId +:+ "?" +:+ UrlSearchParams.toString params.

(** [url?.startsWith(chrome.runtime.getURL(suspended.html))] *)
Definition isExtensionSuspendedPage (extId : string) (url : option string) : bool :=
  match url with
  | Some u => startsWith u (suspendedPage extId)
  | None => false
  end.

(** [whitelistEntries]: [None] when [urlWhitelist] holds a truthy value
    that has no [split] method. *)
Definition whitelistEntries (s : Settings) : option (list string) :=
  let v := s !! "urlWhitelist" in
  match (if truthy v then v else Some (JStr EmptyString)) with
  | Some (JStr text) => Some (List.filter nonEmpty (List.map trim (splitEntries text)))
  | _ => None
  end.

(** The character class of the escaping expression,
    [[.*+?^${}()|[\\]]. *)
Definition inEscapeClass (c : ascii) : bool :=
  match c with
  | "." | "*" | "+" | "?" | "^" | "$" | "{" | "}" | "(" | ")" | "|" | "["
  | "\" => true
  | _ => false
  end%char.

(** [s.replace(/[.*+?^${}()|[\\]\\]/g, ...)] with a replacement that puts
    a backslash before the match: the expression is the class above
    followed by a backslash and a closing bracket, so a match is three
    characters long. *)
Fixpoint escapeSpecials (s : string) : string :=
  match s with
  | EmptyString => EmptyString
  | String c s' =>
      match s' with
      | String "\" (String "]" rest) =>
          if inEscapeClass c
          then String "\" (String c (String "\" (String "]" (escapeSpecials rest))))
          else String c (escapeSpecials s')
      | _ => String c (escapeSpecials s')
      end
  end.

(** The source text handed to [new RegExp]. *)
Definition patternSource (pattern : string) : string :=
  "^" +:+ join ".*" (List.map escapeSpecials (splitChar "*" pattern)) +:+ "$".

(** [wl.some((pattern) => ...)] *)
Fixpoint somePattern (wl : list string) (url : string) : Result bool :=
  match wl with
  | [] => RVal false
  | pattern :: rest =>
      if String.eqb pattern "*" then RVal true
      else
        match JsRegExp.compile (patternSource pattern) with
        | JsRegExp.ReOk re =>
            if JsRegExp.test re url then RVal true else somePattern rest url
        | JsRegExp.ReSyntaxError => RThrow SyntaxError
        | JsRegExp.ReUnsupported => RUnmodelled
        end
  end.

Definition isWhitelisted (s : Settings) (url : string) : Result bool :=
  match whitelistEntries s with
  | None => RThrow TypeError
  | Some [] => RVal false
  | Some wl => somePattern wl url
  end.

Definition eligibleForSuspend (s : Settings) (extId : string) (tab : Tab)
           (reason : Reason) : Result bool :=
  if tab_id tab =? 0 then RVal false
  else
    let url := default EmptyString (tab_url tab) in
    if negb (startsWith url "http") && negb (startsWith url "file:") then RVal false
    else if isExtensionSuspendedPage extId (Some url) then RVal false
    else if truthy (s !! "ignorePinned") && tab_pinned tab then RVal false
    else if truthy (s !! "ignoreAudio") && tab_audible tab then RVal false
    else if truthy (s !! "ignoreActive") && tab_active tab
            && bool_decide (reason = Auto) then RVal false
    else
      match isWhitelisted s url with
      | RVal true => RVal false
      | RVal false => RVal true
      | RThrow e => RThrow e
      | RUnmodelled => RUnmodelled
      end.

Definition getSettings : M Settings := inspect (fun w => currentSettings (globals w)).
Definition getCache : M Registry := inspect (fun w => suspendedTabsCache (globals w)).
Definition getActivity : M ActivityMap := inspect (fun w => lastActivityMap (globals w)).
Definition getExtensionId : M string := inspect (fun w => extensionId (host w)).

Definition setCache (f : Registry -> Registry) : M unit :=
  modify (with_globals (fun g => set_suspendedTabsCache (f (suspendedTabsCache g)) g)).

Definition setActivity (f : ActivityMap -> ActivityMap) : M unit :=
  modify (with_globals (fun g => set_lastActivityMap (f (lastActivityMap g)) g)).

Definition setSettings (s : Settings) : M unit :=
  modify (with_globals (set_currentSettings s)).

(** A statement whose exception is swallowed: [try { m } catch {}]. *)
Definition swallow (m : M unit) : M unit := tryCatch m (fun _ => ret tt).

Definition persistSuspendedCache : M unit :=
  swallow (do cache <- getCache ; Chrome.storage_set_tabs cache).

(** *** Suspension core *)

(** [baseRecord] with its [strategy] and [placeholderTabId]. The policy
    has accepted the tab when the record is built, so [tab.url] is a
    string. *)
Definition baseRecord (tab : Tab) (reason : Reason) (now : Z)
           (strategy : Strategy) (placeholder : option Z) : TabRecord :=
  mkTabRecord (default EmptyString (tab_url tab)) (tab_title tab) (tab_favIconUrl tab) now
              reason (tab_id tab) (tab_windowId tab) (tab_index tab)
              (tab_pinned tab) (tab_active tab) strategy placeholder.

(** The replace strategy, the inner [try] block of [suspendTab]. *)
Definition replaceStrategy (tab : Tab) (reason : Reason) (now : Z) : M Response :=
  do extId <- getExtensionId ;
  let suspendedUrl := getSuspendedUrl extId (default EmptyString (tab_url tab)) (tab_title tab) in
  do newTab <- Chrome.tabs_create
              (Chrome.mkCreate (tab_windowId tab) (tab_index tab + 1) (tab_active tab)
                               (tab_pinned tab) suspendedUrl) ;
  swallow (if negb (tab_index newTab =? tab_index tab)
           then Chrome.tabs_move (tab_id newTab) (tab_index tab)
           else ret tt) ;;;
  match tab_groupId tab with
  | Some g => if 0 <=? g then swallow (Chrome.tabs_group (tab_id newTab) g) else ret tt
  | None => ret tt
  end ;;;
  setCache (insert (tab_id newTab)
                   (baseRecord tab reason now Replace (Some (tab_id newTab)))) ;;;
  persistSuspendedCache ;;;
  swallow (Chrome.tabs_remove (tab_id tab)) ;;;
  ret replacedOk.

(** The navigate strategy, the fallback of [suspendTab]. *)
Definition navigateStrategy (tabId : Z) (tab : Tab) (reason : Reason) (now : Z)
  : M Response :=
  let record := baseRecord tab reason now Navigate None in
  setCache (insert tabId record) ;;;
  persistSuspendedCache ;;;
  do extId <- getExtensionId ;
  Chrome.tabs_update tabId
    (Chrome.mkUpdate (getSuspendedUrl extId (rec_url record) (rec_title record))
                     None None) ;;;
  ret navigatedOk.

Definition suspendTab (tabId : Z) (reason : Reason) : M Response :=
  tryCatch
    (do tab <- Chrome.tabs_get tabId ;
     do s <- getSettings ;
     do extId <- getExtensionId ;
     do eligible <- liftR (eligibleForSuspend s extId tab reason) ;
     if negb eligible then ret plainFailure
     else if isExtensionSuspendedPage extId (tab_url tab) then ret alreadySuspended
     else
       do cache <- getCache ;
       match cache !! tabId with
       | Some _ => ret alreadySuspended
       | None =>
           do now <- Chrome.dateNow ;
           do r <- tryCatch (do resp <- replaceStrategy tab reason now ; ret (Some resp))
                         (fun _ => ret None) ;
           match r with
           | Some resp => ret resp
           | None => navigateStrategy tabId tab reason now
           end
       end)
    (fun e => ret (failedWith e)).

Definition unsuspendTab (tabId : Z) : M Response :=
  tryCatch
    (do cache <- getCache ;
     match cache !! tabId with
     | None => ret notSuspendedResponse
     | Some rec =>
         setCache (delete tabId) ;;;
         persistSuspendedCache ;;;
         match rec_strategy rec with
         | Replace =>
             Chrome.tabs_update tabId
               (Chrome.mkUpdate (rec_url rec) (Some true) (Some (rec_pinned rec))) ;;;
             ret (restoredOk Replace)
         | Navigate =>
             Chrome.tabs_update tabId (Chrome.mkUpdate (rec_url rec) None None) ;;;
             ret (restoredOk Navigate)
         end
     end)
    (fun e => ret (failedWith e)).

(** *** Auto suspension: the single-alarm scheduler *)

(** [ToNumber] of a property read; [None] is [NaN]. *)
Definition toNumber (h : Host) (v : option JsVal) : option Z :=
  match v with
  | None => None
  | Some JNull => Some 0
  | Some (JBool b) => Some (if b then 1 else 0)
  | Some (JNum n) => Some n
  | Some (JStr s) => stringToNumber h s
  end.

(** [currentSettings.autoSuspendTime * 60 * 1000] *)
Definition thresholdMs (h : Host) (s : Settings) : option Z :=
  match toNumber h (s !! "autoSuspendTime") with
  | Some n => Some (n * 60 * 1000)
  | None => None
  end.

(** [Math.min(nextDelay, x)] where [None] is [Infinity]. *)
Definition minDelay (nextDelay : option Z) (x : Z) : option Z :=
  match nextDelay with
  | None => Some x
  | Some d => Some (Z.min d x)
  end.

Definition truthyNumber (v : option Z) : bool :=
  match v with
  | Some n => negb (n =? 0)
  | None => false
  end.

(** [a || b] on numbers that may be undefined. *)
Definition orElse (a b : option Z) : option Z := if truthyNumber a then a else b.

(** One turn of the [for (const tab of tabs)] loop; the result is the
    new value of [nextDelay]. *)
Definition scanTab (fr : ScanFrame) (nextDelay : option Z) (tab : Tab)
  : M (option Z) :=
  if tab_id tab =? 0 then ret nextDelay
  else
    do extId <- getExtensionId ;
    if isExtensionSuspendedPage extId (tab_url tab) then ret nextDelay
    else
      do seen <- getActivity ;
      (if negb (truthyNumber (seen !! tab_id tab)) && truthyNumber (tab_lastAccessed tab)
       then setActivity (insert (tab_id tab) (default 0 (tab_lastAccessed tab)))
       else ret tt) ;;;
      do activity <- getActivity ;
      let last := orElse (activity !! tab_id tab) (tab_lastAccessed tab) in
      if negb (truthyNumber last) then ret nextDelay
      else
        let inactiveFor := frame_now fr - default 0 last in
        if frame_thresholdMs fr <=? inactiveFor then
          do s <- getSettings ;
          do eligible <- liftR (eligibleForSuspend s extId tab Auto) ;
          if eligible then
            swallow (do _ <- suspendTab (tab_id tab) Auto ; ret tt) ;;;
            ret nextDelay
          else ret (minDelay nextDelay (frame_thresholdMs fr))
        else
          let remaining := frame_thresholdMs fr - inactiveFor in
          ret (minDelay nextDelay remaining).

Fixpoint scanTabs (fr : ScanFrame) (nextDelay : option Z) (ts : list Tab)
  : M (option Z) :=
  match ts with
  | [] => ret nextDelay
  | tab :: rest =>
      do d <- scanTab fr nextDelay tab ;
      scanTabs fr d rest
  end.

(** [Math.max(5000, Math.min(nextDelay, Math.max(thresholdMs, 15 * 60 * 1000)))]
    after [Infinity] was replaced by five minutes. *)
Definition clampDelay (threshold : Z) (nextDelay : option Z) : Z :=
  let d := default (5 * 60 * 1000) nextDelay in
  Z.max 5000 (Z.min d (Z.max threshold (15 * 60 * 1000))).

(** The [try] block of [runInactivityScan] from the tab query on. *)
Definition scanBody (fr : ScanFrame) : M unit :=
  do ts <- Chrome.tabs_query (fun _ => true) ;
  do nextDelay <- scanTabs fr None ts ;
  do now <- Chrome.dateNow ;
  Chrome.alarms_create (now + clampDelay (frame_thresholdMs fr) nextDelay).

Definition setRunning (b : bool) : M unit :=
  modify (with_globals (set_scanRunning b)).

Definition setRerunRequested (b : bool) : M unit :=
  modify (with_globals (set_scanRerunRequested b)).

(** A call whose promise nobody waits for: what it throws is lost. *)
Definition detached (m : M unit) : M unit := tryCatch m (fun _ => ret tt).

(** The [finally] block; [again] is the call of [runInactivityScan] it
    makes when a rerun was requested. *)
Definition scanFinally (again : M unit) : M unit :=
  setRunning false ;;;
  do g <- inspect globals ;
  if scanRerunRequested g
  then setRerunRequested false ;;; detached again
  else ret tt.

(** [runInactivityScan()] up to the point where it first waits (for the
    tab query) or returns; [again] is the call its [finally] block makes. *)
Definition scanCall (again : M unit) : M unit :=
  do g <- inspect globals ;
  if scanRunning g then setRerunRequested true
  else
    setRunning true ;;;
    modify count_scan ;;;
    Chrome.alarms_clear ;;;
    do s <- getSettings ;
    if negb (truthy (s !! "autoSuspend")) then scanFinally again
    else
      do h <- inspect host ;
      match thresholdMs h s with
      | None => scanFinally again
      | Some threshold =>
          if threshold =? 0 then scanFinally again
          else
            do now <- Chrome.dateNow ;
            modify (fun w => set_scans (scans w ++ [mkScanFrame threshold now]) w)
      end.

(** The function calls itself from its [finally] block; [fuel] bounds the
    depth of these calls. *)
Fixpoint runInactivityScan_upto (fuel : nat) : M unit :=
  match fuel with
  | O => fun _ => Unmodelled
  | S fuel' => scanCall (runInactivityScan_upto fuel')
  end.

(** The call made by a [finally] block finds both flags cleared and makes
    no further call, so a depth of two is never exceeded. *)
Definition runInactivityScan : M unit := runInactivityScan_upto 2.

(** The rest of a scan, once its tab query is answered. *)
Definition resumeScan : M unit :=
  do pending <- inspect scans ;
  match pending with
  | [] => ret tt
  | fr :: rest =>
      modify (set_scans rest) ;;;
      tryFinally (scanBody fr) (scanFinally runInactivityScan)
  end.

Definition configureAlarm : M unit :=
  Chrome.alarms_clear ;;;
  do s <- getSettings ;
  if negb (truthy (s !! "autoSuspend")) then ret tt
  else detached runInactivityScan.

(** *** Settings *)

(** [typeof v !== number || v <= 0] *)
Definition invalidSuspendTime (v : option JsVal) : bool :=
  match v with
  | Some (JNum n) => n <=? 0
  | _ => true
  end.

Definition loadSettings : M unit :=
  tryCatch
    (do stored <- Chrome.storage_get_settings ;
     setSettings (spread DEFAULT_SETTINGS (default ∅ stored)) ;;;
     do s <- getSettings ;
     (if invalidSuspendTime (s !! "autoSuspendTime")
      then setSettings (<["autoSuspendTime" := DEFAULT_autoSuspendTime]> s)
      else ret tt) ;;;
     configureAlarm)
    (fun _ => setSettings DEFAULT_SETTINGS).

Definition saveSettings (newSettings : Settings) : M bool :=
  tryCatch
    (do s <- getSettings ;
     setSettings (spread s newSettings) ;;;
     do s' <- getSettings ;
     Chrome.storage_set_settings s' ;;;
     configureAlarm ;;;
     ret true)
    (fun _ => ret false).

(** *** Tab life-cycle hooks *)

(** [chrome.alarms.onAlarm]; [isScanAlarm] is [alarm.name === SCAN_ALARM]. *)
Definition onAlarm (isScanAlarm : bool) : M unit :=
  if isScanAlarm then detached runInactivityScan else ret tt.

(** [chrome.tabs.onRemoved] *)
Definition onRemoved (tabId : Z) : M unit :=
  swallow
    (do cache <- getCache ;
     match cache !! tabId with
     | Some _ => setCache (delete tabId) ;;; persistSuspendedCache
     | None => ret tt
     end ;;;
     do activity <- getActivity ;
     if truthyNumber (activity !! tabId)
     then setActivity (delete tabId)
     else ret tt).

(** [chrome.tabs.onUpdated]; [changeUrl] is [changeInfo.url]. *)
Definition onUpdated (tabId : Z) (changeUrl : option string) : M unit :=
  do cache <- getCache ;
  if isTruthyString changeUrl && bool_decide (is_Some (cache !! tabId))
  then
    swallow
      (do extId <- getExtensionId ;
       if negb (isExtensionSuspendedPage extId changeUrl)
       then setCache (delete tabId) ;;; persistSuspendedCache
       else ret tt)
  else ret tt.

(** [chrome.tabs.onActivated] *)
Definition onActivated (tabId : Z) : M unit :=
  do now <- Chrome.dateNow ;
  setActivity (insert tabId now) ;;;
  do s <- getSettings ;
  if truthy (s !! "autoSuspend") then detached runInactivityScan else ret tt.

(** *** Messaging API *)

(** The requests of [chrome.runtime.onMessage] that are embedded, with
    the fields of the request each one reads. *)
Inductive Action : Type :=
| GetSettings
| SaveSettings (settings : option Settings)
| SuspendTab (tabId : option Z)
| UnsuspendTab (tabId : option Z)
| GetSuspendedTabData
| RestoreTab (url : option string)
| ActivityPing.

Inductive Reply : Type :=
| ReplySettings (s : Settings)
| ReplySaved (settings : Settings)          (* { success: true, settings } *)
| ReplyResponse (r : Response)
| ReplyRecord (r : option TabRecord)        (* a record, or null/undefined *)
| ReplyRestore (ok fallback : bool)         (* { success, fallback? } *)
| ReplyPing.                                (* { ok: true } *)

(** [req.tabId || sender.tab?.id || (await chrome.tabs.query({active: true,
    currentWindow: true}))[0]?.id] *)
Definition resolveTabId (reqTabId senderTabId : option Z) : M (option Z) :=
  if truthyNumber reqTabId then ret reqTabId
  else if truthyNumber senderTabId then ret senderTabId
  else
    do current <- inspect (fun w => currentWindow (host w)) ;
    do found <- Chrome.tabs_query
                  (fun t => tab_active t && (tab_windowId t =? current)) ;
    ret (tab_id <$> head found).

(** The listener; [senderTabId] is [sender.tab?.id]. *)
Definition onMessage (req : Action) (senderTabId : option Z) : M Reply :=
  match req with
  | GetSettings =>
      do s <- getSettings ; ret (ReplySettings s)
  | SaveSettings settings =>
      do _ <- saveSettings (default ∅ settings) ;
      do s <- getSettings ;
      ret (ReplySaved s)
  | SuspendTab reqTabId =>
      do tabId <- resolveTabId reqTabId senderTabId ;
      match tabId with
      | None => ret (ReplyResponse plainFailure)
      | Some id => do r <- suspendTab id Manual ; ret (ReplyResponse r)
      end
  | UnsuspendTab reqTabId =>
      do tabId <- resolveTabId reqTabId senderTabId ;
      match tabId with
      | None => ret (ReplyResponse plainFailure)
      | Some id => do r <- unsuspendTab id ; ret (ReplyResponse r)
      end
  | GetSuspendedTabData =>
      do cache <- getCache ;
      ret (ReplyRecord (match senderTabId with
                        | Some id => cache !! id
                        | None => None
                        end))
  | RestoreTab url =>
      do cache <- getCache ;
      match senderTabId with
      | Some id =>
          if truthyNumber senderTabId && bool_decide (is_Some (cache !! id))
          then do _ <- unsuspendTab id ; ret (ReplyRestore true false)
          else if truthyNumber senderTabId && isTruthyString url
          then Chrome.tabs_update id (Chrome.mkUpdate (default EmptyString url) None None) ;;;
               ret (ReplyRestore true true)
          else ret (ReplyRestore false false)
      | None => ret (ReplyRestore false false)
      end
  | ActivityPing =>
      (if truthyNumber senderTabId
       then do now <- Chrome.dateNow ;
            setActivity (insert (default 0 senderTabId) now)
       else ret tt) ;;;
      ret ReplyPing
  end.

(** ** Notions used by the statements *)

(** *** The world after a step of the script *)

(** The world after [persistSuspendedCache]: the call is recorded, and
    the registry is written unless the host rejects the write. *)
Definition afterPersist (w : World) : World :=
  let w1 := with_host (log_call (StorageSet SUSPENDED_TABS)) w in
  if rejects (host w) (StorageSet SUSPENDED_TABS) then w1
  else with_host (set_storedTabs (Some (suspendedTabsCache (globals w)))) w1.

(** The world after [delete suspendedTabsCache[tabId]] and the persist
    that follows it. *)
Definition afterDelete (tabId : Z) (w : World) : World :=
  afterPersist
    (with_globals (fun g => set_suspendedTabsCache (delete tabId (suspendedTabsCache g)) g) w).

(** What the two hooks do to a tab id that has a record. *)
Definition forget (tabId : Z) (w : World) : World :=
  match suspendedTabsCache (globals w) !! tabId with
  | Some _ => afterDelete tabId w
  | None => w
  end.

(** The update that [unsuspendTab] asks for. *)
Definition restoreProperties (rec : TabRecord) : Chrome.UpdateProperties :=
  match rec_strategy rec with
  | Replace => Chrome.mkUpdate (rec_url rec) (Some true) (Some (rec_pinned rec))
  | Navigate => Chrome.mkUpdate (rec_url rec) None None
  end.

(** The tab list after an update that the host carried out. *)
Definition afterUpdate (id : Z) (p : Chrome.UpdateProperties) (ts : list Tab) : list Tab :=
  let ts' :=
    match Chrome.update_active p, Chrome.findTab id ts with
    | Some true, Some t => Chrome.unfocusWindow (tab_windowId t) ts
    | _, _ => ts
    end in
  Chrome.replaceTab id (Chrome.applyUpdate p) ts'.

(** Whether [chrome.tabs.update(id, ...)] throws in world [w]. *)
Definition updateThrows (w : World) (id : Z) : bool :=
  rejects (host w) (TabsUpdate id)
  || match Chrome.findTab id (tabs (host w)) with Some _ => false | None => true end.

(** Whether [chrome.tabs.get(id)] throws in world [w]. *)
Definition getThrows (w : World) (id : Z) : bool :=
  rejects (host w) (TabsGet id)
  || match Chrome.findTab id (tabs (host w)) with Some _ => false | None => true end.

(** *** What a computation leaves alone *)

(** The part of the world that a call of the scan leaves alone until the
    scan is resumed. *)
Definition dataOf (w : World) :=
  (currentSettings (globals w), suspendedTabsCache (globals w),
   lastActivityMap (globals w), tabs (host w), storedSettings (host w),
   storedTabs (host w), rejects (host w), extensionId (host w), clock (host w),
   stringToNumber (host w)).

(** No scan runs and no rerun is requested. *)
Definition flagsClear (w : World) : Prop :=
  scanRunning (globals w) = false /\ scanRerunRequested (globals w) = false.

(** What the suspension engine leaves alone: it works on the tabs, the
    registry, storage and the call log only. *)
Definition hostFrame (w w' : World) : Prop :=
  rejects (host w') = rejects (host w) /\
  extensionId (host w') = extensionId (host w) /\
  stringToNumber (host w') = stringToNumber (host w) /\
  clock (host w') = clock (host w) /\
  currentSettings (globals w') = currentSettings (globals w) /\
  lastActivityMap (globals w') = lastActivityMap (globals w) /\
  scanRunning (globals w') = scanRunning (globals w) /\
  scanRerunRequested (globals w') = scanRerunRequested (globals w) /\
  scans w' = scans w /\
  scansStarted w' = scansStarted w.

(** The scheduler's own state. *)
Definition schedulerOf (w : World) :=
  (scanRunning (globals w), scanRerunRequested (globals w), scans w, scansStarted w).

(** What the eligibility policy and the host calls depend on. *)
Definition policyOf (w : World) :=
  (currentSettings (globals w), extensionId (host w), clock (host w),
   rejects (host w), stringToNumber (host w)).

(** One turn of the scan loop on the tab [id]: in the activity map only
    the entry of that tab can change. *)
Definition scanStep (id : Z) (w w' : World) : Prop :=
  schedulerOf w' = schedulerOf w /\ policyOf w' = policyOf w /\
  forall k, k <> id -> lastActivityMap (globals w') !! k = lastActivityMap (globals w) !! k.

(** Any number of turns of the scan loop. *)
Definition scanKeeps (w w' : World) : Prop :=
  schedulerOf w' = schedulerOf w /\ policyOf w' = policyOf w.

(** *** The outcomes of a suspension *)

(** The placeholder as the later steps of the replace strategy see it. *)
Definition placeholderAt (id : Z) (url : string) (ts : list Tab) : Prop :=
  exists t, Chrome.findTab id ts = Some t /\ tab_url t = Some url.

(** The tab id under which a successful suspension leaves its record: the
    placeholder's under the replace strategy, the tab's own under navigate. *)
Definition resultingTabId (w : World) (tabId : Z) (resp : Response) : Z :=
  match replaced resp with
  | Some true => Chrome.freshTabId (tabs (host w))
  | _ => tabId
  end.

(** The outcome of a suspension that passed the guards. *)
Definition Suspended (w : World) (tabId : Z) (tab : Tab) (reason : Reason)
           (resp : Response) (w' : World) : Prop :=
  let rid := resultingTabId w tabId resp in
  exists rec,
    suspendedTabsCache (globals w') = <[rid := rec]> (suspendedTabsCache (globals w)) /\
    rec_url rec = default EmptyString (tab_url tab) /\
    rec_reason rec = reason /\
    (resp = replacedOk /\ rec_strategy rec = Replace /\ rec_placeholderTabId rec = Some rid
     \/ resp = navigatedOk /\ rec_strategy rec = Navigate) /\
    placeholderAt rid (getSuspendedUrl (extensionId (host w)) (rec_url rec) (rec_title rec))
                  (tabs (host w')).

(** All the ways a call of [suspendTab] can end. *)
Inductive SuspendOutcome (w : World) (tabId : Z) (reason : Reason)
  : Outcome Response -> Prop :=
| SuspendGetFailed :
    getThrows w tabId = true ->
    SuspendOutcome w tabId reason
      (Ok (failedWith (HostError (TabsGet tabId))) (with_host (log_call (TabsGet tabId)) w))
| SuspendIneligible tab :
    Chrome.findTab tabId (tabs (host w)) = Some tab ->
    eligibleForSuspend (currentSettings (globals w)) (extensionId (host w)) tab reason
      = RVal false ->
    SuspendOutcome w tabId reason
      (Ok plainFailure (with_host (log_call (TabsGet tabId)) w))
| SuspendPolicyThrew tab e :
    Chrome.findTab tabId (tabs (host w)) = Some tab ->
    eligibleForSuspend (currentSettings (globals w)) (extensionId (host w)) tab reason
      = RThrow e ->
    SuspendOutcome w tabId reason
      (Ok (failedWith e) (with_host (log_call (TabsGet tabId)) w))
| SuspendUnmodelled tab :
    Chrome.findTab tabId (tabs (host w)) = Some tab ->
    eligibleForSuspend (currentSettings (globals w)) (extensionId (host w)) tab reason
      = RUnmodelled ->
    SuspendOutcome w tabId reason Unmodelled
| SuspendAlready tab rec :
    Chrome.findTab tabId (tabs (host w)) = Some tab ->
    eligibleForSuspend (currentSettings (globals w)) (extensionId (host w)) tab reason
      = RVal true ->
    suspendedTabsCache (globals w) !! tabId = Some rec ->
    SuspendOutcome w tabId reason
      (Ok alreadySuspended (with_host (log_call (TabsGet tabId)) w))
| SuspendDone tab resp w' :
    Chrome.findTab tabId (tabs (host w)) = Some tab ->
    eligibleForSuspend (currentSettings (globals w)) (extensionId (host w)) tab reason
      = RVal true ->
    suspendedTabsCache (globals w) !! tabId = None ->
    hostFrame w w' ->
    Suspended w tabId tab reason resp w' ->
    SuspendOutcome w tabId reason (Ok resp w')
| SuspendNavigationFailed tab w' :
    Chrome.findTab tabId (tabs (host w)) = Some tab ->
    eligibleForSuspend (currentSettings (globals w)) (extensionId (host w)) tab reason
      = RVal true ->
    rejects (host w) TabsCreate = true ->
    updateThrows w tabId = true ->
    hostFrame w w' ->
    tabs (host w') = tabs (host w) ->
    SuspendOutcome w tabId reason (Ok (failedWith (HostError (TabsUpdate tabId))) w').

(** *** Settings *)

(** A property read that gives a positive number. *)
Definition positiveNumber (v : option JsVal) : Prop :=
  exists n, v = Some (JNum n) /\ 0 < n.

(** *** The contributions of the tabs to the next wake-up *)

(** The last known activity of a tab: its entry of the activity map, or
    the host's last-accessed time. *)
Definition lastSeen (activity : ActivityMap) (tab : Tab) : option Z :=
  orElse (activity !! tab_id tab) (tab_lastAccessed tab).

(** The activity map after the loop has seen [tab]: an unseen tab gets
    the host's last-accessed time. *)
Definition seed (activity : ActivityMap) (tab : Tab) : ActivityMap :=
  if negb (truthyNumber (activity !! tab_id tab)) && truthyNumber (tab_lastAccessed tab)
  then <[tab_id tab := default 0 (tab_lastAccessed tab)]> activity
  else activity.

(** What a tab contributes to the next wake-up delay, following the
    scheduler's description: nothing for a placeholder, for a tab without
    activity information and for a tab that is due and eligible (it is
    handed to [suspendTab]); the time remaining for a tab that is not due
    yet; a full threshold for a tab that is due but exempt. *)
Definition contribution (s : Settings) (extId : string) (activity : ActivityMap)
           (fr : ScanFrame) (tab : Tab) : option Z :=
  if tab_id tab =? 0 then None
  else if isExtensionSuspendedPage extId (tab_url tab) then None
  else
    match lastSeen activity tab with
    | None => None
    | Some last =>
        if last =? 0 then None
        else
          let inactiveFor := frame_now fr - last in
          if frame_thresholdMs fr <=? inactiveFor
          then match eligibleForSuspend s extId tab Auto with
               | RVal false => Some (frame_thresholdMs fr)
               | _ => None
               end
          else Some (frame_thresholdMs fr - inactiveFor)
    end.

(** The contributions of the tabs, in the order of the enumeration. *)
Definition contributions (s : Settings) (extId : string) (activity : ActivityMap)
           (fr : ScanFrame) (ts : list Tab) : list Z :=
  omap (contribution s extId activity fr) ts.

(** [m] is the minimum of the list [l]. *)
Definition IsMinimum (m : Z) (l : list Z) : Prop :=
  In m l /\ forall c, In c l -> m <= c.

(** The accumulator [nextDelay] after a tab that contributes [c]. *)
Definition addContribution (d : option Z) (c : option Z) : option Z :=
  match c with
  | Some x => minDelay d x
  | None => d
  end.

(** *** The scheduler as a transition system *)

(** What happens to the scheduler: [Trigger] is a call of
    [runInactivityScan()] (by the alarm, a tab activation or a change of
    settings), [Resume] is the scan in flight getting the answer to its
    tab query and running to its end. A call that arrives while the loop
    of a scan is waiting for [suspendTab] sets a flag that the loop
    neither reads nor writes, so it has the effect of a [Trigger] before
    the [Resume]. *)
Inductive SchedEvent : Type := Trigger | Resume.

(** Nobody waits for these calls: what they throw is lost. *)
Definition fire (ev : SchedEvent) : M unit :=
  match ev with
  | Trigger => detached runInactivityScan
  | Resume => detached resumeScan
  end.

Fixpoint runEvents (evs : list SchedEvent) : M unit :=
  match evs with
  | [] => ret tt
  | ev :: rest => fire ev ;;; runEvents rest
  end.

(** Between two events: [scanRunning] is set exactly when one scan is in
    flight, and a rerun is requested only while one is. *)
Definition SchedInv (w : World) : Prop :=
  (scanRunning (globals w) = true -> exists fr, scans w = [fr]) /\
  (scanRunning (globals w) = false ->
   scans w = [] /\ scanRerunRequested (globals w) = false).

(** *** Whitelist matching as the documentation describes it *)

(** A pattern matches a URL when the URL is the pattern with every [*]
    replaced by some (possibly empty) text: characters other than [*]
    stand for themselves, upper and lower case are different, and the
    whole URL has to be matched. *)
Fixpoint globMatch (pattern : string) : string -> bool :=
  match pattern with
  | EmptyString => fun url => negb (JsString.nonEmpty url)
  | String c pattern' =>
      if JsString.ascii_eqb c "*"
      then fix star (url : string) : bool :=
             globMatch pattern' url ||
             match url with
             | EmptyString => false
             | String _ url' => star url'
             end
      else fun url =>
             match url with
             | EmptyString => false
             | String d url' => JsString.ascii_eqb c d && globMatch pattern' url'
             end
  end.

(** *** Patterns without regular-expression syntax *)

(** The characters that the pattern syntax gives a meaning to. *)
Definition regexSpecial (c : ascii) : bool :=
  match c with
  | "^" | "$" | "\" | "." | "*" | "+" | "?" | "(" | ")" | "[" | "{" | "|" => true
  | _ => false
  end%char.

(** A pattern made of [*] and of characters without a meaning of their own. *)
Fixpoint plainPattern (p : string) : bool :=
  match p with
  | EmptyString => true
  | String c p' => (ascii_eqb c "*" || negb (regexSpecial c)) && plainPattern p'
  end.

(** A text without line terminators, as every URL is. *)
Fixpoint singleLine (s : string) : bool :=
  match s with
  | EmptyString => true
  | String c s' => negb (JsRegExp.isLineTerminator c) && singleLine s'
  end.

(** The terms that a plain pattern compiles to. *)
Fixpoint termsOf (p : string) : list JsRegExp.Regex :=
  match p with
  | EmptyString => []
  | String c p' =>
      (if ascii_eqb c "*" then JsRegExp.RStar JsRegExp.RAny else JsRegExp.RChar c)
      :: termsOf p'
  end.

(** The terms in sequence, followed by [z]. *)
Fixpoint chain (ts : list JsRegExp.Regex) (z : JsRegExp.Regex) : JsRegExp.Regex :=
  match ts with
  | [] => z
  | t :: ts' => JsRegExp.RSeq t (chain ts' z)
  end.

(** The pattern with [.*] for every [*]. *)
Fixpoint expand (p : string) : string :=
  match p with
  | EmptyString => EmptyString
  | String c p' =>
      if ascii_eqb c "*" then String "." (String "*" (expand p'))
      else String c (expand p')
  end.

(** The frame of the parser after it read the expansion of [p]. *)
Fixpoint readTerms (p : string) (cur : JsRegExp.Frame) : JsRegExp.Frame :=
  match p with
  | EmptyString => cur
  | String c p' =>
      readTerms p'
        (if ascii_eqb c "*"
         then JsRegExp.mkFrame (JsRegExp.alts cur)
                (JsRegExp.RStar JsRegExp.RAny :: JsRegExp.terms cur) JsRegExp.LQuant
         else JsRegExp.pushTerm (JsRegExp.RChar c) JsRegExp.LAtom cur)
  end.

(** Every character of [s] satisfies [f]. *)
Fixpoint allChars (f : ascii -> bool) (s : string) : bool :=
  match s with
  | EmptyString => true
  | String c s' => f c && allChars f s'
  end.

(** The escaping expression needs a backslash in the text to match. *)
Definition notBackslash (c : ascii) : bool := negb (ascii_eqb c "\").

(** [f] holds at the position or at a later one. *)
Fixpoint anySuffix (f : nat -> string -> bool) (pos : nat) (s : string) : bool :=
  f pos s ||
  match s with
  | EmptyString => false
  | String _ s' => anySuffix f (S pos) s'
  end.

(** *** Sample worlds *)

Module Sample.

(** The id under which the browser installed the extension. *)
Definition extId : string := "abcdefghijklmnopabcdefghijklmnop".

(** An ordinary page in the foreground, last used at time 4000000. *)
Definition page : Tab :=
  mkTab 1 (Some "https://mail.example.com/inbox") (Some "Inbox") None 1 0
        false false true (Some (-1)) (Some 4000000).

(** A pinned page in the background, last used at time 3000000. *)
Definition pinnedPage : Tab :=
  mkTab 2 (Some "https://example.org/") (Some "Example") None 1 1
        true false false (Some (-1)) (Some 3000000).

(** A browser with the two pages in one window, at time 5000000. *)
Definition hostWith (rejected : HostCall -> bool) (stored : option Settings) : Host :=
  mkHost [page; pinnedPage] 1 stored None None 5000000 extId rejected
         (fun _ => None) [].

(** The module's variables when the worker starts. *)
Definition start : Globals := mkGlobals DEFAULT_SETTINGS ∅ ∅ false false.

(** A host that accepts every call. *)
Definition world : World := mkWorld (hostWith (fun _ => false) None) start [] 0.

(** A host on which tabs cannot be navigated. *)
Definition noNavigation (c : HostCall) : bool :=
  match c with TabsUpdate _ => true | _ => false end.

Definition stubbornWorld : World := mkWorld (hostWith noNavigation None) start [] 0.

(** A host on which tabs cannot be created. *)
Definition noCreation (c : HostCall) : bool :=
  match c with TabsCreate => true | _ => false end.

Definition crampedWorld : World := mkWorld (hostWith noCreation None) start [] 0.

(** The world a computation ends in. *)
Definition worldOf {A} (o : Outcome A) : World :=
  match o with
  | Ok _ w | Throw _ w => w
  | Unmodelled => world
  end.

(** The default settings with a whitelist. *)
Definition withWhitelist (text : string) : Settings :=
  <["urlWhitelist" := JStr text]> DEFAULT_SETTINGS.

(** The world after the foreground page was suspended by hand, on each
    of the three hosts. *)
Definition afterReplace : World := worldOf (suspendTab 1 Manual world).

Definition afterNavigate : World := worldOf (suspendTab 1 Manual crampedWorld).

Definition afterReplaceStubborn : World := worldOf (suspendTab 1 Manual stubbornWorld).

(** The record of the suspended foreground page. *)
Definition pageRecord : TabRecord :=
  baseRecord page Manual 5000000 Replace (Some 3).

(** A placeholder (tab 3) that the user has looked at. *)
Definition trackedWorld : World :=
  mkWorld (hostWith (fun _ => false) None)
          (mkGlobals DEFAULT_SETTINGS (<[3 := pageRecord]> ∅) (<[3 := 4000000]> ∅)
                     false false)
          [] 0.

(** A scan in flight: the world after a first call of the scan. *)
Definition inFlightWorld : World := worldOf (runInactivityScan world).

(** A scan with a threshold of 30 minutes, started at time 5000000. *)
Definition thirtyMinutes : ScanFrame := mkScanFrame (30 * 60 * 1000) 5000000.

(** Storage holding a negative timeout. *)
Definition negativeTime : Settings := <["autoSuspendTime" := JNum (-5)]> ∅.

Definition worldWithNegativeTime : World :=
  mkWorld (hostWith (fun _ => false) (Some negativeTime)) start [] 0.

End Sample.

Import Sample.

(** ** The rest of the background script *)

(** *** Loading the registry *)

(** A value read back from storage. *)
#[warnings="-register-all"]
Inductive Json : Type :=
| JsonNull
| JsonBool (b : bool)
| JsonNumber (n : Z)
| JsonString (s : string)
| JsonArray (items : list Json)
| JsonObject (fields : list (string * Json)).

(** [obj[key]] *)
Fixpoint property (key : string) (fields : list (string * Json)) : option Json :=
  match fields with
  | [] => None
  | (k, v) :: rest => if String.eqb k key then Some v else property key rest
  end.

(** [val && typeof val === object && typeof val.url === string]: an
    array is an object too, but has no [url]. *)
Definition validEntry (val : Json) : bool :=
  match val with
  | JsonObject fields =>
      match property "url" fields with
      | Some (JsonString _) => true
      | _ => false
      end
  | _ => false
  end.

(** A property that is left out when its value is [undefined]. *)
Definition optionalField (key : string) (v : option Json) : list (string * Json) :=
  match v with
  | Some j => [(key, j)]
  | None => []
  end.

(** A record of the registry as storage hands it back. *)
Definition storedRecord (r : TabRecord) : Json :=
  JsonObject
    ([("url", JsonString (rec_url r))]
     ++ optionalField "title" (JsonString <$> rec_title r)
     ++ optionalField "favicon" (JsonString <$> rec_favicon r)
     ++ [("suspendedAt", JsonNumber (rec_suspendedAt r));
         ("reason", JsonString (match rec_reason r with Manual => "manual" | Auto => "auto" end));
         ("originalTabId", JsonNumber (rec_originalTabId r));
         ("windowId", JsonNumber (rec_windowId r));
         ("index", JsonNumber (rec_index r));
         ("pinned", JsonBool (rec_pinned r));
         ("wasActive", JsonBool (rec_wasActive r));
         ("strategy", JsonString (match rec_strategy r with
                                  | Replace => "replace"
                                  | Navigate => "navigate"
                                  end))]
     ++ optionalField "placeholderTabId" (JsonNumber <$> rec_placeholderTabId r)).

(** [chrome.storage.local.get(STORAGE_KEYS.SUSPENDED_TABS)] *)
Definition storage_get_tabs : M (option Registry) :=
  Chrome.hostCall (StorageGet SUSPENDED_TABS) ;;; inspect (fun w => storedTabs (host w)).

Definition loadSuspendedCache : M unit :=
  tryCatch
    (do res <- storage_get_tabs ;
     let raw := default ∅ res in
     setCache (fun _ => filter (fun entry => validEntry (storedRecord entry.2) = true) raw))
    (fun _ => setCache (fun _ => ∅)).

(** *** Bulk operations *)

(** [{ success, count }] *)
Record BulkReply : Type := mkBulkReply {
  bulk_success : bool;
  bulk_count : Z
}.

(** [Object.keys(suspendedTabsCache).map(Number)]: the keys are tab ids,
    integers from 0 on, which an object lists in ascending order. *)
Definition registryIds (r : Registry) : list Z :=
  merge_sort Z.le (fst <$> map_to_list r).

(** [for (const x of xs) { try { body } catch (e) { console.warn(e) } }]
    around a counter that the body may bump. *)
Fixpoint forEachCounting {A} (body : A -> Z -> M Z) (xs : list A) (count : Z) : M Z :=
  match xs with
  | [] => ret count
  | x :: rest =>
      do count' <- tryCatch (body x count) (fun _ => ret count) ;
      forEachCounting body rest count'
  end.

(** [if (res.success) count++] *)
Definition bump (res : Response) (count : Z) : Z :=
  if success res then count + 1 else count.

Definition unsuspendAllTabs : M BulkReply :=
  do cache <- getCache ;
  do restored <- forEachCounting
                   (fun id restored => do res <- unsuspendTab id ; ret (bump res restored))
                   (registryIds cache) 0 ;
  ret (mkBulkReply true restored).

Definition suspendAllTabs (includeActive : bool) : M BulkReply :=
  do ts <- Chrome.tabs_query (fun _ => true) ;
  do count <- forEachCounting
                (fun tab count =>
                   if negb includeActive && tab_active tab then ret count
                   else do res <- suspendTab (tab_id tab) Manual ; ret (bump res count))
                ts 0 ;
  ret (mkBulkReply true count).

(** [chrome.tabs.query({ active: true, currentWindow: true })] *)
Definition queryActive : M (list Tab) :=
  do current <- inspect (fun w => currentWindow (host w)) ;
  Chrome.tabs_query (fun t => tab_active t && (tab_windowId t =? current)).

(** [chrome.tabs.query({ currentWindow: true })] *)
Definition queryCurrentWindow : M (list Tab) :=
  do current <- inspect (fun w => currentWindow (host w)) ;
  Chrome.tabs_query (fun t => tab_windowId t =? current).

(** When the first query finds no tab, [active] is [undefined] and
    reading [active.id] throws inside the [try] of every turn. *)
Definition suspendOtherTabs : M BulkReply :=
  do found <- queryActive ;
  let active := head found in
  do ts <- queryCurrentWindow ;
  do count <- forEachCounting
                (fun tab count =>
                   match active with
                   | None => throw TypeError
                   | Some a =>
                       if tab_id tab =? tab_id a then ret count
                       else do res <- suspendTab (tab_id tab) Manual ; ret (bump res count)
                   end)
                ts 0 ;
  ret (mkBulkReply true count).

(** *** Commands *)

(** [chrome.commands.onCommand] *)
Definition onCommand (command : string) : M unit :=
  tryCatch
    (do found <- queryActive ;
     let activeId := tab_id <$> head found in
     if String.eqb command "suspend-tab" then
       if truthyNumber activeId
       then do _ <- suspendTab (default 0 activeId) Manual ; ret tt
       else ret tt
     else if String.eqb command "unsuspend-tab" then
       if truthyNumber activeId
       then do _ <- unsuspendTab (default 0 activeId) ; ret tt
       else ret tt
     else if String.eqb command "suspend-other-tabs" then
       do _ <- suspendOtherTabs ; ret tt
     else if String.eqb command "suspend-all-tabs" then
       do _ <- suspendAllTabs true ; ret tt
     else if String.eqb command "unsuspend-all-tabs" then
       do _ <- unsuspendAllTabs ; ret tt
     else ret tt)
    (fun _ => ret tt).

(** *** Initialization *)

Definition init : M unit :=
  tryCatch (loadSettings ;;; loadSuspendedCache ;;; configureAlarm) (fun _ => ret tt).

(** ** The suspended page

    The page reads the original address and title back from its own
    address with [new URLSearchParams(location.search)]. *)

(** *** Reading a query string

    The [application/x-www-form-urlencoded] parser: the text is cut at
    every [&], each piece at its first [=], a [+] stands for a space,
    percent escapes are bytes, and the bytes are decoded as UTF-8.
    Decoding gives [None] where the result is not a text of code units
    up to U+00FF (an ill-formed sequence decodes to U+FFFD). *)

Module FormDecode.

(** The UTF-8 bytes of a code unit up to U+00FF. *)
Definition utf8 (c : ascii) : list nat :=
  let n := nat_of_ascii c in
  if Nat.ltb n 128 then [n] else [192 + n / 64; 128 + n mod 64]%nat.

Fixpoint bytesOf (s : string) : list nat :=
  match s with
  | EmptyString => []
  | String c s' => utf8 c ++ bytesOf s'
  end.

Definition hexValue (b : nat) : option nat :=
  if UrlSearchParams.between 48 57 b then Some (b - 48)%nat
  else if UrlSearchParams.between 65 70 b then Some (b - 55)%nat
  else if UrlSearchParams.between 97 102 b then Some (b - 87)%nat
  else None.

(** Percent-decoding: a [%] that two hexadecimal digits do not follow
    stays as it is. *)
Fixpoint percentDecode (bs : list nat) : list nat :=
  match bs with
  | [] => []
  | b :: rest =>
      if Nat.eqb b 37 then
        match rest with
        | h :: l :: rest' =>
            match hexValue h, hexValue l with
            | Some x, Some y => (16 * x + y)%nat :: percentDecode rest'
            | _, _ => b :: percentDecode rest
            end
        | _ => b :: percentDecode rest
        end
      else b :: percentDecode rest
  end.

(** UTF-8 decoding of the sequences that stand for U+0000..U+00FF. *)
Fixpoint utf8Decode (bs : list nat) : option string :=
  match bs with
  | [] => Some EmptyString
  | b :: rest =>
      if Nat.ltb b 128 then String (ascii_of_nat b) <$> utf8Decode rest
      else if Nat.eqb b 194 || Nat.eqb b 195 then
        match rest with
        | b2 :: rest' =>
            if UrlSearchParams.between 128 191 b2
            then String (ascii_of_nat ((b - 192) * 64 + (b2 - 128))) <$> utf8Decode rest'
            else None
        | [] => None
        end
      else None
  end.

Fixpoint replacePlus (s : string) : string :=
  match s with
  | EmptyString => EmptyString
  | String c s' => String (if ascii_eqb c "+" then " "%char else c) (replacePlus s')
  end.

Definition decodeComponent (s : string) : option string :=
  utf8Decode (percentDecode (bytesOf (replacePlus s))).

(** The text before the first [sep] and the text after it; without a
    [sep] the second one is empty. *)
Fixpoint splitAtFirst (sep : ascii) (s : string) : string * string :=
  match s with
  | EmptyString => (EmptyString, EmptyString)
  | String c s' =>
      if ascii_eqb c sep then (EmptyString, s')
      else let (name, value) := splitAtFirst sep s' in (String c name, value)
  end.

Definition parsePair (piece : string) : option (string * string) :=
  let (name, value) := splitAtFirst "=" piece in
  match decodeComponent name, decodeComponent value with
  | Some n, Some v => Some (n, v)
  | _, _ => None
  end.

(** Empty pieces are skipped. *)
Fixpoint parsePairs (pieces : list string) : option (list (string * string)) :=
  match pieces with
  | [] => Some []
  | piece :: rest =>
      if nonEmpty piece then
        match parsePair piece, parsePairs rest with
        | Some p, Some ps => Some (p :: ps)
        | _, _ => None
        end
      else parsePairs rest
  end.

Definition parseUrlencoded (input : string) : option (list (string * string)) :=
  parsePairs (splitChar "&" input).

(** [new URLSearchParams(init)] for a string: a leading [?] is dropped. *)
Definition fromString (init : string) : option (list (string * string)) :=
  parseUrlencoded (match init with
                   | String "?" rest => rest
                   | _ => init
                   end).

(** [params.get(name)]: the value of the first pair of that name. *)
Definition get (name : string) (params : list (string * string)) : option string :=
  snd <$> List.find (fun p => String.eqb (fst p) name) params.

End FormDecode.

(** *** [location.search] *)

Fixpoint beforeHash (s : string) : string :=
  match s with
  | EmptyString => EmptyString
  | String c s' => if ascii_eqb c "#" then EmptyString else String c (beforeHash s')
  end.

(** The query of an address with its question mark, up to the fragment;
    empty when the query is. *)
Fixpoint locationSearch (href : string) : string :=
  match href with
  | EmptyString => EmptyString
  | String c rest =>
      if ascii_eqb c "?" then
        match beforeHash rest with
        | EmptyString => EmptyString
        | query => String "?" query
        end
      else if ascii_eqb c "#" then EmptyString
      else locationSearch rest
  end.

Module SuspendedPage.

(** [const params = new URLSearchParams(location.search)] *)
Definition params (search : string) : option (list (string * string)) :=
  FormDecode.fromString search.

(** [const url = params.get(url)]; the outer [None] is a query string
    outside the model. *)
Definition url (search : string) : option (option string) :=
  FormDecode.get "url" <$> params search.

(** [const title = params.get(title)] *)
Definition title (search : string) : option (option string) :=
  FormDecode.get "title" <$> params search.

(** The message that [restore()] sends on its first call: none when the
    address has no [url]. *)
Definition restoreMessage (search : string) : option (option Action) :=
  (fun found => if isTruthyString found then Some (RestoreTab found) else None)
    <$> url search.

End SuspendedPage.

(** Any character but [sep]. *)
Definition isNot (sep c : ascii) : bool := negb (ascii_eqb c sep).

(** Neither a question mark nor a hash. *)
Definition pathChar (c : ascii) : bool :=
  negb (ascii_eqb c "?") && negb (ascii_eqb c "#").

(** What the serializer writes for a name or a value: letters, digits
    and [*-._+%], that is nothing that cuts a query string. *)
Definition queryChar (c : ascii) : bool :=
  isNot "&" c && isNot "=" c && isNot "#" c.

(** A pair as the serializer writes it. *)
Definition written (p : string * string) : string :=
  UrlSearchParams.encode (fst p) +:+ String "=" (UrlSearchParams.encode (snd p)).

(** The pairs that [getSuspendedUrl] puts in the query. *)
Definition suspendedParams (originalUrl : string) (title : option string)
  : list (string * string) :=
  ("url", originalUrl) ::
  (if isTruthyString title then [("title", default EmptyString title)] else []).

(** ** The popup *)

Module Popup.

(** What the button of the current tab shows after a click. *)
Inductive Feedback : Type :=
| ShowSuspended          (* Suspended! *)
| ShowAlreadySuspended   (* Already suspended *)
| ShowIgnoredByRules     (* Ignored by rules *)
| ShowCannotSuspend.     (* Cannot suspend *)

(** Truthiness of an optional flag of a response. *)
Definition flag (v : option bool) : bool :=
  match v with
  | Some b => b
  | None => false
  end.

(** The branches on [response?.success], [response?.already] and
    [response?.ignored] of the click handler. *)
Definition feedback (response : Response) : Feedback :=
  if success response then ShowSuspended
  else if flag (already response) then ShowAlreadySuspended
  else if flag (ignored response) then ShowIgnoredByRules
  else ShowCannotSuspend.

End Popup.

(** ** The content script

    [updateActivity] runs on every click, key press, scroll and mouse
    move of the page; it sends at most one [activityPing] per timer. *)

Module ContentScript.

(** [lastActivity], the entry of [sessionStorage] (the number that its
    text spells), [updateActivity._t] (the time at which the pending
    timer is due) and the pings sent so far, the latest first. *)
Record State : Type := mkState {
  lastActivity : Z;
  stored : option Z;
  timer : option Z;
  pings : list Z
}.

(** The script is loaded at time [now]. *)
Definition load (now : Z) : State := mkState now None None [].

(** [updateActivity()] at time [now] *)
Definition updateActivity (now : Z) (st : State) : State :=
  mkState now (Some now)
          (match timer st with
           | Some due => Some due
           | None => Some (now + 1500)
           end)
          (pings st).

(** The callback of the timer, run at time [now]. *)
Definition timerFired (now : Z) (st : State) : State :=
  mkState (lastActivity st) (stored st) None (now :: pings st).

(** What happens to the page: the user does something, or the event
    loop gets to run a timer that is due. *)
Inductive Event : Type :=
| Activity (now : Z)
| Tick (now : Z).

Definition time (ev : Event) : Z :=
  match ev with
  | Activity now | Tick now => now
  end.

(** A timer runs no sooner than it is due. *)
Definition step (st : State) (ev : Event) : State :=
  match ev with
  | Activity now => updateActivity now st
  | Tick now =>
      match timer st with
      | Some due => if due <=? now then timerFired now st else st
      | None => st
      end
  end.

Definition run (st : State) (evs : list Event) : State := fold_left step evs st.

End ContentScript.

(** Times that do not go back, from [t] on. *)
Fixpoint inOrder (t : Z) (evs : list ContentScript.Event) : Prop :=
  match evs with
  | [] => True
  | ev :: rest => t <= ContentScript.time ev /\ inOrder (ContentScript.time ev) rest
  end.

(** Consecutive pings (the latest first) are at least [gap] apart. *)
Fixpoint spaced (gap : Z) (sent : list Z) : Prop :=
  match sent with
  | later :: ((earlier :: _) as rest) => earlier + gap <= later /\ spaced gap rest
  | _ => True
  end.

(** ** Notions for the whitelist and the policy *)

(** White space, a line break or a comma. *)
Definition blank (c : ascii) : bool := isTrimmable c || ascii_eqb c ",".

(** A [urlWhitelist] without an entry: nothing, a falsy value, or a text
    of blanks and separators. *)
Definition blankWhitelist (v : option JsVal) : bool :=
  match v with
  | Some (JStr text) => allChars blank text
  | _ => negb (truthy v)
  end.

(** ** Notions used by the further statements *)

(** The tab [id] is open and shows [url]. *)
Definition tabShows (id : Z) (url : string) (w : World) : Prop :=
  exists t, Chrome.findTab id (tabs (host w)) = Some t /\ tab_url t = Some url.

(** The number of records whose tab the host lets the script navigate. *)
Definition restorable (w : World) : Z :=
  Z.of_nat (length (List.filter (fun id => negb (updateThrows w id))
                                (registryIds (suspendedTabsCache (globals w))))).

(** The body of the loop of [unsuspendAllTabs]. *)
Definition unsuspendCounting (id : Z) (restored : Z) : M Z :=
  do res <- unsuspendTab id ; ret (bump res restored).

(** The service worker is stopped and started again: the module's
    registry starts empty and [loadSuspendedCache] fills it. *)
Definition restartRegistry : M unit :=
  setCache (fun _ => ∅) ;;; loadSuspendedCache.

(** The registry that [loadSuspendedCache] finds in storage. *)
Definition loadedRegistry (w : World) : Registry :=
  if rejects (host w) (StorageGet SUSPENDED_TABS) then ∅
  else default ∅ (storedTabs (host w)).

(** What [loadSettings] puts in [currentSettings] when storage answers. *)
Definition loadedSettings (stored : option Settings) : Settings :=
  let merged := spread DEFAULT_SETTINGS (default ∅ stored) in
  if invalidSuspendTime (merged !! "autoSuspendTime")
  then <["autoSuspendTime" := DEFAULT_autoSuspendTime]> merged
  else merged.

(** A computation upholds [I]: started where [I] holds, it ends (by
    returning or by throwing) where [I] holds, and what it returns
    satisfies [Q]. *)
Definition upholds {A} (I : World -> Prop) (Q : A -> Prop) (m : M A) : Prop :=
  forall w, I w ->
    match m w with
    | Ok a w' => I w' /\ Q a
    | Throw _ w' => I w'
    | Unmodelled => True
    end.

(** No requirement on the value. *)
Definition anyValue {A} : A -> Prop := fun _ => True.

(** The tab [t0] is open and is as it was, but for the focus. *)
Definition tabKept (t0 : Tab) (w : World) : Prop :=
  exists t, Chrome.findTab (tab_id t0) (tabs (host w)) = Some t /\
            Chrome.setActive false t = Chrome.setActive false t0.

(** The tab [t0] is left alone: it is open as it was, and the registry
    holds for its id what it held. *)
Definition leftAlone (t0 : Tab) (r0 : option TabRecord) (w : World) : Prop :=
  tabKept t0 w /\ suspendedTabsCache (globals w) !! tab_id t0 = r0.

(** The alarm is as it was. *)
Definition alarmIs (a0 : option Z) (w : World) : Prop := alarm (host w) = a0.

(** The tabs that [chrome.tabs.query({ active: true, currentWindow: true })]
    reports in world [w]. *)
Definition activeTabs (w : World) : list Tab :=
  List.filter (fun t => tab_active t && (tab_windowId t =? currentWindow (host w)))
              (tabs (host w)).

(** The world after the two tab queries of [suspendOtherTabs]. *)
Definition afterTwoQueries (w : World) : World :=
  with_host (log_call TabsQuery) (with_host (log_call TabsQuery) w).

(** The tab has been used less than a threshold ago, as far as the scan
    that bound [fr] can tell from the activity map. *)
Definition notDue (fr : ScanFrame) (activity : ActivityMap) (tab : Tab) : Prop :=
  exists last,
    lastSeen activity tab = Some last /\ last <> 0 /\
    frame_now fr - last < frame_thresholdMs fr.

(** The tab is left alone and the scan has not come to it yet. *)
Definition awaitsTurn (t0 : Tab) (r0 : option TabRecord) (a0 : option Z) (w : World) : Prop :=
  leftAlone t0 r0 w /\ lastActivityMap (globals w) !! tab_id t0 = a0.

(** Settings under which a scan returns before it looks at a tab:
    auto-suspend is off, or the timeout times 60000 is zero or not a
    number. *)
Definition dormant (h : Host) (s : Settings) : bool :=
  negb (truthy (s !! "autoSuspend"))
  || match thresholdMs h s with
     | Some t => t =? 0
     | None => true
     end.

(** Between two events: the pings are spaced, none was sent after [now],
    and a pending timer is due a full delay after the latest ping. *)
Definition pingsInv (now : Z) (st : ContentScript.State) : Prop :=
  spaced 1500 (ContentScript.pings st) /\
  (forall p, head (ContentScript.pings st) = Some p -> p <= now) /\
  (forall p due,
     head (ContentScript.pings st) = Some p -> ContentScript.timer st = Some due ->
     p + 1500 <= due).

(** What the policy looks at in a tab when the user asks for the
    suspension: [t'] is [t] in these respects. *)
Definition samePolicy (t t' : Tab) : Prop :=
  tab_id t' = tab_id t /\ tab_url t' = tab_url t /\
  tab_pinned t' = tab_pinned t /\ tab_audible t' = tab_audible t.

(** Whether the policy lets the user suspend the tab in world [w]. *)
Definition manualEligible (w : World) (t : Tab) : bool :=
  match eligibleForSuspend (currentSettings (globals w)) (extensionId (host w)) t Manual with
  | RVal true => true
  | _ => false
  end.

(** Every tab of the list shows the suspended page or is, for the
    policy, a tab of [ts0] that satisfies [keep]. *)
Definition descend (ts0 : list Tab) (extId : string) (keep : Tab -> Prop)
           (ts : list Tab) : Prop :=
  forall t', In t' ts ->
    isExtensionSuspendedPage extId (tab_url t') = true \/
    exists t, In t ts0 /\ samePolicy t t' /\ keep t.

Definition tabsFrom (ts0 : list Tab) (extId : string) (keep : Tab -> Prop)
           (w : World) : Prop :=
  extensionId (host w) = extId /\ descend ts0 extId keep (tabs (host w)).

(** The tabs of [rest] are still to come in a loop over the tabs: a tab
    that the user may suspend is one of them. *)
Definition toCome (w0 : World) (rest : list Tab) (t : Tab) : Prop :=
  manualEligible w0 t = true -> In t rest.

(** The body of the loop of [suspendAllTabs]. *)
Definition suspendCounting (includeActive : bool) (tab : Tab) (count : Z) : M Z :=
  if negb includeActive && tab_active tab then ret count
  else do res <- suspendTab (tab_id tab) Manual ; ret (bump res count).

(** *** More sample worlds *)

Module Desk.

(** The page being read, in the foreground of window 1. *)
Definition reading : Tab :=
  mkTab 1 (Some "https://docs.example.com/guide") (Some "Guide") None 1 0
        false false true (Some (-1)) (Some 4900000).

(** A page in the background that was last used long ago. *)
Definition news : Tab :=
  mkTab 2 (Some "https://news.example.com/") (Some "News") None 1 1
        false false false (Some (-1)) (Some 1000000).

(** A page in the background that plays sound. *)
Definition radio : Tab :=
  mkTab 3 (Some "https://radio.example.com/live") (Some "Radio") None 1 2
        false true false (Some (-1)) (Some 2000000).

(** The foreground page of a second window. *)
Definition shop : Tab :=
  mkTab 4 (Some "https://shop.example.com/") None None 2 0
        false false true (Some (-1)) (Some 3000000).

(** A browser with these four pages, window 1 in front, at time 5000000. *)
Definition hostOf (open : list Tab) (rejected : HostCall -> bool) : Host :=
  mkHost open 1 None None None 5000000 extId rejected (fun _ => None) [].

Definition desk : World :=
  mkWorld (hostOf [reading; news; radio; shop] (fun _ => false)) start [] 0.

(** A window in which no tab has the focus. *)
Definition unfocused : World :=
  mkWorld (hostOf [news; radio] (fun _ => false)) start [] 0.

(** The desk with a whitelist that is no regular expression. *)
Definition brokenWhitelist : World :=
  mkWorld (hostOf [reading; news; radio; shop] (fun _ => false))
          (mkGlobals (withWhitelist "(") ∅ ∅ false false) [] 0.

(** A host that neither opens nor navigates tabs. *)
Definition stuck (c : HostCall) : bool :=
  match c with
  | TabsCreate | TabsUpdate _ => true
  | _ => false
  end.

Definition stuckDesk : World :=
  mkWorld (hostOf [reading; news; radio; shop] stuck) start [] 0.

(** The browser after the foreground page of [world] was suspended and
    the registry was lost. *)
Definition lostRecord : World :=
  with_globals (set_suspendedTabsCache ∅) afterReplace.

(** The same, with a scan in flight. *)
Definition brokenInFlight : World := worldOf (runInactivityScan brokenWhitelist).

End Desk.

(** ** Proofs *)

Local Arguments scanFinally : simpl never.
Local Arguments scanCall : simpl never.
Local Arguments runInactivityScan : simpl never.
Local Arguments runInactivityScan_upto : simpl never.
Local Arguments configureAlarm : simpl never.
Local Arguments persistSuspendedCache : simpl never.
Local Arguments suspendTab : simpl never.
Local Arguments unsuspendTab : simpl never.
Local Arguments eligibleForSuspend : simpl never.
Local Arguments isExtensionSuspendedPage : simpl never.
Local Arguments getSuspendedUrl : simpl never.
Local Arguments thresholdMs : simpl never.
Local Arguments Chrome.tabs_update : simpl never.
Local Arguments Chrome.onExistingTab : simpl never.
Local Arguments Chrome.findTab : simpl never.
Local Arguments Chrome.replaceTab : simpl never.
Local Arguments Chrome.withoutTab : simpl never.
Local Arguments Chrome.unfocusWindow : simpl never.
Local Arguments Chrome.freshTabId : simpl never.
Local Arguments Chrome.tabs_get : simpl never.
Local Arguments replaceStrategy : simpl never.
Local Arguments navigateStrategy : simpl never.
Local Arguments baseRecord : simpl never.
Local Arguments onMessage : simpl never.
Local Arguments scanTab : simpl never.
Local Arguments scanTabs : simpl never.
Local Arguments scanBody : simpl never.
Local Arguments clampDelay : simpl never.
Local Arguments resumeScan : simpl never.

(** *** Running a computation step by step *)

Lemma bind_ok {A B} (m : M A) (k : A -> M B) w a w' :
  m w = Ok a w' -> bind m k w = k a w'.
Proof. intros H. unfold bind. now rewrite H. Qed.

Lemma bind_throw {A B} (m : M A) (k : A -> M B) w e w' :
  m w = Throw e w' -> bind m k w = Throw e w'.
Proof. intros H. unfold bind. now rewrite H. Qed.

Ltac unfold_m :=
  unfold detached, swallow, tryCatch, tryFinally, bind, ret, throw, inspect, modify,
    liftR, getSettings, getCache, getActivity, getExtensionId, setCache,
    setActivity, setSettings, setRunning, setRerunRequested,
    Chrome.alarms_clear, Chrome.alarms_create, Chrome.dateNow in *.

Ltac step_by H := erewrite bind_ok; [|exact H].
Ltac step_refl := erewrite bind_ok; [|reflexivity].

(** *** Host calls *)

Lemma persistSuspendedCache_run w :
  persistSuspendedCache w = Ok tt (afterPersist w).
Proof.
  unfold persistSuspendedCache, afterPersist, Chrome.storage_set_tabs, Chrome.hostCall.
  unfold_m. cbn. destruct (rejects _ _); reflexivity.
Qed.

Lemma afterPersist_globals w : globals (afterPersist w) = globals w.
Proof. unfold afterPersist. destruct (rejects _ _); reflexivity. Qed.

Lemma afterPersist_tabs w : tabs (host (afterPersist w)) = tabs (host w).
Proof. unfold afterPersist. destruct (rejects _ _); reflexivity. Qed.

Lemma afterPersist_rejects w : rejects (host (afterPersist w)) = rejects (host w).
Proof. unfold afterPersist. destruct (rejects _ _); reflexivity. Qed.

Lemma afterPersist_extensionId w :
  extensionId (host (afterPersist w)) = extensionId (host w).
Proof. unfold afterPersist. destruct (rejects _ _); reflexivity. Qed.

Lemma afterPersist_calls w :
  calls (host (afterPersist w)) = StorageSet SUSPENDED_TABS :: calls (host w).
Proof. unfold afterPersist. destruct (rejects _ _); reflexivity. Qed.

Lemma afterPersist_storedTabs w :
  rejects (host w) (StorageSet SUSPENDED_TABS) = false ->
  storedTabs (host (afterPersist w)) = Some (suspendedTabsCache (globals w)).
Proof. unfold afterPersist. intros ->. reflexivity. Qed.

Lemma setCache_run f w :
  setCache f w =
  Ok tt (with_globals (fun g => set_suspendedTabsCache (f (suspendedTabsCache g)) g) w).
Proof. reflexivity. Qed.

Lemma tabs_update_run id p w :
  Chrome.tabs_update id p w =
  let w1 := with_host (log_call (TabsUpdate id)) w in
  if updateThrows w id then Throw (HostError (TabsUpdate id)) w1
  else Ok tt (with_host (set_tabs (afterUpdate id p (tabs (host w)))) w1).
Proof.
  unfold Chrome.tabs_update, Chrome.onExistingTab, Chrome.hostCall, updateThrows.
  unfold_m. cbn. destruct (rejects _ _); cbn; [reflexivity|].
  destruct (Chrome.findTab id (tabs (host w))) eqn:Hf; [|reflexivity].
  unfold afterUpdate. rewrite Hf. reflexivity.
Qed.

Lemma tabs_get_run id w :
  Chrome.tabs_get id w =
  let w1 := with_host (log_call (TabsGet id)) w in
  if rejects (host w) (TabsGet id) then Throw (HostError (TabsGet id)) w1
  else match Chrome.findTab id (tabs (host w)) with
       | Some t => Ok t w1
       | None => Throw (HostError (TabsGet id)) w1
       end.
Proof.
  unfold Chrome.tabs_get, Chrome.hostCall. unfold_m. cbn.
  destruct (rejects _ _); reflexivity.
Qed.

(** *** Looking a tab up across the host's list operations *)

Lemma findTab_id id ts t : Chrome.findTab id ts = Some t -> tab_id t = id.
Proof.
  unfold Chrome.findTab. intros H. apply find_some in H as [_ H]. lia.
Qed.

Lemma findTab_In id ts t : Chrome.findTab id ts = Some t -> In t ts.
Proof. unfold Chrome.findTab. intros H. now apply find_some in H. Qed.

Lemma findTab_map id (f : Tab -> Tab) ts :
  (forall t, tab_id (f t) = tab_id t) ->
  Chrome.findTab id (List.map f ts) = f <$> Chrome.findTab id ts.
Proof.
  intros Hf. unfold Chrome.findTab. induction ts as [|t ts IH]; [reflexivity|].
  cbn. rewrite Hf. destruct (tab_id t =? id); [reflexivity|exact IH].
Qed.

Lemma findTab_replaceTab id id' f ts :
  (forall t, tab_id (f t) = tab_id t) ->
  Chrome.findTab id (Chrome.replaceTab id' f ts) =
  (fun t => if tab_id t =? id' then f t else t) <$> Chrome.findTab id ts.
Proof.
  intros Hf. unfold Chrome.replaceTab. apply findTab_map.
  intros t. destruct (tab_id t =? id'); [apply Hf|reflexivity].
Qed.

Lemma findTab_unfocusWindow id win ts :
  Chrome.findTab id (Chrome.unfocusWindow win ts) =
  (fun t => if tab_windowId t =? win then Chrome.setActive false t else t)
    <$> Chrome.findTab id ts.
Proof.
  unfold Chrome.unfocusWindow. apply findTab_map.
  intros t. destruct (tab_windowId t =? win); reflexivity.
Qed.

Lemma findTab_withoutTab id id' ts :
  id <> id' ->
  Chrome.findTab id (Chrome.withoutTab id' ts) = Chrome.findTab id ts.
Proof.
  intros Hne. unfold Chrome.findTab, Chrome.withoutTab.
  induction ts as [|t ts IH]; [reflexivity|]. cbn.
  destruct (Z.eqb_spec (tab_id t) id'); cbn.
  - destruct (Z.eqb_spec (tab_id t) id); [congruence|exact IH].
  - destruct (tab_id t =? id); [reflexivity|exact IH].
Qed.

Lemma freshTabId_above ts t : In t ts -> tab_id t < Chrome.freshTabId ts.
Proof.
  unfold Chrome.freshTabId. induction ts as [|u ts IH]; cbn; [contradiction|].
  intros [->|H]; [lia|]. specialize (IH H). lia.
Qed.

Lemma findTab_fresh ts : Chrome.findTab (Chrome.freshTabId ts) ts = None.
Proof.
  destruct (Chrome.findTab _ ts) as [t|] eqn:H; [|reflexivity].
  pose proof (findTab_id _ _ _ H). apply findTab_In, freshTabId_above in H. lia.
Qed.

Lemma findTab_app_new id ts t :
  Chrome.findTab id ts = None -> tab_id t = id ->
  Chrome.findTab id (ts ++ [t]) = Some t.
Proof.
  unfold Chrome.findTab. intros Hn Hid. induction ts as [|u ts IH]; cbn in *.
  - rewrite Hid, Z.eqb_refl. reflexivity.
  - destruct (tab_id u =? id); [discriminate|]. now apply IH.
Qed.

Lemma findTab_afterUpdate id p ts t :
  Chrome.findTab id ts = Some t ->
  exists t', Chrome.findTab id (afterUpdate id p ts) = Some t' /\
    tab_url t' = Some (Chrome.update_url p) /\ tab_id t' = id.
Proof.
  intros Hf. pose proof (findTab_id _ _ _ Hf) as Hid. unfold afterUpdate.
  rewrite findTab_replaceTab by reflexivity.
  destruct (Chrome.update_active p) as [[|]|]; rewrite ?Hf.
  - rewrite findTab_unfocusWindow, Hf. cbn.
    destruct (tab_windowId t =? tab_windowId t); cbn; rewrite Hid, Z.eqb_refl;
      eexists; repeat split; reflexivity || exact Hid.
  - cbn. rewrite Hid, Z.eqb_refl. eexists; repeat split; reflexivity || exact Hid.
  - cbn. rewrite Hid, Z.eqb_refl. eexists; repeat split; reflexivity || exact Hid.
Qed.

Lemma placeholderAt_replaceTab id url id' f ts :
  (forall t, tab_id (f t) = tab_id t) -> (forall t, tab_url (f t) = tab_url t) ->
  placeholderAt id url ts -> placeholderAt id url (Chrome.replaceTab id' f ts).
Proof.
  intros Hid Hurl (t & Hf & Hu). unfold placeholderAt.
  rewrite findTab_replaceTab, Hf by exact Hid. cbn.
  destruct (tab_id t =? id'); eexists; split; try reflexivity; [now rewrite Hurl|exact Hu].
Qed.

Lemma placeholderAt_withoutTab id url id' ts :
  id <> id' -> placeholderAt id url ts -> placeholderAt id url (Chrome.withoutTab id' ts).
Proof.
  intros Hne (t & Hf & Hu). exists t. now rewrite findTab_withoutTab.
Qed.

Lemma placeholderAt_step id url f (ts ts' : list Tab) :
  (placeholderAt id url ts -> placeholderAt id url (f ts)) ->
  (ts' = f ts \/ ts' = ts) ->
  placeholderAt id url ts -> placeholderAt id url ts'.
Proof. intros Hf [->| ->] H; auto. Qed.

(** *** Frames *)

Lemma hostFrame_refl w : hostFrame w w.
Proof. repeat split. Qed.

Lemma hostFrame_trans w1 w2 w3 : hostFrame w1 w2 -> hostFrame w2 w3 -> hostFrame w1 w3.
Proof.
  unfold hostFrame. intros (?&?&?&?&?&?&?&?&?&?) (?&?&?&?&?&?&?&?&?&?).
  repeat split; congruence.
Qed.

Lemma hostFrame_afterPersist w : hostFrame w (afterPersist w).
Proof. unfold hostFrame, afterPersist. destruct (rejects _ _); repeat split. Qed.

Lemma hostFrame_log c w : hostFrame w (with_host (log_call c) w).
Proof. repeat split. Qed.

(** A tab operation whose failure is swallowed either applies [f] to the
    tab list or leaves it. *)
Lemma swallow_onExistingTab c id f w :
  exists w',
    swallow (Chrome.onExistingTab c id f) w = Ok tt w' /\
    hostFrame w w' /\
    suspendedTabsCache (globals w') = suspendedTabsCache (globals w) /\
    (tabs (host w') = f (tabs (host w)) \/ tabs (host w') = tabs (host w)).
Proof.
  unfold Chrome.onExistingTab, Chrome.hostCall. unfold_m. cbn.
  destruct (rejects _ _); cbn.
  { eexists. split; [reflexivity|]. repeat split. now right. }
  destruct (Chrome.findTab _ _); cbn.
  - eexists. split; [reflexivity|]. repeat split. now left.
  - eexists. split; [reflexivity|]. repeat split. now right.
Qed.

Lemma tabs_create_run p w :
  rejects (host w) TabsCreate = false ->
  let ts := tabs (host w) in
  let t := mkTab (Chrome.freshTabId ts) (Some (Chrome.create_url p)) None None
                 (Chrome.create_windowId p) (Chrome.create_index p)
                 (Chrome.create_pinned p) false (Chrome.create_active p)
                 (Some (-1)) (Some (clock (host w))) in
  exists w',
    Chrome.tabs_create p w = Ok t w' /\
    hostFrame w w' /\
    suspendedTabsCache (globals w') = suspendedTabsCache (globals w) /\
    placeholderAt (Chrome.freshTabId ts) (Chrome.create_url p) (tabs (host w')).
Proof.
  intros Hacc ts t. unfold Chrome.tabs_create, Chrome.hostCall. unfold_m. cbn.
  rewrite Hacc. cbn. eexists. split; [reflexivity|]. cbn.
  split; [repeat split|]. split; [reflexivity|].
  exists t. split; [|reflexivity].
  apply findTab_app_new; [|reflexivity].
  destruct (Chrome.create_active p); [rewrite findTab_unfocusWindow|];
    fold ts; now rewrite findTab_fresh.
Qed.

(** *** The suspended page and the eligibility policy *)

Lemma startsWith_app p s : JsString.startsWith (p +:+ s) p = true.
Proof.
  induction p as [|c p IH]; [reflexivity|].
  change (String c p +:+ s) with (String c (p +:+ s)).
  cbn [JsString.startsWith]. unfold JsString.ascii_eqb.
  rewrite Ascii.eqb_refl. exact IH.
Qed.

Lemma isExtensionSuspendedPage_getSuspendedUrl extId url title :
  isExtensionSuspendedPage extId (Some (getSuspendedUrl extId url title)) = true.
Proof. unfold isExtensionSuspendedPage, getSuspendedUrl. apply startsWith_app. Qed.

Lemma eligible_not_suspended_page s extId tab reason :
  isExtensionSuspendedPage extId (tab_url tab) = true ->
  eligibleForSuspend s extId tab reason = RVal false.
Proof.
  intros H. unfold eligibleForSuspend.
  destruct (tab_id tab =? 0); [reflexivity|].
  destruct (tab_url tab) as [u|]; [|discriminate]. cbn.
  destruct (_ && _); [reflexivity|]. now rewrite H.
Qed.

Lemma eligible_has_url s extId tab reason :
  eligibleForSuspend s extId tab reason = RVal true ->
  exists u, tab_url tab = Some u /\ isExtensionSuspendedPage extId (tab_url tab) = false.
Proof.
  unfold eligibleForSuspend. destruct (tab_id tab =? 0); [discriminate|].
  destruct (tab_url tab) as [u|]; cbn.
  - destruct (_ && _); [discriminate|].
    destruct (isExtensionSuspendedPage extId (Some u)); [discriminate|]. eauto.
  - cbn. discriminate.
Qed.

(** *** [suspendTab] *)

Lemma replaceStrategy_throws tab reason now w :
  rejects (host w) TabsCreate = true ->
  replaceStrategy tab reason now w =
  Throw (HostError TabsCreate) (with_host (log_call TabsCreate) w).
Proof.
  intros H. unfold replaceStrategy, Chrome.tabs_create, Chrome.hostCall.
  unfold_m. cbn. now rewrite H.
Qed.

Lemma replaceStrategy_replaces tab reason now w :
  rejects (host w) TabsCreate = false ->
  In tab (tabs (host w)) ->
  let newId := Chrome.freshTabId (tabs (host w)) in
  let url := getSuspendedUrl (extensionId (host w)) (default EmptyString (tab_url tab)) (tab_title tab) in
  exists w',
    replaceStrategy tab reason now w = Ok replacedOk w' /\
    hostFrame w w' /\
    suspendedTabsCache (globals w') =
      <[newId := baseRecord tab reason now Replace (Some newId)]>
        (suspendedTabsCache (globals w)) /\
    placeholderAt newId url (tabs (host w')).
Proof.
  intros Hacc Hin newId url.
  assert (Hne : newId <> tab_id tab).
  { pose proof (freshTabId_above _ _ Hin). subst newId. lia. }
  unfold replaceStrategy. step_refl.
  match goal with |- context [Chrome.tabs_create ?p] =>
    destruct (tabs_create_run p w Hacc) as (w1 & Hc & F1 & C1 & P1) end.
  cbn in Hc, P1. fold newId in Hc, P1. fold url in Hc, P1.
  step_by Hc. cbn [tab_id tab_index].
  (* the move into the original slot *)
  assert (Hmove : exists w2,
    swallow (if negb (tab_index tab + 1 =? tab_index tab)
             then Chrome.tabs_move newId (tab_index tab) else ret tt) w1 = Ok tt w2 /\
    hostFrame w w2 /\
    suspendedTabsCache (globals w2) = suspendedTabsCache (globals w) /\
    placeholderAt newId url (tabs (host w2))).
  { destruct (negb _).
    - destruct (swallow_onExistingTab (TabsMove newId) newId
                  (Chrome.replaceTab newId (Chrome.setIndex (tab_index tab))) w1)
        as (w2 & Hs & F2 & C2 & T2).
      exists w2. split; [exact Hs|]. split; [eapply hostFrame_trans; eauto|].
      split; [congruence|].
      eapply placeholderAt_step; [|exact T2|exact P1].
      now apply placeholderAt_replaceTab.
    - exists w1. split; [reflexivity|]. auto. }
  destruct Hmove as (w2 & Hm & F2 & C2 & P2). step_by Hm.
  (* the tab group *)
  assert (Hgroup : exists w3,
    match tab_groupId tab with
    | Some g => if 0 <=? g then swallow (Chrome.tabs_group newId g) else ret tt
    | None => ret tt
    end w2 = Ok tt w3 /\
    hostFrame w w3 /\
    suspendedTabsCache (globals w3) = suspendedTabsCache (globals w) /\
    placeholderAt newId url (tabs (host w3))).
  { destruct (tab_groupId tab) as [g|]; [destruct (0 <=? g)|].
    - destruct (swallow_onExistingTab (TabsGroup newId) newId
                  (Chrome.replaceTab newId (Chrome.setGroupId g)) w2)
        as (w3 & Hs & F3 & C3 & T3).
      exists w3. split; [exact Hs|]. split; [eapply hostFrame_trans; eauto|].
      split; [congruence|].
      eapply placeholderAt_step; [|exact T3|exact P2].
      now apply placeholderAt_replaceTab.
    - exists w2. split; [reflexivity|]. auto.
    - exists w2. split; [reflexivity|]. auto. }
  destruct Hgroup as (w3 & Hg & F3 & C3 & P3). step_by Hg.
  step_refl. erewrite bind_ok; [|apply persistSuspendedCache_run].
  set (w4 := afterPersist _).
  assert (F4 : hostFrame w w4).
  { eapply hostFrame_trans; [exact F3|]. subst w4.
    eapply hostFrame_trans; [|apply hostFrame_afterPersist]. repeat split; apply F3. }
  assert (C4 : suspendedTabsCache (globals w4) =
               <[newId := baseRecord tab reason now Replace (Some newId)]>
                 (suspendedTabsCache (globals w))).
  { subst w4. rewrite afterPersist_globals. cbn. now rewrite C3. }
  assert (P4 : placeholderAt newId url (tabs (host w4))).
  { subst w4. now rewrite afterPersist_tabs. }
  clearbody w4.
  destruct (swallow_onExistingTab (TabsRemove (tab_id tab)) (tab_id tab)
              (Chrome.withoutTab (tab_id tab)) w4) as (w5 & Hs & F5 & C5 & T5).
  step_by Hs. exists w5. split; [reflexivity|].
  split; [eapply hostFrame_trans; eauto|]. split; [congruence|].
  eapply placeholderAt_step; [|exact T5|exact P4].
  now apply placeholderAt_withoutTab.
Qed.

Lemma navigateStrategy_run tabId tab reason now w :
  let record := baseRecord tab reason now Navigate None in
  let url := getSuspendedUrl (extensionId (host w)) (rec_url record) (rec_title record) in
  exists w',
    navigateStrategy tabId tab reason now w =
      (if updateThrows w tabId then Throw (HostError (TabsUpdate tabId)) w'
       else Ok navigatedOk w') /\
    hostFrame w w' /\
    suspendedTabsCache (globals w') = <[tabId := record]> (suspendedTabsCache (globals w)) /\
    (if updateThrows w tabId then tabs (host w') = tabs (host w)
     else placeholderAt tabId url (tabs (host w'))).
Proof.
  intros record url. unfold navigateStrategy. fold record.
  step_refl. erewrite bind_ok; [|apply persistSuspendedCache_run].
  set (w1 := afterPersist _).
  assert (F1 : hostFrame w w1).
  { subst w1. eapply hostFrame_trans; [|apply hostFrame_afterPersist]. repeat split. }
  assert (C1 : suspendedTabsCache (globals w1) = <[tabId := record]> (suspendedTabsCache (globals w))).
  { subst w1. now rewrite afterPersist_globals. }
  assert (T1 : tabs (host w1) = tabs (host w)).
  { subst w1. now rewrite afterPersist_tabs. }
  assert (U1 : updateThrows w1 tabId = updateThrows w tabId).
  { unfold updateThrows. rewrite T1. destruct F1 as (-> & _). reflexivity. }
  assert (E1 : extensionId (host w1) = extensionId (host w)) by apply F1.
  clearbody w1. step_refl. rewrite E1. fold url.
  unfold bind. rewrite tabs_update_run. cbn. rewrite U1.
  destruct (updateThrows w tabId) eqn:Hthrows.
  - eexists. split; [reflexivity|]. cbn. split; [|split; [exact C1|exact T1]].
    eapply hostFrame_trans; [exact F1|]. repeat split.
  - eexists. split; [reflexivity|]. cbn. split; [|split; [exact C1|]].
    + eapply hostFrame_trans; [exact F1|]. repeat split.
    + unfold updateThrows in Hthrows. apply orb_false_elim in Hthrows as [_ Hfind].
      destruct (Chrome.findTab tabId (tabs (host w))) as [t|] eqn:Hf; [|discriminate].
      rewrite T1.
      destruct (findTab_afterUpdate tabId (Chrome.mkUpdate url None None) _ _ Hf)
        as (t' & Ht' & Hu & _).
      exists t'. split; [exact Ht'|exact Hu].
Qed.

Lemma suspendTab_outcome w tabId reason :
  SuspendOutcome w tabId reason (suspendTab tabId reason w).
Proof.
  unfold suspendTab, tryCatch. unfold bind at 1. rewrite tabs_get_run. cbn.
  destruct (rejects (host w) (TabsGet tabId)) eqn:Hget.
  { apply SuspendGetFailed. unfold getThrows. now rewrite Hget. }
  destruct (Chrome.findTab tabId (tabs (host w))) as [tab|] eqn:Hfind.
  2:{ apply SuspendGetFailed. unfold getThrows. now rewrite Hget, Hfind. }
  set (w0 := with_host _ w).
  assert (F0 : hostFrame w w0) by (repeat split).
  repeat step_refl. unfold bind at 1, liftR. cbn.
  destruct (eligibleForSuspend _ _ tab reason) as [[|]| |] eqn:Hel; cbn.
  - (* eligible *)
    pose proof (eligible_has_url _ _ _ _ Hel) as (u & Hu & Hpage).
    rewrite Hpage. step_refl. cbn.
    destruct (suspendedTabsCache (globals w) !! tabId) as [rec|] eqn:Hrec; cbn.
    { eapply SuspendAlready; eauto. }
    unfold bind. cbn.
    destruct (rejects (host w) TabsCreate) eqn:Hcreate.
    + rewrite replaceStrategy_throws by exact Hcreate. cbn.
      set (w1 := with_host _ w0).
      destruct (navigateStrategy_run tabId tab reason (clock (host w)) w1)
        as (w' & Hnav & F & C & T).
      rewrite Hnav.
      assert (U : updateThrows w1 tabId = updateThrows w tabId) by reflexivity.
      rewrite U in *. destruct (updateThrows w tabId) eqn:Hthrows.
      * eapply SuspendNavigationFailed; eauto.
      * eapply SuspendDone; [exact Hfind|exact Hel|exact Hrec|exact F|].
        unfold Suspended, resultingTabId. cbn.
        eexists. split; [exact C|]. split; [reflexivity|]. split; [reflexivity|].
        split; [right; split; reflexivity|]. exact T.
    + destruct (replaceStrategy_replaces tab reason (clock (host w)) w0)
        as (w' & Hrep & F & C & P).
      { exact Hcreate. }
      { cbn. eapply findTab_In; eauto. }
      rewrite Hrep. cbn.
      eapply SuspendDone; [exact Hfind|exact Hel|exact Hrec|exact F|].
      unfold Suspended, resultingTabId. cbn.
      eexists. split; [exact C|]. split; [reflexivity|]. split; [reflexivity|].
      split; [left; repeat split|]. exact P.
  - cbn. eapply SuspendIneligible; eauto.
  - eapply SuspendPolicyThrew; eauto.
  - eapply SuspendUnmodelled; eauto.
Qed.

(** [suspendTab] never throws, and touches neither the settings, the
    activity map nor the scheduler's state. *)
Lemma suspendTab_frame tabId reason w :
  match suspendTab tabId reason w with
  | Ok _ w' => hostFrame w w'
  | Throw _ _ => False
  | Unmodelled => True
  end.
Proof.
  destruct (suspendTab_outcome w tabId reason); try apply hostFrame_log; auto.
Qed.

(** A tab that the policy rejects: the response is [{ success: false }]
    and nothing but the call log changes. *)
Lemma suspendTab_ineligible w tabId reason tab :
  Chrome.findTab tabId (tabs (host w)) = Some tab ->
  rejects (host w) (TabsGet tabId) = false ->
  eligibleForSuspend (currentSettings (globals w)) (extensionId (host w)) tab reason
    = RVal false ->
  suspendTab tabId reason w = Ok plainFailure (with_host (log_call (TabsGet tabId)) w).
Proof.
  intros Hfind Hget Hel.
  unfold suspendTab, tryCatch. unfold bind at 1. rewrite tabs_get_run. cbn.
  rewrite Hget, Hfind. repeat step_refl. unfold bind at 1, liftR. cbn.
  now rewrite Hel.
Qed.

Lemma suspendTab_get_rejected w tabId reason :
  rejects (host w) (TabsGet tabId) = true ->
  suspendTab tabId reason w =
  Ok (failedWith (HostError (TabsGet tabId))) (with_host (log_call (TabsGet tabId)) w).
Proof.
  intros Hget.
  unfold suspendTab, tryCatch. unfold bind at 1. rewrite tabs_get_run. cbn.
  now rewrite Hget.
Qed.

(** Suspending a tab that shows the suspended page: the eligibility check
    comes first and answers [{ success: false }]; the two later checks
    that would answer [already: true] are not reached. *)
Lemma suspendTab_placeholder w tabId reason tab :
  Chrome.findTab tabId (tabs (host w)) = Some tab ->
  isExtensionSuspendedPage (extensionId (host w)) (tab_url tab) = true ->
  suspendTab tabId reason w =
  Ok (if rejects (host w) (TabsGet tabId)
      then failedWith (HostError (TabsGet tabId)) else plainFailure)
     (with_host (log_call (TabsGet tabId)) w).
Proof.
  intros Hfind Hpage.
  destruct (rejects (host w) (TabsGet tabId)) eqn:Hget.
  - now apply suspendTab_get_rejected.
  - eapply suspendTab_ineligible; eauto. now apply eligible_not_suspended_page.
Qed.

(** After a successful suspension, a second call on the resulting tab
    never answers [already: true]; it changes neither the registry nor
    the tabs. *)
Lemma suspendTab_twice w tabId reason resp w1 reason2 :
  suspendTab tabId reason w = Ok resp w1 ->
  success resp = true ->
  exists resp2 w2,
    suspendTab (resultingTabId w tabId resp) reason2 w1 = Ok resp2 w2 /\
    success resp2 = false /\
    already resp2 = None /\
    suspendedTabsCache (globals w2) = suspendedTabsCache (globals w1) /\
    tabs (host w2) = tabs (host w1) /\
    storedTabs (host w2) = storedTabs (host w1).
Proof.
  intros Hrun Hok.
  pose proof (suspendTab_outcome w tabId reason) as Hout. rewrite Hrun in Hout.
  inversion Hout as [ | | | | | tab resp' w' Hfind Hel Hrec F S | ]; subst;
    try discriminate.
  destruct S as (rec & _ & _ & _ & _ & (t1 & Ht1 & Hu1)).
  assert (Hpage : isExtensionSuspendedPage (extensionId (host w1)) (tab_url t1) = true).
  { destruct F as (_ & -> & _). rewrite Hu1. apply isExtensionSuspendedPage_getSuspendedUrl. }
  rewrite (suspendTab_placeholder w1 _ reason2 t1 Ht1 Hpage).
  do 2 eexists. split; [reflexivity|].
  destruct (rejects _ _); repeat split.
Qed.

(** Claim C1, as the code behaves. The foreground page of [world] is
    suspended by hand with success; its placeholder is tab 3. Suspending
    tab 3 again answers the bare [{ success: false }], and suspending the
    closed tab 1 again answers an error: in neither case does the answer
    carry [already: true]. The same holds on a host where the fallback
    (navigate) strategy was used. The second call changes neither the
    registry nor the tabs (only the call log grows). *)
Theorem second_suspend_reports_no_already :
  suspendTab 1 Manual world = Ok replacedOk afterReplace /\
  resultingTabId world 1 replacedOk = 3 /\
  suspendTab 3 Manual afterReplace
    = Ok plainFailure (with_host (log_call (TabsGet 3)) afterReplace) /\
  suspendTab 1 Manual afterReplace
    = Ok (failedWith (HostError (TabsGet 1)))
         (with_host (log_call (TabsGet 1)) afterReplace) /\
  suspendTab 1 Manual crampedWorld = Ok navigatedOk afterNavigate /\
  suspendTab 1 Manual afterNavigate
    = Ok plainFailure (with_host (log_call (TabsGet 1)) afterNavigate) /\
  already plainFailure = None /\
  already (failedWith (HostError (TabsGet 1))) = None.
Proof. vm_compute. repeat split. Qed.

Lemma resolveTabId_explicit id sender w :
  id <> 0 -> resolveTabId (Some id) sender w = Ok (Some id) w.
Proof.
  intros H. unfold resolveTabId. cbn. destruct (Z.eqb_spec id 0); [contradiction|reflexivity].
Qed.

(** The router hands the answer of [suspendTab] on as it is. *)
Lemma onMessage_suspend_ineligible w id sender tab :
  id <> 0 ->
  Chrome.findTab id (tabs (host w)) = Some tab ->
  rejects (host w) (TabsGet id) = false ->
  eligibleForSuspend (currentSettings (globals w)) (extensionId (host w)) tab Manual
    = RVal false ->
  onMessage (SuspendTab (Some id)) sender w =
  Ok (ReplyResponse plainFailure) (with_host (log_call (TabsGet id)) w).
Proof.
  intros Hid Hfind Hget Hel. unfold onMessage.
  erewrite bind_ok; [|now apply resolveTabId_explicit]. cbn.
  erewrite bind_ok; [|eapply suspendTab_ineligible; eauto]. reflexivity.
Qed.

(** Claim C2, as the code behaves. The pinned page is rejected by the
    policy; the router answers the request to suspend it with the bare
    [{ success: false }]: the answer has no [error] key, and no [ignored]
    key either. *)
Theorem rejected_tab_is_not_reported_as_ignored :
  eligibleForSuspend DEFAULT_SETTINGS extId pinnedPage Manual = RVal false /\
  onMessage (SuspendTab (Some 2)) None world
    = Ok (ReplyResponse plainFailure) (with_host (log_call (TabsGet 2)) world) /\
  ignored plainFailure = None /\
  error plainFailure = None /\
  success plainFailure = false.
Proof. vm_compute. repeat split. Qed.

(** *** [unsuspendTab] *)

Lemma unsuspendTab_run tabId rec w :
  suspendedTabsCache (globals w) !! tabId = Some rec ->
  unsuspendTab tabId w =
  let w1 := with_host (log_call (TabsUpdate tabId)) (afterDelete tabId w) in
  if updateThrows w tabId
  then Ok (failedWith (HostError (TabsUpdate tabId))) w1
  else Ok (restoredOk (rec_strategy rec))
          (with_host (set_tabs (afterUpdate tabId (restoreProperties rec) (tabs (host w)))) w1).
Proof.
  intros Hrec. unfold unsuspendTab. unfold_m. cbn. rewrite Hrec.
  rewrite persistSuspendedCache_run. fold (afterDelete tabId w).
  assert (Hthrows : updateThrows (afterDelete tabId w) tabId = updateThrows w tabId).
  { unfold updateThrows, afterDelete. now rewrite afterPersist_rejects, afterPersist_tabs. }
  assert (Htabs : tabs (host (afterDelete tabId w)) = tabs (host w)).
  { unfold afterDelete. now rewrite afterPersist_tabs. }
  unfold restoreProperties.
  destruct (rec_strategy rec); rewrite tabs_update_run; cbn; rewrite Hthrows, Htabs;
    destruct (updateThrows w tabId); reflexivity.
Qed.

Lemma unsuspendTab_absent tabId w :
  suspendedTabsCache (globals w) !! tabId = None ->
  unsuspendTab tabId w = Ok notSuspendedResponse w.
Proof.
  intros Hrec. unfold unsuspendTab. unfold_m. cbn. now rewrite Hrec.
Qed.

(** Claim C8. For a tab id with a record, [unsuspendTab] deletes the
    record and writes the registry to storage before it calls
    [chrome.tabs.update] (the call log shows the order; the stored
    registry is the one without the record unless the write is refused).
    If the navigation call throws, the answer is
    [{ success: false, error }], the record stays deleted and the tabs
    are as they were. *)
Theorem unsuspendTab_deletes_before_navigation
        (w : World) (tabId : Z) (rec : TabRecord) :
  suspendedTabsCache (globals w) !! tabId = Some rec ->
  exists resp w',
    unsuspendTab tabId w = Ok resp w' /\
    suspendedTabsCache (globals w') = delete tabId (suspendedTabsCache (globals w)) /\
    calls (host w') = TabsUpdate tabId :: StorageSet SUSPENDED_TABS :: calls (host w) /\
    (rejects (host w) (StorageSet SUSPENDED_TABS) = false ->
     storedTabs (host w') = Some (delete tabId (suspendedTabsCache (globals w)))) /\
    (updateThrows w tabId = true ->
     resp = failedWith (HostError (TabsUpdate tabId)) /\
     success resp = false /\
     suspendedTabsCache (globals w') !! tabId = None /\
     tabs (host w') = tabs (host w)).
Proof.
  intros Hrec. rewrite (unsuspendTab_run _ _ _ Hrec). cbn.
  destruct (updateThrows w tabId) eqn:Hthrows; do 2 eexists;
    (split; [reflexivity|]); cbn; unfold afterDelete;
    rewrite afterPersist_globals, afterPersist_calls; cbn.
  - split; [reflexivity|]. split; [reflexivity|]. split.
    + intros Hacc. rewrite afterPersist_storedTabs by exact Hacc. reflexivity.
    + intros _. rewrite afterPersist_tabs. cbn. rewrite lookup_delete_eq. repeat split.
  - split; [reflexivity|]. split; [reflexivity|]. split.
    + intros Hacc. rewrite afterPersist_storedTabs by exact Hacc. reflexivity.
    + discriminate.
Qed.

(** Claim C8 on a host that refuses to navigate tabs. *)
Lemma unsuspendTab_deletes_before_navigation_witness :
  suspendedTabsCache (globals afterReplaceStubborn) !! 3 = Some pageRecord /\
  updateThrows afterReplaceStubborn 3 = true /\
  exists w',
    unsuspendTab 3 afterReplaceStubborn
      = Ok (failedWith (HostError (TabsUpdate 3))) w' /\
    suspendedTabsCache (globals w') = ∅ /\
    storedTabs (host w') = Some ∅ /\
    calls (host w')
      = TabsUpdate 3 :: StorageSet SUSPENDED_TABS :: calls (host afterReplaceStubborn) /\
    tabs (host w') = tabs (host afterReplaceStubborn).
Proof.
  assert (Hrec : suspendedTabsCache (globals afterReplaceStubborn) !! 3 = Some pageRecord).
  { vm_compute. reflexivity. }
  assert (Hthrows : updateThrows afterReplaceStubborn 3 = true) by (vm_compute; reflexivity).
  split; [exact Hrec|]. split; [exact Hthrows|].
  destruct (unsuspendTab_deletes_before_navigation afterReplaceStubborn 3 pageRecord Hrec)
    as (resp & w' & Hrun & Hcache & Hcalls & Hstored & Hfail).
  destruct (Hfail Hthrows) as (-> & _ & _ & Htabs).
  exists w'. split; [exact Hrun|]. split.
  { rewrite Hcache. vm_compute. reflexivity. }
  split.
  { rewrite Hstored by (vm_compute; reflexivity). vm_compute. reflexivity. }
  split; [exact Hcalls|exact Htabs].
Defined.

(** Claim C3. If [suspendTab] answers with success, the record of the
    suspended page sits under the resulting tab id (the placeholder's id
    under the replace strategy, the tab's own id under navigate) and holds
    the URL the tab had; if the host then carries out the navigation,
    [unsuspendTab] on that id answers with success, the tab shows the
    original URL again and its record is gone. *)
Theorem suspend_then_unsuspend_restores
        (w w1 : World) (tabId : Z) (reason : Reason) (resp : Response) :
  suspendTab tabId reason w = Ok resp w1 ->
  success resp = true ->
  rejects (host w1) (TabsUpdate (resultingTabId w tabId resp)) = false ->
  exists tab rec resp2 w2 restoredTab,
    Chrome.findTab tabId (tabs (host w)) = Some tab /\
    suspendedTabsCache (globals w1) !! resultingTabId w tabId resp = Some rec /\
    rec_url rec = default EmptyString (tab_url tab) /\
    (replaced resp = Some true ->
     rec_strategy rec = Replace /\
     rec_placeholderTabId rec = Some (resultingTabId w tabId resp)) /\
    (replaced resp <> Some true ->
     rec_strategy rec = Navigate /\ resultingTabId w tabId resp = tabId) /\
    unsuspendTab (resultingTabId w tabId resp) w1 = Ok resp2 w2 /\
    success resp2 = true /\
    restored resp2 = Some (rec_strategy rec) /\
    Chrome.findTab (resultingTabId w tabId resp) (tabs (host w2)) = Some restoredTab /\
    tab_url restoredTab = tab_url tab /\
    suspendedTabsCache (globals w2) !! resultingTabId w tabId resp = None.
Proof.
  intros Hrun Hok Hacc.
  pose proof (suspendTab_outcome w tabId reason) as Hout. rewrite Hrun in Hout.
  inversion Hout as [ | | | | | tab resp' w' Hfind Hel Hrec F S | ]; subst;
    try discriminate.
  destruct S as (rec & C & Hurl & _ & Hstrat & (t1 & Ht1 & _)).
  set (rid := resultingTabId w tabId resp) in *.
  assert (Hlook : suspendedTabsCache (globals w1) !! rid = Some rec).
  { rewrite C. apply lookup_insert_eq. }
  assert (Hthrows : updateThrows w1 rid = false).
  { unfold updateThrows. now rewrite Hacc, Ht1. }
  pose proof (unsuspendTab_run rid rec w1 Hlook) as Hun. cbn in Hun.
  rewrite Hthrows in Hun.
  destruct (findTab_afterUpdate rid (restoreProperties rec) _ _ Ht1) as (t2 & Ht2 & Hu2 & _).
  destruct (eligible_has_url _ _ _ _ Hel) as (u & Hu & _).
  exists tab, rec. do 2 eexists. exists t2.
  split; [exact Hfind|]. split; [exact Hlook|]. split; [exact Hurl|].
  split.
  { intros Hr. destruct Hstrat as [(-> & ? & ?)|(-> & ?)]; [auto|discriminate]. }
  split.
  { intros Hr. destruct Hstrat as [(-> & ? & ?)|(-> & ?)]; [now destruct Hr|].
    split; [assumption|reflexivity]. }
  split; [exact Hun|]. split; [reflexivity|]. split; [reflexivity|].
  split; [exact Ht2|]. split.
  { rewrite Hu2, Hu. unfold restoreProperties.
    destruct (rec_strategy rec); cbn; now rewrite Hurl, Hu. }
  cbn. unfold afterDelete. rewrite afterPersist_globals. cbn. apply lookup_delete_eq.
Qed.

(** The round trip of claim C3 on the foreground page of [world]. *)
Lemma suspend_then_unsuspend_restores_witness :
  suspendTab 1 Manual world = Ok replacedOk afterReplace /\
  resultingTabId world 1 replacedOk = 3 /\
  exists rec w2 restoredTab,
    suspendedTabsCache (globals afterReplace) !! 3 = Some rec /\
    rec_url rec = "https://mail.example.com/inbox" /\
    unsuspendTab 3 afterReplace = Ok (restoredOk Replace) w2 /\
    Chrome.findTab 3 (tabs (host w2)) = Some restoredTab /\
    tab_url restoredTab = Some "https://mail.example.com/inbox" /\
    suspendedTabsCache (globals w2) !! 3 = None.
Proof.
  assert (Hrun : suspendTab 1 Manual world = Ok replacedOk afterReplace).
  { vm_compute. reflexivity. }
  assert (Hid : resultingTabId world 1 replacedOk = 3) by (vm_compute; reflexivity).
  split; [exact Hrun|]. split; [exact Hid|].
  destruct (suspend_then_unsuspend_restores world afterReplace 1 Manual replacedOk Hrun)
    as (tab & rec & resp2 & w2 & t2 & Hfind & Hrec & Hurl & Hrep & _ & Hun & Hok & Hres
        & Hfind2 & Hurl2 & Hgone).
  { reflexivity. }
  { vm_compute. reflexivity. }
  rewrite Hid in *.
  assert (Htab : tab = page).
  { vm_compute in Hfind. now injection Hfind as <-. }
  subst tab. destruct (Hrep eq_refl) as [Hstrat _].
  assert (Hresp : resp2 = restoredOk Replace).
  { destruct resp2 as [ok al ig rp nv ns rs er].
    pose proof (unsuspendTab_run 3 rec afterReplace Hrec) as Hshape. cbn zeta in Hshape.
    rewrite Hun in Hshape.
    destruct (updateThrows afterReplace 3); injection Hshape as -> -> -> -> -> -> -> -> _;
      [discriminate|]. now rewrite Hstrat. }
  subst resp2.
  exists rec, w2, t2. repeat split; assumption.
Defined.

(** *** Tab life-cycle hooks *)

Lemma forget_lookup tabId w :
  suspendedTabsCache (globals (forget tabId w)) !! tabId = None.
Proof.
  unfold forget, afterDelete.
  destruct (suspendedTabsCache (globals w) !! tabId) eqn:H; [|exact H].
  rewrite afterPersist_globals. cbn. apply lookup_delete_eq.
Qed.

Lemma forget_activity tabId w :
  lastActivityMap (globals (forget tabId w)) = lastActivityMap (globals w).
Proof.
  unfold forget, afterDelete. destruct (_ !! tabId); [|reflexivity].
  now rewrite afterPersist_globals.
Qed.

Lemma forget_tabs tabId w : tabs (host (forget tabId w)) = tabs (host w).
Proof.
  unfold forget, afterDelete. destruct (_ !! tabId); [|reflexivity].
  now rewrite afterPersist_tabs.
Qed.

Lemma forget_persisted tabId w rec :
  suspendedTabsCache (globals w) !! tabId = Some rec ->
  rejects (host w) (StorageSet SUSPENDED_TABS) = false ->
  storedTabs (host (forget tabId w)) = Some (suspendedTabsCache (globals (forget tabId w))).
Proof.
  intros Hrec Hacc. unfold forget, afterDelete. rewrite Hrec.
  rewrite afterPersist_storedTabs by exact Hacc. now rewrite afterPersist_globals.
Qed.

Lemma onRemoved_run tabId w :
  onRemoved tabId w =
  Ok tt (if truthyNumber (lastActivityMap (globals w) !! tabId)
         then with_globals
                (fun g => set_lastActivityMap (delete tabId (lastActivityMap g)) g)
                (forget tabId w)
         else forget tabId w).
Proof.
  unfold onRemoved, swallow, tryCatch. step_refl.
  pose proof (forget_activity tabId w) as Hact. unfold forget in *.
  destruct (suspendedTabsCache (globals w) !! tabId) eqn:Hrec.
  - unfold bind at 1. unfold bind at 1. rewrite setCache_run.
    rewrite persistSuspendedCache_run. fold (afterDelete tabId w).
    step_refl. rewrite Hact. destruct (truthyNumber _); reflexivity.
  - step_refl. step_refl. destruct (truthyNumber _); reflexivity.
Qed.

Lemma onUpdated_run tabId changeUrl w :
  onUpdated tabId changeUrl w =
  Ok tt (if isTruthyString changeUrl
            && negb (isExtensionSuspendedPage (extensionId (host w)) changeUrl)
         then forget tabId w else w).
Proof.
  unfold onUpdated. step_refl. unfold forget.
  destruct (isTruthyString changeUrl); cbn; [|reflexivity].
  destruct (suspendedTabsCache (globals w) !! tabId) eqn:Hrec; cbn.
  - unfold swallow, tryCatch. step_refl.
    destruct (isExtensionSuspendedPage _ _); cbn; [reflexivity|].
    unfold bind. cbn. rewrite persistSuspendedCache_run. reflexivity.
  - destruct (negb _); reflexivity.
Qed.

Lemma getSuspendedTabData_run tabId w :
  onMessage GetSuspendedTabData (Some tabId) w =
  Ok (ReplyRecord (suspendedTabsCache (globals w) !! tabId)) w.
Proof. reflexivity. Qed.

(** Claim C4, amended. A tab id has at most one record. Closing the tab
    deletes its record and its activity-map entry (an entry holding the
    time 0 is not looked at); the placeholder navigating away to a page
    that is not the suspended page deletes its record and leaves the
    activity map as it is. After either, [getSuspendedTabData] for that
    tab answers without a record. *)
Theorem removal_deletes_record (w : World) (tabId : Z) :
  (forall r1 r2,
     suspendedTabsCache (globals w) !! tabId = Some r1 ->
     suspendedTabsCache (globals w) !! tabId = Some r2 -> r1 = r2) /\
  (exists w',
     onRemoved tabId w = Ok tt w' /\
     suspendedTabsCache (globals w') !! tabId = None /\
     (lastActivityMap (globals w) !! tabId <> Some 0 ->
      lastActivityMap (globals w') !! tabId = None) /\
     onMessage GetSuspendedTabData (Some tabId) w' = Ok (ReplyRecord None) w') /\
  (forall url,
     url <> EmptyString ->
     isExtensionSuspendedPage (extensionId (host w)) (Some url) = false ->
     exists w',
       onUpdated tabId (Some url) w = Ok tt w' /\
       suspendedTabsCache (globals w') !! tabId = None /\
       lastActivityMap (globals w') = lastActivityMap (globals w) /\
       onMessage GetSuspendedTabData (Some tabId) w' = Ok (ReplyRecord None) w').
Proof.
  split; [congruence|]. split.
  - rewrite onRemoved_run. eexists. split; [reflexivity|].
    assert (Hgone : forall v,
      suspendedTabsCache (globals v) !! tabId = None ->
      onMessage GetSuspendedTabData (Some tabId) v = Ok (ReplyRecord None) v).
    { intros v Hv. rewrite getSuspendedTabData_run. now rewrite Hv. }
    destruct (lastActivityMap (globals w) !! tabId) as [z|] eqn:Hact; cbn.
    + destruct (Z.eqb_spec z 0) as [->|Hz]; cbn.
      * split; [apply forget_lookup|]. split; [congruence|]. apply Hgone, forget_lookup.
      * split; [cbn; apply forget_lookup|].
        split; [intros _; cbn; apply lookup_delete_eq|].
        apply Hgone. cbn. apply forget_lookup.
    + split; [apply forget_lookup|]. split.
      * intros _. now rewrite forget_activity.
      * apply Hgone, forget_lookup.
  - intros url Hne Hpage. rewrite onUpdated_run, Hpage.
    assert (Ht : isTruthyString (Some url) = true) by (destruct url; [congruence|reflexivity]).
    rewrite Ht. cbn. eexists. split; [reflexivity|].
    split; [apply forget_lookup|]. split; [apply forget_activity|].
    rewrite getSuspendedTabData_run. now rewrite forget_lookup.
Qed.

(** The amended claim C4 on a placeholder that the user has looked at. *)
Lemma removal_deletes_record_witness :
  (exists w',
     onRemoved 3 trackedWorld = Ok tt w' /\
     suspendedTabsCache (globals w') !! 3 = None /\
     lastActivityMap (globals w') !! 3 = None /\
     onMessage GetSuspendedTabData (Some 3) w' = Ok (ReplyRecord None) w') /\
  (exists w',
     onUpdated 3 (Some "https://example.com/") trackedWorld = Ok tt w' /\
     suspendedTabsCache (globals w') !! 3 = None /\
     lastActivityMap (globals w') = lastActivityMap (globals trackedWorld) /\
     onMessage GetSuspendedTabData (Some 3) w' = Ok (ReplyRecord None) w').
Proof.
  destruct (removal_deletes_record trackedWorld 3) as (_ & Hclose & Hnav). split.
  - destruct Hclose as (w' & H1 & H2 & H3 & H4). exists w'.
    split; [exact H1|]. split; [exact H2|]. split; [|exact H4].
    apply H3. vm_compute. discriminate.
  - apply (Hnav "https://example.com/").
    + discriminate.
    + vm_compute. reflexivity.
Defined.

(** Claim C4 as stated fails where it says that the activity-map entry
    goes too when the placeholder navigates away: tab 3 has a record and
    an activity entry; after it navigated to an ordinary page the record
    is gone and the activity entry is still there. *)
Lemma navigating_away_keeps_activity_entry :
  exists w',
    onUpdated 3 (Some "https://example.com/") trackedWorld = Ok tt w' /\
    suspendedTabsCache (globals trackedWorld) !! 3 = Some pageRecord /\
    suspendedTabsCache (globals w') !! 3 = None /\
    lastActivityMap (globals w') !! 3 = Some 4000000 /\
    lastActivityMap (globals w') !! 3 <> None.
Proof. eexists. vm_compute. repeat split. discriminate. Qed.

(** *** The re-entrancy guard *)

Lemma scanFinally_idle again w :
  scanRerunRequested (globals w) = false ->
  scanFinally again w = Ok tt (with_globals (set_scanRunning false) w).
Proof.
  intros H. unfold scanFinally. unfold_m. cbn. now rewrite H.
Qed.

Lemma scanFinally_rerun again w :
  scanRerunRequested (globals w) = true ->
  scanFinally again w =
  detached again (with_globals (set_scanRerunRequested false)
                    (with_globals (set_scanRunning false) w)).
Proof.
  intros H. unfold scanFinally. unfold_m. cbn. now rewrite H.
Qed.

Lemma scanCall_busy again w :
  scanRunning (globals w) = true ->
  scanCall again w = Ok tt (with_globals (set_scanRerunRequested true) w).
Proof.
  intros H. unfold scanCall. unfold_m. cbn. now rewrite H.
Qed.

(** A call that finds both flags cleared does not reach [again]. *)
Lemma scanCall_idle again w :
  flagsClear w ->
  exists w', scanCall again w = Ok tt w' /\ dataOf w' = dataOf w
     /\ scanRerunRequested (globals w') = false.
Proof.
  intros [Hrun Hre]. unfold scanCall.
  unfold_m. cbn. rewrite Hrun. cbn.
  destruct (truthy _); cbn.
  - destruct (thresholdMs _ _) as [t|]; cbn.
    + destruct (t =? 0); cbn.
      * rewrite scanFinally_idle by exact Hre. eexists; split; [reflexivity|]. now split.
      * eexists; split; [reflexivity|]. now split.
    + rewrite scanFinally_idle by exact Hre. eexists; split; [reflexivity|]. now split.
  - rewrite scanFinally_idle by exact Hre. eexists; split; [reflexivity|]. now split.
Qed.

Lemma scanCall_total again w :
  (forall v, flagsClear v -> exists v', again v = Ok tt v' /\ dataOf v' = dataOf v) ->
  exists w', scanCall again w = Ok tt w' /\ dataOf w' = dataOf w.
Proof.
  intros Hagain.
  destruct (scanRunning (globals w)) eqn:Hrun.
  { rewrite scanCall_busy by exact Hrun. eexists; split; [reflexivity|]. reflexivity. }
  destruct (scanRerunRequested (globals w)) eqn:Hre.
  2:{ destruct (scanCall_idle again w) as (w' & H1 & H2 & _); [now split|]. eauto. }
  unfold scanCall. unfold_m. cbn. rewrite Hrun. cbn.
  set (w1 := with_host _ _).
  assert (Hfin : exists w', scanFinally again w1 = Ok tt w' /\ dataOf w' = dataOf w).
  { rewrite scanFinally_rerun by exact Hre. unfold detached, tryCatch.
    edestruct (Hagain (with_globals (set_scanRerunRequested false)
                (with_globals (set_scanRunning false) w1))) as (v' & Hv & Hd).
    { split; reflexivity. }
    rewrite Hv. eexists; split; [reflexivity|]. rewrite Hd. reflexivity. }
  destruct (truthy _); cbn; [|exact Hfin].
  destruct (thresholdMs _ _) as [t|]; cbn; [|exact Hfin].
  destruct (t =? 0); cbn; [exact Hfin|].
  eexists; split; [reflexivity|]. reflexivity.
Qed.

Lemma runInactivityScan_upto_total n w :
  exists w', runInactivityScan_upto (S (S n)) w = Ok tt w' /\ dataOf w' = dataOf w.
Proof.
  change (runInactivityScan_upto (S (S n))) with (scanCall (runInactivityScan_upto (S n))).
  apply scanCall_total. change (runInactivityScan_upto (S n)) with (scanCall (runInactivityScan_upto n)).
  intros v Hv. destruct (scanCall_idle (runInactivityScan_upto n) v Hv) as (v' & H1 & H2 & _).
  eauto.
Qed.

Lemma runInactivityScan_total w :
  exists w', runInactivityScan w = Ok tt w' /\ dataOf w' = dataOf w.
Proof. apply (runInactivityScan_upto_total 0). Qed.

Lemma configureAlarm_total w :
  exists w', configureAlarm w = Ok tt w' /\ dataOf w' = dataOf w.
Proof.
  unfold configureAlarm. unfold_m. cbn.
  destruct (truthy _); cbn.
  - match goal with |- context [runInactivityScan ?v] =>
      destruct (runInactivityScan_total v) as (w' & Hw & Hd) end.
    unfold detached, tryCatch. rewrite Hw. eexists; split; [reflexivity|]. now rewrite Hd.
  - eexists; split; reflexivity.
Qed.

Lemma dataOf_settings w w' :
  dataOf w' = dataOf w -> currentSettings (globals w') = currentSettings (globals w).
Proof. unfold dataOf. congruence. Qed.

Lemma dataOf_storedSettings w w' :
  dataOf w' = dataOf w -> storedSettings (host w') = storedSettings (host w).
Proof. unfold dataOf. congruence. Qed.

Lemma dataOf_rejects w w' :
  dataOf w' = dataOf w -> rejects (host w') = rejects (host w).
Proof. unfold dataOf. congruence. Qed.

Lemma dataOf_stringToNumber w w' :
  dataOf w' = dataOf w -> stringToNumber (host w') = stringToNumber (host w).
Proof. unfold dataOf. congruence. Qed.

Lemma thresholdMs_ext h h' s :
  stringToNumber h = stringToNumber h' -> thresholdMs h s = thresholdMs h' s.
Proof.
  intros H. unfold thresholdMs, toNumber. now rewrite H.
Qed.

(** A call of the scan in a world where no scan runs, auto-suspend is on
    and the threshold is a non-zero number: the scan takes off with that
    threshold. *)
Lemma runInactivityScan_takes_off w t :
  flagsClear w ->
  truthy (currentSettings (globals w) !! "autoSuspend") = true ->
  thresholdMs (host w) (currentSettings (globals w)) = Some t ->
  t <> 0 ->
  exists w', runInactivityScan w = Ok tt w' /\
    scans w' = scans w ++ [mkScanFrame t (clock (host w))] /\
    scanRunning (globals w') = true.
Proof.
  intros [Hrun Hre] Hauto Ht Hnz.
  unfold runInactivityScan.
  change (runInactivityScan_upto 2) with (scanCall (runInactivityScan_upto 1)).
  unfold scanCall. unfold_m. cbn. rewrite Hrun. cbn. rewrite Hauto. cbn.
  rewrite (thresholdMs_ext _ (host w)) by reflexivity.
  rewrite Ht. destruct (Z.eqb_spec t 0); [contradiction|]. cbn.
  eexists. split; [reflexivity|]. split; reflexivity.
Qed.

(** *** Settings *)

(** What [loadSettings] leaves in [currentSettings]. *)
Lemma loadSettings_result w :
  exists w',
    loadSettings w = Ok tt w' /\
    storedSettings (host w') = storedSettings (host w) /\
    currentSettings (globals w') =
      if rejects (host w) (StorageGet SETTINGS) then DEFAULT_SETTINGS
      else
        let merged := spread DEFAULT_SETTINGS (default ∅ (storedSettings (host w))) in
        if invalidSuspendTime (merged !! "autoSuspendTime")
        then <["autoSuspendTime" := DEFAULT_autoSuspendTime]> merged
        else merged.
Proof.
  unfold loadSettings, Chrome.storage_get_settings, Chrome.hostCall. unfold_m. cbn.
  destruct (rejects (host w) (StorageGet SETTINGS)); cbn.
  { eexists; split; [reflexivity|]. split; reflexivity. }
  destruct (invalidSuspendTime _); cbn.
  - match goal with |- context [configureAlarm ?v] =>
      destruct (configureAlarm_total v) as (w' & Hw & Hd) end.
    rewrite Hw. eexists; split; [reflexivity|].
    rewrite (dataOf_settings _ _ Hd), (dataOf_storedSettings _ _ Hd). split; reflexivity.
  - match goal with |- context [configureAlarm ?v] =>
      destruct (configureAlarm_total v) as (w' & Hw & Hd) end.
    rewrite Hw. eexists; split; [reflexivity|].
    rewrite (dataOf_settings _ _ Hd), (dataOf_storedSettings _ _ Hd). split; reflexivity.
Qed.

Lemma invalidSuspendTime_spec v :
  invalidSuspendTime v = true <-> ~ positiveNumber v.
Proof.
  unfold positiveNumber. split.
  - intros H (n & -> & Hn). cbn in H. lia.
  - intros H. destruct v as [[| |n|]|]; try reflexivity. cbn.
    destruct (Z.leb_spec n 0); [reflexivity|]. exfalso. apply H. eauto.
Qed.

Lemma default_time_lookup : DEFAULT_SETTINGS !! "autoSuspendTime" = Some (JNum 30).
Proof. reflexivity. Qed.

Lemma loadSettings_invalid_time (w : World) (stored : Settings) :
  storedSettings (host w) = Some stored ->
  ~ positiveNumber (stored !! "autoSuspendTime") ->
  exists w',
    loadSettings w = Ok tt w' /\
    currentSettings (globals w') !! "autoSuspendTime" = Some (JNum 30) /\
    storedSettings (host w') = Some stored.
Proof.
  intros Hst Hbad.
  destruct (loadSettings_result w) as (w' & Hrun & Hkeep & Hcur).
  exists w'. split; [exact Hrun|]. split; [|now rewrite Hkeep].
  rewrite Hcur. destruct (rejects _ _); [reflexivity|].
  rewrite Hst. cbn. unfold spread.
  destruct (stored !! "autoSuspendTime") as [v|] eqn:Hv.
  - assert (Hl : (stored ∪ DEFAULT_SETTINGS) !! "autoSuspendTime" = Some v).
    { apply lookup_union_Some_l. exact Hv. }
    rewrite Hl. apply invalidSuspendTime_spec in Hbad. rewrite Hbad.
    apply lookup_insert_eq.
  - assert (Hl : (stored ∪ DEFAULT_SETTINGS) !! "autoSuspendTime" = Some (JNum 30)).
    { rewrite lookup_union_r by exact Hv. reflexivity. }
    rewrite Hl. cbn. exact Hl.
Qed.

(** Claim C9. If the stored settings have no [autoSuspendTime], or one
    that is not a positive number, [loadSettings] leaves 30 as the
    timeout of the current settings. *)
Theorem loadSettings_substitutes_default (w : World) (stored : Settings) :
  storedSettings (host w) = Some stored ->
  ~ positiveNumber (stored !! "autoSuspendTime") ->
  exists w',
    loadSettings w = Ok tt w' /\
    currentSettings (globals w') !! "autoSuspendTime" = Some (JNum 30) /\
    storedSettings (host w') = Some stored.
Proof. apply loadSettings_invalid_time. Qed.

(** Claim C9 for a stored timeout of -5. *)
Lemma loadSettings_substitutes_default_witness :
  exists w',
    loadSettings worldWithNegativeTime = Ok tt w' /\
    currentSettings (globals w') !! "autoSuspendTime" = Some (JNum 30) /\
    storedSettings (host w') = Some negativeTime.
Proof.
  apply (loadSettings_substitutes_default worldWithNegativeTime negativeTime).
  - reflexivity.
  - intros (n & Hn & Hpos). vm_compute in Hn. injection Hn as <-. lia.
Defined.

Lemma spread_lookup (base over : Settings) k :
  spread base over !! k =
  match over !! k with Some v => Some v | None => base !! k end.
Proof.
  unfold spread. destruct (over !! k) as [v|] eqn:H.
  - now apply lookup_union_Some_l.
  - now apply lookup_union_r.
Qed.

Lemma saveSettings_result partial w :
  exists ok w',
    saveSettings partial w = Ok ok w' /\
    currentSettings (globals w') = spread (currentSettings (globals w)) partial /\
    rejects (host w') = rejects (host w) /\
    stringToNumber (host w') = stringToNumber (host w) /\
    (if rejects (host w) (StorageSet SETTINGS)
     then ok = false /\ storedSettings (host w') = storedSettings (host w)
     else ok = true /\
          storedSettings (host w') = Some (spread (currentSettings (globals w)) partial)).
Proof.
  unfold saveSettings, Chrome.storage_set_settings, Chrome.hostCall. unfold_m. cbn.
  destruct (rejects (host w) (StorageSet SETTINGS)); cbn.
  { do 2 eexists. split; [reflexivity|]. repeat split; reflexivity. }
  match goal with |- context [configureAlarm ?v] =>
    destruct (configureAlarm_total v) as (w' & Hw & Hd) end.
  rewrite Hw. do 2 eexists. split; [reflexivity|].
  rewrite (dataOf_settings _ _ Hd), (dataOf_storedSettings _ _ Hd),
    (dataOf_rejects _ _ Hd), (dataOf_stringToNumber _ _ Hd).
  repeat split; reflexivity.
Qed.

Lemma loadSettings_positive w :
  exists w', loadSettings w = Ok tt w' /\
    positiveNumber (currentSettings (globals w') !! "autoSuspendTime").
Proof.
  destruct (loadSettings_result w) as (w' & Hrun & _ & Hcur).
  exists w'. split; [exact Hrun|]. rewrite Hcur.
  destruct (rejects _ _). { exists 30. split; [reflexivity|lia]. }
  cbn. destruct (invalidSuspendTime _) eqn:Hinv.
  - rewrite lookup_insert_eq. exists 30. split; [reflexivity|lia].
  - destruct (_ !! "autoSuspendTime") as [[| |n|]|]; try discriminate.
    exists n. split; [reflexivity|]. cbn in Hinv. lia.
Qed.

(** Claim C10. [saveSettings] always returns; the current settings become
    the old ones overridden field by field by the partial update, and
    that object is what storage receives (when it accepts the write).
    Nothing is validated: after saving [{ autoSuspendTime: -5 }] the live
    timeout is -5, the threshold of a scan is -300000 ms and a scan that
    takes off uses it; a later [loadSettings] puts a positive timeout
    back, 30 when the save had reached storage. *)
Theorem saveSettings_merges_without_validation (w : World) (partial : Settings) :
  exists ok w',
    saveSettings partial w = Ok ok w' /\
    (forall k, currentSettings (globals w') !! k =
               match partial !! k with
               | Some v => Some v
               | None => currentSettings (globals w) !! k
               end) /\
    (rejects (host w) (StorageSet SETTINGS) = false ->
     ok = true /\ storedSettings (host w') = Some (currentSettings (globals w'))) /\
    (partial !! "autoSuspendTime" = Some (JNum (-5)) ->
     currentSettings (globals w') !! "autoSuspendTime" = Some (JNum (-5)) /\
     thresholdMs (host w') (currentSettings (globals w')) = Some (-300000) /\
     (forall v,
        currentSettings (globals v) = currentSettings (globals w') ->
        flagsClear v ->
        truthy (currentSettings (globals v) !! "autoSuspend") = true ->
        exists v', runInactivityScan v = Ok tt v' /\
          scans v' = scans v ++ [mkScanFrame (-300000) (clock (host v))]) /\
     (exists w'',
        loadSettings w' = Ok tt w'' /\
        positiveNumber (currentSettings (globals w'') !! "autoSuspendTime") /\
        (rejects (host w) (StorageSet SETTINGS) = false ->
         currentSettings (globals w'') !! "autoSuspendTime" = Some (JNum 30)))).
Proof.
  destruct (saveSettings_result partial w) as (ok & w' & Hrun & Hcur & Hrej & Hnum & Hsto).
  exists ok, w'. split; [exact Hrun|].
  split. { intros k. rewrite Hcur. apply spread_lookup. }
  split.
  { intros Hacc. rewrite Hacc in Hsto. destruct Hsto as [-> Hs]. split; [reflexivity|].
    now rewrite Hs, Hcur. }
  intros Hneg.
  assert (Hlive : currentSettings (globals w') !! "autoSuspendTime" = Some (JNum (-5))).
  { rewrite Hcur, spread_lookup, Hneg. reflexivity. }
  assert (Hthr : forall h, thresholdMs h (currentSettings (globals w')) = Some (-300000)).
  { intros h. unfold thresholdMs. rewrite Hlive. reflexivity. }
  split; [exact Hlive|]. split; [apply Hthr|]. split.
  { intros v Hv Hclear Hauto.
    destruct (runInactivityScan_takes_off v (-300000) Hclear Hauto) as (v' & H1 & H2 & _).
    - rewrite Hv. apply Hthr.
    - lia.
    - eauto. }
  destruct (loadSettings_positive w') as (w'' & Hload & Hpos).
  exists w''. split; [exact Hload|]. split; [exact Hpos|].
  intros Hacc. rewrite Hacc in Hsto. destruct Hsto as [_ Hs].
  destruct (loadSettings_invalid_time w' _ Hs) as (w3 & Hload3 & Hthirty & _).
  { rewrite spread_lookup, Hneg. intros (n & Hn & Hpos'). injection Hn as <-. lia. }
  rewrite Hload in Hload3. injection Hload3 as <-. exact Hthirty.
Qed.

(** Claim C10 for the partial update [{ autoSuspendTime: -5 }]. *)
Lemma saveSettings_merges_without_validation_witness :
  exists ok w' w'',
    saveSettings negativeTime world = Ok ok w' /\
    ok = true /\
    storedSettings (host w') = Some (currentSettings (globals w')) /\
    currentSettings (globals w') !! "autoSuspendTime" = Some (JNum (-5)) /\
    currentSettings (globals w') !! "ignorePinned" = Some (JBool true) /\
    thresholdMs (host w') (currentSettings (globals w')) = Some (-300000) /\
    loadSettings w' = Ok tt w'' /\
    currentSettings (globals w'') !! "autoSuspendTime" = Some (JNum 30).
Proof.
  destruct (saveSettings_merges_without_validation world negativeTime)
    as (ok & w' & Hrun & Hmerge & Hsto & Hneg).
  destruct (Hsto eq_refl) as [Hok Hstored].
  destruct (Hneg eq_refl) as (Hlive & Hthr & _ & (w'' & Hload & _ & Hthirty)).
  exists ok, w', w''. split; [exact Hrun|]. split; [exact Hok|].
  split; [exact Hstored|]. split; [exact Hlive|]. split.
  { rewrite Hmerge. reflexivity. }
  split; [exact Hthr|]. split; [exact Hload|]. apply Hthirty. reflexivity.
Defined.

(** *** The scan loop and the next wake-up *)

Lemma fold_minDelay_Some (l : list Z) (d : Z) :
  exists m, fold_left minDelay l (Some d) = Some m /\
    m <= d /\ (forall c, In c l -> m <= c) /\ (m = d \/ In m l).
Proof.
  revert d. induction l as [|x l IH]; intros d; cbn.
  - exists d. repeat split; [lia|contradiction|now left].
  - destruct (IH (Z.min d x)) as (m & Hm & Hle & Hall & Hin).
    exists m. split; [exact Hm|]. split; [lia|]. split.
    + intros c [<-|Hc]; [lia|auto].
    + destruct Hin as [->|Hin]; [|right; now right].
      destruct (Z.min_spec d x) as [[_ ->]|[_ ->]]; [now left|right; now left].
Qed.

(** The loop's accumulator, started at [Infinity], ends at the minimum of
    the contributions, or stays [Infinity] when there is none. *)
Lemma fold_minDelay_minimum (l : list Z) :
  match fold_left minDelay l None with
  | None => l = []
  | Some m => IsMinimum m l
  end.
Proof.
  destruct l as [|x l]; [reflexivity|]. cbn.
  destruct (fold_minDelay_Some l x) as (m & -> & Hle & Hall & Hin).
  split.
  - destruct Hin as [->|Hin]; [now left|now right].
  - intros c [<-|Hc]; [exact Hle|auto].
Qed.

Lemma IsMinimum_unique m m' l : IsMinimum m l -> IsMinimum m' l -> m = m'.
Proof. intros [H1 H2] [H3 H4]. specialize (H2 _ H3). specialize (H4 _ H1). lia. Qed.

Lemma fold_addContribution (f : Tab -> option Z) (ts : list Tab) (d : option Z) :
  fold_left addContribution (List.map f ts) d = fold_left minDelay (omap f ts) d.
Proof.
  revert d. induction ts as [|t ts IH]; intros d; [reflexivity|]. cbn.
  destruct (f t); cbn; apply IH.
Qed.

Lemma contribution_ext s extId a a' fr tab :
  a !! tab_id tab = a' !! tab_id tab ->
  contribution s extId a fr tab = contribution s extId a' fr tab.
Proof. intros H. unfold contribution, lastSeen. now rewrite H. Qed.

Lemma hostFrame_scanStep id w w' : hostFrame w w' -> scanStep id w w'.
Proof.
  intros (?&?&?&?&?&?&?&?&?&?). unfold scanStep, schedulerOf, policyOf.
  repeat split; congruence.
Qed.

Lemma scanStep_refl id w : scanStep id w w.
Proof. repeat split. Qed.

Lemma scanStep_trans id w1 w2 w3 :
  scanStep id w1 w2 -> scanStep id w2 w3 -> scanStep id w1 w3.
Proof.
  intros (?&?&H1) (?&?&H2). repeat split; try congruence.
  intros k Hk. rewrite H2, H1; auto.
Qed.

Lemma lastSeen_seed activity tab :
  orElse (seed activity tab !! tab_id tab) (tab_lastAccessed tab) = lastSeen activity tab.
Proof.
  unfold seed, lastSeen, orElse.
  destruct (truthyNumber (activity !! tab_id tab)) eqn:Hentry; cbn; [now rewrite Hentry|].
  destruct (tab_lastAccessed tab) as [a|] eqn:Ha; cbn; [|now rewrite Hentry].
  destruct (Z.eqb_spec a 0); cbn; [now rewrite Hentry|].
  rewrite lookup_insert_eq. cbn. destruct (Z.eqb_spec a 0); [contradiction|reflexivity].
Qed.

Lemma truthyNumber_false_cases v :
  truthyNumber v = false -> v = None \/ v = Some 0.
Proof.
  destruct v as [z|]; [|now left]. cbn. destruct (Z.eqb_spec z 0); [subst; now right|discriminate].
Qed.

Lemma scanTab_spec fr d tab w :
  match scanTab fr d tab w with
  | Ok d' w' =>
      d' = addContribution d
             (contribution (currentSettings (globals w)) (extensionId (host w))
                           (lastActivityMap (globals w)) fr tab) /\
      scanStep (tab_id tab) w w'
  | Throw _ w' => scanStep (tab_id tab) w w'
  | Unmodelled => True
  end.
Proof.
  unfold scanTab, contribution.
  destruct (tab_id tab =? 0). { split; [reflexivity|apply scanStep_refl]. }
  step_refl.
  destruct (isExtensionSuspendedPage _ _). { split; [reflexivity|apply scanStep_refl]. }
  step_refl.
  set (ws := with_globals
               (fun g => set_lastActivityMap (seed (lastActivityMap g) tab) g) w).
  assert (Hseed :
    (if negb (truthyNumber (lastActivityMap (globals w) !! tab_id tab))
        && truthyNumber (tab_lastAccessed tab)
     then setActivity (insert (tab_id tab) (default 0 (tab_lastAccessed tab)))
     else ret tt) w = Ok tt ws).
  { subst ws. unfold seed, setActivity, modify, with_globals, ret.
    destruct w as [h [s c a r rr] sc st]. cbn.
    destruct (_ && _); reflexivity. }
  step_by Hseed.
  assert (Sws : scanStep (tab_id tab) w ws).
  { subst ws. repeat split. intros k Hk. cbn. unfold seed.
    destruct (_ && _); [now rewrite lookup_insert_ne|reflexivity]. }
  step_refl. change (lastActivityMap (globals ws)) with (seed (lastActivityMap (globals w)) tab).
  rewrite lastSeen_seed.
  destruct (lastSeen (lastActivityMap (globals w)) tab) as [last|]; cbn;
    [|split; [reflexivity|exact Sws]].
  destruct (last =? 0); cbn; [split; [reflexivity|exact Sws]|].
  destruct (frame_thresholdMs fr <=? frame_now fr - last); cbn;
    [|split; [reflexivity|exact Sws]].
  unfold bind at 1. unfold liftR.
  change (currentSettings (globals ws)) with (currentSettings (globals w)).
  destruct (eligibleForSuspend _ _ tab Auto) as [[|]| |]; cbn;
    [|split; [reflexivity|exact Sws]|exact Sws|exact I].
  unfold bind at 1, swallow, tryCatch, bind.
  pose proof (suspendTab_frame (tab_id tab) Auto ws) as Hf.
  destruct (suspendTab (tab_id tab) Auto ws) as [r w'| |]; cbn; [|contradiction|exact I].
  split; [reflexivity|].
  eapply scanStep_trans; [exact Sws|]. now apply hostFrame_scanStep.
Qed.

Lemma scanTabs_spec fr ts :
  NoDup (tab_id <$> ts) ->
  forall d w,
    match scanTabs fr d ts w with
    | Ok d' w' =>
        d' = fold_left minDelay
               (contributions (currentSettings (globals w)) (extensionId (host w))
                              (lastActivityMap (globals w)) fr ts) d /\
        scanKeeps w w'
    | Throw _ w' => scanKeeps w w'
    | Unmodelled => True
    end.
Proof.
  unfold contributions.
  induction ts as [|tab ts IH]; intros Hnd d w.
  { cbn. split; [reflexivity|]. split; reflexivity. }
  apply NoDup_cons in Hnd as [Hnotin Hnd].
  change (scanTabs fr d (tab :: ts)) with
    (do d1 <- scanTab fr d tab ; scanTabs fr d1 ts).
  unfold bind. pose proof (scanTab_spec fr d tab w) as Hstep.
  destruct (scanTab fr d tab w) as [d1 w1|e w1|];
    [|destruct Hstep as (? & ? & _); now split|exact I].
  destruct Hstep as (-> & Hsched & Hpol & Hact).
  specialize (IH Hnd (addContribution d
     (contribution (currentSettings (globals w)) (extensionId (host w))
        (lastActivityMap (globals w)) fr tab)) w1).
  assert (Hsame : omap (contribution (currentSettings (globals w1)) (extensionId (host w1))
                          (lastActivityMap (globals w1)) fr) ts =
                  omap (contribution (currentSettings (globals w)) (extensionId (host w))
                          (lastActivityMap (globals w)) fr) ts).
  { unfold policyOf in Hpol. injection Hpol as Hset Hext _ _ _. rewrite Hset, Hext.
    clear IH. induction ts as [|t ts IHts]; [reflexivity|]. cbn.
    cbn in Hnotin. apply not_elem_of_cons in Hnotin as [Hne Hrest].
    apply NoDup_cons in Hnd as [_ Hnd].
    rewrite (contribution_ext _ _ (lastActivityMap (globals w1)) (lastActivityMap (globals w)))
      by (apply Hact; congruence).
    now rewrite IHts. }
  destruct (scanTabs fr _ ts w1) as [d' w'|e w'|]; [| |exact I].
  - destruct IH as (-> & Hs' & Hp'). rewrite Hsame. split.
    + cbn. destruct (contribution _ _ _ fr tab); reflexivity.
    + split; congruence.
  - destruct IH as (Hs' & Hp'). split; congruence.
Qed.

Lemma filter_all {A} (l : list A) : List.filter (fun _ => true) l = l.
Proof. induction l as [|x l IH]; [reflexivity|]. cbn. now rewrite IH. Qed.

(** [scanBody] either throws or schedules the alarm at the clamped
    minimum of the contributions. *)
Lemma scanBody_spec fr w :
  NoDup (tab_id <$> tabs (host w)) ->
  match scanBody fr w with
  | Ok _ w' =>
      let cs := contributions (currentSettings (globals w)) (extensionId (host w))
                              (lastActivityMap (globals w)) fr (tabs (host w)) in
      let delay := clampDelay (frame_thresholdMs fr) (fold_left minDelay cs None) in
      alarm (host w') = Some (clock (host w) + delay) /\
      head (calls (host w')) = Some (AlarmsCreate (clock (host w) + delay)) /\
      schedulerOf w' = schedulerOf w
  | Throw _ w' => schedulerOf w' = schedulerOf w
  | Unmodelled => True
  end.
Proof.
  intros Hnd. unfold scanBody, Chrome.tabs_query, Chrome.hostCall.
  unfold bind at 1. unfold bind at 1.
  destruct (rejects (host w) TabsQuery). { reflexivity. }
  unfold inspect. rewrite filter_all.
  set (w0 := with_host (log_call TabsQuery) w).
  change (tabs (host w0)) with (tabs (host w)).
  unfold bind at 1.
  pose proof (scanTabs_spec fr (tabs (host w)) Hnd None w0) as Hloop.
  destruct (scanTabs fr None (tabs (host w)) w0) as [d w1|e w1|]; [| |exact I].
  - destruct Hloop as (-> & Hs & Hp). unfold_m. cbn.
    unfold policyOf in Hp. injection Hp as _ _ Hclock _ _. cbn in Hclock. rewrite Hclock.
    repeat split. exact Hs.
  - apply Hloop.
Qed.

(** The loop never touches the scheduler's own state. *)
Lemma scanTabs_keeps fr ts :
  forall d w,
    match scanTabs fr d ts w with
    | Ok _ w' | Throw _ w' => scanKeeps w w'
    | Unmodelled => True
    end.
Proof.
  induction ts as [|tab ts IH]; intros d w.
  { cbn. split; reflexivity. }
  change (scanTabs fr d (tab :: ts)) with
    (do d1 <- scanTab fr d tab ; scanTabs fr d1 ts).
  unfold bind. pose proof (scanTab_spec fr d tab w) as Hstep.
  destruct (scanTab fr d tab w) as [d1 w1|e w1|];
    [|destruct Hstep as (? & ? & _); now split|exact I].
  destruct Hstep as (_ & Hs & Hp & _). specialize (IH d1 w1).
  destruct (scanTabs fr d1 ts w1); [| |exact I];
    destruct IH as (Hs' & Hp'); split; congruence.
Qed.

Lemma scanBody_keeps fr w :
  match scanBody fr w with
  | Ok _ w' | Throw _ w' => schedulerOf w' = schedulerOf w
  | Unmodelled => True
  end.
Proof.
  unfold scanBody, Chrome.tabs_query, Chrome.hostCall.
  unfold bind at 1. unfold bind at 1.
  destruct (rejects (host w) TabsQuery). { reflexivity. }
  unfold inspect. set (w0 := with_host (log_call TabsQuery) w).
  unfold bind at 1.
  pose proof (scanTabs_keeps fr (List.filter (fun _ => true) (tabs (host w0))) None w0) as Hloop.
  destruct (scanTabs fr None _ w0) as [d w1|e w1|]; [| |exact I].
  - unfold_m. cbn. apply Hloop.
  - apply Hloop.
Qed.

Lemma clampDelay_bounds threshold d :
  5000 <= clampDelay threshold d <= Z.max threshold (15 * 60 * 1000).
Proof. unfold clampDelay. lia. Qed.

(** Claim C6. When a scan (with the threshold and the time it has bound
    in [fr]) gets to schedule the next wake-up, the alarm is set [delay]
    after the current time, where [delay] is five minutes when no tab
    contributed and the minimum contribution otherwise, clamped between
    5 seconds and the larger of the threshold and 15 minutes; for a
    threshold of 30 minutes it lies between 5 seconds and 30 minutes. Tab
    ids are taken to be distinct. *)
Theorem scan_schedules_clamped_minimum (w w' : World) (fr : ScanFrame) :
  NoDup (tab_id <$> tabs (host w)) ->
  scanBody fr w = Ok tt w' ->
  exists delay,
    alarm (host w') = Some (clock (host w) + delay) /\
    head (calls (host w')) = Some (AlarmsCreate (clock (host w) + delay)) /\
    (contributions (currentSettings (globals w)) (extensionId (host w))
                   (lastActivityMap (globals w)) fr (tabs (host w)) = [] ->
     delay = Z.max 5000 (Z.min (5 * 60 * 1000)
                               (Z.max (frame_thresholdMs fr) (15 * 60 * 1000)))) /\
    (forall m,
       IsMinimum m (contributions (currentSettings (globals w)) (extensionId (host w))
                                  (lastActivityMap (globals w)) fr (tabs (host w))) ->
       delay = Z.max 5000 (Z.min m (Z.max (frame_thresholdMs fr) (15 * 60 * 1000)))) /\
    5000 <= delay <= Z.max (frame_thresholdMs fr) (15 * 60 * 1000) /\
    (frame_thresholdMs fr = 30 * 60 * 1000 -> 5000 <= delay <= 30 * 60 * 1000).
Proof.
  intros Hnd Hrun. pose proof (scanBody_spec fr w Hnd) as H. rewrite Hrun in H.
  cbn zeta in H. destruct H as (Halarm & Hcall & _).
  set (cs := contributions _ _ _ fr _) in *.
  exists (clampDelay (frame_thresholdMs fr) (fold_left minDelay cs None)).
  split; [exact Halarm|]. split; [exact Hcall|].
  pose proof (fold_minDelay_minimum cs) as Hmin.
  pose proof (clampDelay_bounds (frame_thresholdMs fr) (fold_left minDelay cs None)) as Hb.
  split; [|split; [|split]].
  - intros Hnil. rewrite Hnil. reflexivity.
  - intros m Hm. destruct (fold_left minDelay cs None) as [m'|].
    + rewrite (IsMinimum_unique _ _ _ Hm Hmin). reflexivity.
    + rewrite Hmin in Hm. destruct Hm as [[] _].
  - exact Hb.
  - intros Ht. rewrite Ht in Hb |- *. lia.
Qed.

Lemma world_tab_ids : NoDup (tab_id <$> tabs (host world)).
Proof. vm_compute. repeat constructor; rewrite ?list_elem_of_In; cbn; intuition lia. Qed.

Lemma scan_schedules_clamped_minimum_witness :
  contributions (currentSettings (globals world)) (extensionId (host world))
                (lastActivityMap (globals world)) thirtyMinutes (tabs (host world))
    = [800000; 1800000] /\
  exists w',
    scanBody thirtyMinutes world = Ok tt w' /\
    alarm (host w') = Some (5000000 + 800000) /\
    head (calls (host w')) = Some (AlarmsCreate (5000000 + 800000)).
Proof.
  assert (Hrun : scanBody thirtyMinutes world
                 = Ok tt (worldOf (scanBody thirtyMinutes world))).
  { vm_compute. reflexivity. }
  assert (Hcs : contributions (currentSettings (globals world)) (extensionId (host world))
                  (lastActivityMap (globals world)) thirtyMinutes (tabs (host world))
                = [800000; 1800000]).
  { vm_compute. reflexivity. }
  split; [exact Hcs|]. eexists. split; [exact Hrun|].
  destruct (scan_schedules_clamped_minimum world _ thirtyMinutes world_tab_ids Hrun)
    as (delay & Halarm & Hcall & _ & Hmin & _).
  rewrite Hcs in Hmin.
  assert (Hd : delay = 800000).
  { rewrite (Hmin 800000); [reflexivity|]. split; [now left|].
    intros c [<-|[<-|[]]]; lia. }
  rewrite Hd in Halarm, Hcall. split; [exact Halarm|exact Hcall].
Defined.

(** *** The scheduler never overlaps scans *)

Lemma SchedInv_initial w :
  flagsClear w -> scans w = [] -> SchedInv w.
Proof.
  intros [Hrun Hre] Hs. split; [congruence|]. intros _. now split.
Qed.

Lemma SchedInv_at_most_one w : SchedInv w -> (length (scans w) <= 1)%nat.
Proof.
  intros [Hrun Hidle]. destruct (scanRunning (globals w)).
  - destruct Hrun as [fr ->]; auto.
  - destruct Hidle as [-> _]; auto.
Qed.

(** A call that finds both flags cleared starts exactly one scan, which
    either takes off (one more scan in flight) or ends at once. *)
Lemma scanCall_idle_starts again w :
  flagsClear w ->
  exists w',
    scanCall again w = Ok tt w' /\
    scanRerunRequested (globals w') = false /\
    scansStarted w' = S (scansStarted w) /\
    (scanRunning (globals w') = true /\ (exists fr, scans w' = scans w ++ [fr])
     \/ scanRunning (globals w') = false /\ scans w' = scans w).
Proof.
  intros [Hrun Hre]. unfold scanCall. unfold_m. cbn. rewrite Hrun. cbn.
  destruct (truthy _); cbn.
  - destruct (thresholdMs _ _) as [t|]; cbn.
    + destruct (t =? 0); cbn.
      * rewrite scanFinally_idle by exact Hre. eexists; split; [reflexivity|].
        repeat split; auto.
      * eexists; split; [reflexivity|]. cbn. repeat split; eauto.
    + rewrite scanFinally_idle by exact Hre. eexists; split; [reflexivity|].
      repeat split; auto.
  - rewrite scanFinally_idle by exact Hre. eexists; split; [reflexivity|].
    repeat split; auto.
Qed.

Lemma runInactivityScan_busy w :
  scanRunning (globals w) = true ->
  runInactivityScan w = Ok tt (with_globals (set_scanRerunRequested true) w).
Proof. intros H. now apply scanCall_busy. Qed.

Lemma runInactivityScan_idle_starts w :
  flagsClear w ->
  exists w',
    runInactivityScan w = Ok tt w' /\
    scanRerunRequested (globals w') = false /\
    scansStarted w' = S (scansStarted w) /\
    (scanRunning (globals w') = true /\ (exists fr, scans w' = scans w ++ [fr])
     \/ scanRunning (globals w') = false /\ scans w' = scans w).
Proof. apply scanCall_idle_starts. Qed.

Lemma fire_Trigger_inv w :
  SchedInv w ->
  exists w', fire Trigger w = Ok tt w' /\ SchedInv w'.
Proof.
  intros [Hrun Hidle]. unfold fire, detached, tryCatch.
  destruct (scanRunning (globals w)) eqn:Hr.
  - rewrite runInactivityScan_busy by exact Hr. eexists; split; [reflexivity|].
    split; cbn; [intros _; now apply Hrun|congruence].
  - destruct (Hidle eq_refl) as [Hs Hre].
    destruct (runInactivityScan_idle_starts w) as (w' & -> & Hre' & _ & Hcase); [now split|].
    exists w'. split; [reflexivity|].
    destruct Hcase as [(Hr' & fr & Hsc)|(Hr' & Hsc)]; rewrite Hs in Hsc; split;
      rewrite ?Hr'; try discriminate; intros _; eauto.
Qed.

(** The end of a scan, after its body ran: [n] scans were started before. *)
Lemma scanFinally_ends w :
  scanRunning (globals w) = true -> scans w = [] ->
  exists w',
    scanFinally runInactivityScan w = Ok tt w' /\ SchedInv w' /\
    scanRerunRequested (globals w') = false /\
    scansStarted w' =
      (if scanRerunRequested (globals w) then S (scansStarted w) else scansStarted w).
Proof.
  intros Hr Hs. destruct (scanRerunRequested (globals w)) eqn:Hre.
  - rewrite scanFinally_rerun by exact Hre. unfold detached, tryCatch.
    set (v := with_globals _ _).
    destruct (runInactivityScan_idle_starts v) as (w' & -> & Hre' & Hst & Hcase).
    { split; reflexivity. }
    exists w'. split; [reflexivity|]. split; [|split; [exact Hre'|exact Hst]].
    change (scans v) with (scans w) in Hcase. rewrite Hs in Hcase.
    destruct Hcase as [(Hr' & fr & Hsc)|(Hr' & Hsc)]; split;
      rewrite ?Hr'; try discriminate; intros _; eauto.
  - rewrite scanFinally_idle by exact Hre. eexists. split; [reflexivity|].
    split; [|split; [exact Hre|reflexivity]].
    split; cbn; [discriminate|]. intros _. now split.
Qed.

Lemma resumeScan_spec w fr :
  scanRunning (globals w) = true -> scans w = [fr] ->
  match resumeScan w with
  | Ok _ w' | Throw _ w' =>
      SchedInv w' /\
      scanRerunRequested (globals w') = false /\
      scansStarted w' =
        (if scanRerunRequested (globals w) then S (scansStarted w) else scansStarted w)
  | Unmodelled => True
  end.
Proof.
  intros Hr Hs. unfold resumeScan. step_refl. rewrite Hs.
  unfold bind at 1. cbn. unfold tryFinally.
  set (v := set_scans [] w).
  pose proof (scanBody_keeps fr v) as Hbody.
  destruct (scanBody fr v) as [[] v'|e v'|]; [| |exact I].
  - unfold schedulerOf in Hbody.
    injection Hbody as Hr' Hre' Hs' Hst'. cbn in *.
    destruct (scanFinally_ends v') as (w' & Hfin & Hinv & Hre2 & Hst2); [congruence|exact Hs'|].
    unfold bind. rewrite Hfin. cbn. rewrite Hst2, Hre', Hst'. auto.
  - unfold schedulerOf in Hbody. injection Hbody as Hr' Hre' Hs' Hst'. cbn in *.
    destruct (scanFinally_ends v') as (w' & Hfin & Hinv & Hre2 & Hst2); [congruence|exact Hs'|].
    unfold bind. rewrite Hfin. cbn. rewrite Hst2, Hre', Hst'. auto.
Qed.

Lemma fire_Resume_inv w :
  SchedInv w ->
  match fire Resume w with
  | Ok _ w' => SchedInv w'
  | Throw _ _ => False
  | Unmodelled => True
  end.
Proof.
  intros Hinv. unfold fire, detached, tryCatch.
  destruct (scanRunning (globals w)) eqn:Hr.
  - destruct Hinv as [Hrun _]. destruct (Hrun Hr) as [fr Hs].
    pose proof (resumeScan_spec w fr Hr Hs) as H.
    destruct (resumeScan w); [apply H|apply H|exact I].
  - destruct (proj2 Hinv Hr) as [Hs Hre].
    unfold resumeScan. step_refl. rewrite Hs. exact Hinv.
Qed.

Lemma runEvents_inv evs :
  forall w w', SchedInv w -> runEvents evs w = Ok tt w' -> SchedInv w'.
Proof.
  induction evs as [|ev evs IH]; intros w w' Hinv Hrun.
  { cbn in Hrun. injection Hrun as <-. exact Hinv. }
  cbn [runEvents] in Hrun. unfold bind in Hrun. destruct ev.
  - destruct (fire_Trigger_inv w Hinv) as (w1 & Hf & Hinv1). rewrite Hf in Hrun. eauto.
  - pose proof (fire_Resume_inv w Hinv) as H.
    destruct (fire Resume w) as [[] w1| |]; try discriminate. eauto.
Qed.

(** Any number of triggers during a scan leaves one request behind. *)
Lemma triggers_coalesce n w :
  scanRunning (globals w) = true ->
  exists w1,
    runEvents (replicate n Trigger) w = Ok tt w1 /\
    scanRunning (globals w1) = true /\
    scans w1 = scans w /\
    scansStarted w1 = scansStarted w /\
    scanRerunRequested (globals w1) =
      match n with O => scanRerunRequested (globals w) | S _ => true end.
Proof.
  revert w. induction n as [|n IH]; intros w Hr.
  { exists w. repeat split; auto. }
  cbn [replicate runEvents]. unfold bind, fire, detached, tryCatch.
  rewrite runInactivityScan_busy by exact Hr.
  destruct (IH (with_globals (set_scanRerunRequested true) w) Hr)
    as (w1 & Hrun & Hr1 & Hs1 & Hst1 & Hre1).
  exists w1. split; [exact Hrun|]. repeat split; auto.
  destruct n; exact Hre1.
Qed.

(** Claim C5. From a state of the scheduler that satisfies [SchedInv]:
    after any sequence of triggers and resumptions at most one scan is in
    flight; a call made while a scan runs only sets the rerun flag and
    returns; and when [n] triggers arrive during a scan, the end of that
    scan starts exactly one follow-up scan if [n] is positive and none if
    it is zero. *)
Theorem scheduler_coalesces_triggers (w : World) :
  SchedInv w ->
  (forall evs w', runEvents evs w = Ok tt w' ->
     SchedInv w' /\ (length (scans w') <= 1)%nat) /\
  (scanRunning (globals w) = true ->
   exists w1,
     runInactivityScan w = Ok tt w1 /\
     scanRerunRequested (globals w1) = true /\
     scans w1 = scans w /\ scansStarted w1 = scansStarted w /\
     dataOf w1 = dataOf w) /\
  (scanRunning (globals w) = true ->
   scanRerunRequested (globals w) = false ->
   forall n, exists w1,
     runEvents (replicate n Trigger) w = Ok tt w1 /\
     scans w1 = scans w /\
     scansStarted w1 = scansStarted w /\
     forall w2,
       fire Resume w1 = Ok tt w2 ->
       scansStarted w2 =
         (scansStarted w + match n with O => 0 | S _ => 1 end)%nat /\
       (length (scans w2) <= 1)%nat /\
       scanRerunRequested (globals w2) = false).
Proof.
  intros Hinv. split; [|split].
  - intros evs w' Hrun. pose proof (runEvents_inv evs w w' Hinv Hrun) as H.
    split; [exact H|now apply SchedInv_at_most_one].
  - intros Hr. rewrite runInactivityScan_busy by exact Hr.
    eexists. split; [reflexivity|]. repeat split.
  - intros Hr Hre n.
    destruct (triggers_coalesce n w Hr) as (w1 & Hrun & Hr1 & Hs1 & Hst1 & Hre1).
    exists w1. split; [exact Hrun|]. split; [exact Hs1|]. split; [exact Hst1|].
    intros w2 Hres. destruct Hinv as [Hin _]. destruct (Hin Hr) as [fr Hs].
    unfold fire, detached, tryCatch in Hres.
    pose proof (resumeScan_spec w1 fr Hr1 ltac:(congruence)) as H.
    destruct (resumeScan w1) as [[] v|e v|]; [| |discriminate];
      injection Hres as <-; destruct H as (Hinv2 & Hre2 & Hst2);
      (split; [|split; [now apply SchedInv_at_most_one|exact Hre2]]);
      rewrite Hst2, Hre1, Hst1; destruct n; rewrite ?Hre; lia.
Qed.

Lemma inFlightWorld_inv : SchedInv inFlightWorld.
Proof.
  split.
  - intros _. eexists. vm_compute. reflexivity.
  - vm_compute. discriminate.
Qed.

(** Claim C5 for five triggers during a scan. *)
Lemma scheduler_coalesces_triggers_witness :
  scansStarted inFlightWorld = 1%nat /\
  exists w1 w2,
    runEvents (replicate 5 Trigger) inFlightWorld = Ok tt w1 /\
    scans w1 = scans inFlightWorld /\
    scansStarted w1 = 1%nat /\
    fire Resume w1 = Ok tt w2 /\
    scansStarted w2 = 2%nat /\
    (length (scans w2) <= 1)%nat /\
    scanRerunRequested (globals w2) = false.
Proof.
  split; [vm_compute; reflexivity|].
  destruct (proj2 (proj2 (scheduler_coalesces_triggers inFlightWorld inFlightWorld_inv))
              ltac:(vm_compute; reflexivity) ltac:(vm_compute; reflexivity) 5%nat)
    as (w1 & Hrun & Hscans & Hstarted & Hresume).
  assert (Hw1 : runEvents (replicate 5 Trigger) inFlightWorld
                = Ok tt (worldOf (runEvents (replicate 5 Trigger) inFlightWorld))).
  { vm_compute. reflexivity. }
  rewrite Hw1 in Hrun. injection Hrun as <-.
  set (w1 := worldOf (runEvents (replicate 5 Trigger) inFlightWorld)) in *.
  assert (Hw2 : fire Resume w1 = Ok tt (worldOf (fire Resume w1))).
  { vm_compute. reflexivity. }
  destruct (Hresume _ Hw2) as (Hs2 & Hlen & Hre).
  exists w1, (worldOf (fire Resume w1)).
  split; [exact Hw1|]. split; [exact Hscans|]. split; [exact Hstarted|].
  split; [exact Hw2|]. split; [exact Hs2|]. split; [exact Hlen|exact Hre].
Defined.

(** *** Whitelist patterns *)

(** A pattern without a backslash goes through the escaping unchanged. *)
Lemma escapeSpecials_plain (s : string) :
  (forall c, In c (list_ascii_of_string s) -> c <> "\"%char) ->
  escapeSpecials s = s.
Proof.
  induction s as [|c s IH]; intros Hplain; [reflexivity|].
  assert (Hrest : escapeSpecials s = s).
  { apply IH. intros d Hd. apply Hplain. now right. }
  cbn [escapeSpecials]. destruct s as [|d s']; [reflexivity|].
  destruct (Ascii.ascii_dec d "\"%char) as [->|Hd].
  - exfalso. apply (Hplain "\"%char); [|reflexivity]. right. now left.
  - rewrite Hrest.
    destruct d as [[] [] [] [] [] [] [] []]; try reflexivity; now destruct Hd.
Qed.

Section PlainPatterns.

Import JsRegExp.

Lemma parse_literal c rest cur stack :
  regexSpecial c = false ->
  parse (String c rest) cur stack = parse rest (pushTerm (RChar c) LAtom cur) stack.
Proof.
  intros H. destruct c as [[] [] [] [] [] [] [] []]; try discriminate H; reflexivity.
Qed.

Lemma parse_wildcard rest cur stack :
  parse (String "." (String "*" rest)) cur stack =
  parse rest (mkFrame (alts cur) (RStar RAny :: terms cur) LQuant) stack.
Proof. reflexivity. Qed.

Lemma parse_expand p : forall rest cur stack,
  plainPattern p = true ->
  parse (expand p +:+ rest) cur stack = parse rest (readTerms p cur) stack.
Proof.
  induction p as [|c p IH]; intros rest cur stack Hp; [reflexivity|].
  cbn [plainPattern] in Hp. apply andb_true_iff in Hp as [Hc Hp].
  cbn [expand readTerms]. destruct (ascii_eqb c "*") eqn:Hstar.
  - change (String "." (String "*" (expand p)) +:+ rest)
      with (String "." (String "*" (expand p +:+ rest))).
    rewrite parse_wildcard. now apply IH.
  - change (String c (expand p) +:+ rest) with (String c (expand p +:+ rest)).
    cbn in Hc. apply negb_true_iff in Hc.
    rewrite parse_literal by exact Hc. now apply IH.
Qed.

Lemma readTerms_shape p : forall cur,
  alts (readTerms p cur) = alts cur /\
  terms (readTerms p cur) = rev (termsOf p) ++ terms cur.
Proof.
  induction p as [|c p IH]; intros cur; [split; reflexivity|].
  cbn [readTerms termsOf]. destruct (IH (if ascii_eqb c "*"
        then mkFrame (alts cur) (RStar RAny :: terms cur) LQuant
        else pushTerm (RChar c) LAtom cur)) as [Ha Ht].
  rewrite Ha, Ht. cbn [rev]. rewrite <- app_assoc.
  destruct (ascii_eqb c "*"); split; reflexivity.
Qed.

Lemma seqOf_rev ts z :
  fold_left (fun acc t => RSeq t acc) (rev ts) z = chain ts z.
Proof.
  induction ts as [|t ts IH]; [reflexivity|].
  cbn [rev chain]. rewrite fold_left_app. cbn. now rewrite IH.
Qed.

Lemma append_empty (a : string) : a +:+ EmptyString = a.
Proof.
  induction a as [|x a IH]; [reflexivity|].
  change (String x a +:+ EmptyString) with (String x (a +:+ EmptyString)). now rewrite IH.
Qed.

(** What a pattern without syntax compiles to, given its expansion. *)
Lemma compile_expand p :
  plainPattern p = true ->
  compile ("^" +:+ expand p +:+ "$")
  = ReOk (RSeq RStart (chain (termsOf p) (RSeq REnd REps))).
Proof.
  intros Hp. unfold compile.
  change ("^" +:+ expand p +:+ "$") with (String "^" (expand p +:+ "$")).
  change (parse (String "^" (expand p +:+ "$")) emptyFrame [])
    with (parse (expand p +:+ "$") (pushTerm RStart LClosed emptyFrame) []).
  rewrite parse_expand by exact Hp.
  change (parse "$" ?f []) with (ReOk (closeFrame (pushTerm REnd LClosed f))).
  destruct (readTerms_shape p (pushTerm RStart LClosed emptyFrame)) as [Ha Ht].
  set (f := readTerms p _) in *.
  unfold closeFrame, seqOf.
  change (alts (pushTerm REnd LClosed f)) with (alts f).
  change (terms (pushTerm REnd LClosed f)) with (REnd :: terms f).
  rewrite Ha, Ht. cbn [alts terms emptyFrame pushTerm fold_left].
  f_equal.
  rewrite fold_left_app. cbn [fold_left]. now rewrite seqOf_rev.
Qed.

(** Splitting at the stars and joining again. *)

Lemma rev_app_append (s1 s2 t : string) :
  String.rev_app s1 s2 +:+ t = String.rev_app s1 (s2 +:+ t).
Proof.
  revert s2. induction s1 as [|c s1 IH]; intros s2; [reflexivity|].
  cbn [String.rev_app]. now rewrite IH.
Qed.

Lemma rev_cons_append c cur t :
  String.rev (String c cur) +:+ t = String.rev cur +:+ String c t.
Proof.
  unfold String.rev. cbn [String.rev_app]. now rewrite !rev_app_append.
Qed.

Lemma allChars_rev_app f s1 s2 :
  allChars f (String.rev_app s1 s2) = allChars f s1 && allChars f s2.
Proof.
  revert s2. induction s1 as [|c s1 IH]; intros s2; [reflexivity|].
  cbn [String.rev_app allChars]. rewrite IH. cbn [allChars].
  destruct (f c), (allChars f s1); reflexivity.
Qed.

Lemma allChars_rev f s : allChars f (String.rev s) = allChars f s.
Proof. unfold String.rev. rewrite allChars_rev_app. cbn. apply andb_true_r. Qed.

Lemma escapeSpecials_notBackslash s :
  allChars notBackslash s = true -> escapeSpecials s = s.
Proof.
  intros H. apply escapeSpecials_plain. induction s as [|c s IH]; [contradiction|].
  cbn in H. apply andb_true_iff in H as [Hc Hs].
  intros d [<-|Hd]; [|now apply IH].
  intros ->. discriminate Hc.
Qed.

Lemma splitChar_go_chars f sep cur p :
  allChars f cur = true -> allChars f p = true ->
  Forall (fun seg => allChars f seg = true) (splitChar_go sep cur p).
Proof.
  revert cur. induction p as [|c p IH]; intros cur Hcur Hp; cbn [splitChar_go].
  - constructor; [now rewrite allChars_rev|constructor].
  - cbn in Hp. apply andb_true_iff in Hp as [Hc Hp].
    destruct (ascii_eqb c sep).
    + constructor; [now rewrite allChars_rev|]. now apply IH.
    + apply IH; [|exact Hp]. cbn. now rewrite Hc.
Qed.

Lemma splitChar_go_nonempty sep cur p : splitChar_go sep cur p <> [].
Proof.
  revert cur. induction p as [|c p IH]; intros cur; cbn; [discriminate|].
  destruct (ascii_eqb c sep); [discriminate|apply IH].
Qed.

Lemma join_cons sep x l : l <> [] -> join sep (x :: l) = x +:+ sep +:+ join sep l.
Proof. destruct l; [congruence|reflexivity]. Qed.

Lemma join_splitChar_go cur p :
  join ".*" (splitChar_go "*" cur p) = String.rev cur +:+ expand p.
Proof.
  revert cur. induction p as [|c p IH]; intros cur; cbn [splitChar_go expand].
  - cbn. now rewrite append_empty.
  - destruct (ascii_eqb c "*").
    + rewrite join_cons by apply splitChar_go_nonempty. rewrite IH. reflexivity.
    + rewrite IH. apply rev_cons_append.
Qed.

Lemma plainPattern_notBackslash p :
  plainPattern p = true -> allChars notBackslash p = true.
Proof.
  induction p as [|c p IH]; [reflexivity|]. cbn.
  intros [Hc Hp]%andb_true_iff. rewrite (IH Hp), andb_true_r.
  destruct c as [[] [] [] [] [] [] [] []]; try reflexivity; discriminate Hc.
Qed.

(** For a plain pattern the source handed to [new RegExp] is the
    expansion between the two anchors. *)
Lemma patternSource_plain p :
  plainPattern p = true -> patternSource p = "^" +:+ expand p +:+ "$".
Proof.
  intros Hp. unfold patternSource, splitChar.
  assert (Hsegs : List.map escapeSpecials (splitChar_go "*" EmptyString p)
                  = splitChar_go "*" EmptyString p).
  { pose proof (splitChar_go_chars notBackslash "*" EmptyString p eq_refl
                  (plainPattern_notBackslash p Hp)) as Hall.
    induction Hall as [|seg segs Hseg _ IH]; [reflexivity|].
    cbn. now rewrite IH, escapeSpecials_notBackslash. }
  rewrite Hsegs, join_splitChar_go. reflexivity.
Qed.

(** Matching the compiled pattern. *)

Lemma rmatch_star_any k s : forall pos,
  singleLine s = true -> rmatch (RStar RAny) pos s k = anySuffix k pos s.
Proof.
  induction s as [|d s IH]; intros pos Hs; [reflexivity|].
  cbn [singleLine] in Hs. apply andb_true_iff in Hs as [Hd Hs].
  change (rmatch (RStar RAny) pos (String d s) k)
    with (k pos (String d s) ||
          (negb (isLineTerminator d) &&
           (Nat.ltb (String.length s) (S (String.length s)) &&
            rmatch (RStar RAny) (S pos) s k))).
  rewrite IH by exact Hs. rewrite Hd.
  replace (Nat.ltb (String.length s) (S (String.length s))) with true
    by (symmetry; apply Nat.ltb_lt; lia).
  reflexivity.
Qed.

Lemma anySuffix_glob (f : nat -> string -> bool) (g : string -> bool) url :
  (forall pos u, singleLine u = true -> f pos u = g u) ->
  forall pos, singleLine url = true ->
  anySuffix f pos url
  = (fix star (u : string) : bool :=
       g u || match u with EmptyString => false | String _ u' => star u' end) url.
Proof.
  intros Hfg. induction url as [|d url IH]; intros pos Hs.
  - cbn. now rewrite Hfg.
  - cbn [anySuffix]. rewrite Hfg by exact Hs.
    cbn [singleLine] in Hs. apply andb_true_iff in Hs as [_ Hs].
    now rewrite IH.
Qed.

Lemma rmatch_chain p : forall pos url,
  singleLine url = true ->
  rmatch (chain (termsOf p) (RSeq REnd REps)) pos url (fun _ _ => true)
  = globMatch p url.
Proof.
  induction p as [|c p IH]; intros pos url Hs.
  - destruct url; reflexivity.
  - cbn [termsOf chain globMatch]. destruct (ascii_eqb c "*") eqn:Hstar.
    + change (rmatch (RSeq (RStar RAny) ?b) pos url ?k)
        with (rmatch (RStar RAny) pos url (fun q t => rmatch b q t k)).
      rewrite rmatch_star_any by exact Hs.
      apply (anySuffix_glob _ (globMatch p)); [|exact Hs].
      intros q u Hu. now apply IH.
    + destruct url as [|d url]; [reflexivity|].
      cbn [singleLine] in Hs. apply andb_true_iff in Hs as [_ Hs].
      change (rmatch (RSeq (RChar c) ?b) pos (String d url) ?k)
        with (ascii_eqb c d && rmatch b (S pos) url k).
      now rewrite IH.
Qed.

Lemma search_anchored b : forall pos s, search (RSeq RStart b) (S pos) s = false.
Proof.
  intros pos s. revert pos. induction s as [|d s IH]; intros pos.
  - reflexivity.
  - cbn [search]. rewrite IH. reflexivity.
Qed.

Lemma test_anchored b s :
  test (RSeq RStart b) s = rmatch b 0 s (fun _ _ => true).
Proof.
  unfold test. destruct s as [|d s]; cbn [search].
  - cbn. apply orb_false_r.
  - rewrite search_anchored. cbn. apply orb_false_r.
Qed.

Lemma globMatch_star url : globMatch "*" url = true.
Proof. induction url as [|d url IH]; [reflexivity|exact IH]. Qed.

(** On patterns without regular-expression syntax and on URLs without
    line breaks, [wl.some(...)] is the full-URL wildcard matching. *)
Lemma somePattern_plain wl url :
  Forall (fun p => plainPattern p = true) wl ->
  singleLine url = true ->
  somePattern wl url = RVal (existsb (fun p => globMatch p url) wl).
Proof.
  intros Hwl Hurl. induction Hwl as [|p wl Hp _ IH]; [reflexivity|].
  cbn [somePattern existsb].
  destruct (String.eqb p "*") eqn:Hone.
  - apply String.eqb_eq in Hone. subst p. now rewrite globMatch_star.
  - rewrite patternSource_plain, compile_expand by exact Hp.
    rewrite test_anchored, rmatch_chain by exact Hurl.
    destruct (globMatch p url); [reflexivity|exact IH].
Qed.

Lemma isWhitelisted_plain s wl url :
  whitelistEntries s = Some wl ->
  Forall (fun p => plainPattern p = true) wl ->
  singleLine url = true ->
  isWhitelisted s url = RVal (existsb (fun p => globMatch p url) wl).
Proof.
  intros Hs Hwl Hurl. unfold isWhitelisted. rewrite Hs.
  destruct wl; [reflexivity|]. now apply somePattern_plain.
Qed.

(** A whitelist of two plain patterns, one of them matching. *)
Lemma isWhitelisted_plain_sample :
  isWhitelisted (withWhitelist "https://docs/*, *example/inbox") "https://mail-example/inbox"
  = RVal true.
Proof.
  rewrite (isWhitelisted_plain _ ["https://docs/*"; "*example/inbox"]);
    [reflexivity|reflexivity|repeat constructor|reflexivity].
Qed.

End PlainPatterns.

(** Claim C7, as the code behaves. The two examples of the documentation
    and the lone [*] come out as documented. But the escaping expression
    leaves the pattern as it is, so the pattern is read as a regular
    expression: a dot matches any character, a question mark makes the
    character before it optional (a pattern copied from a URL with a
    query string does not match that URL), and a bar splits the pattern
    in two, each half anchored at one end only. In each of these cases
    the code and [globMatch] disagree. (On patterns without such
    characters the two agree, see [isWhitelisted_plain].) *)
Theorem whitelist_patterns_are_regular_expressions :
  isWhitelisted (withWhitelist "*.example.com/*") "https://mail.example.com/inbox" = RVal true /\
  isWhitelisted (withWhitelist "*.example.com/*") "https://example.org" = RVal false /\
  isWhitelisted (withWhitelist "*") "anything at all" = RVal true /\
  globMatch "https://example.com/" "https://exampleXcom/" = false /\
  isWhitelisted (withWhitelist "https://example.com/") "https://exampleXcom/" = RVal true /\
  globMatch "https://example.com/search?q=*" "https://example.com/search?q=rocq" = true /\
  isWhitelisted (withWhitelist "https://example.com/search?q=*")
                "https://example.com/search?q=rocq" = RVal false /\
  globMatch "https://intranet|x" "https://intranet.evil.example/" = false /\
  isWhitelisted (withWhitelist "https://intranet|x") "https://intranet.evil.example/" = RVal true /\
  patternSource "https://example.com/" = "^https://example.com/$" /\
  escapeSpecials "https://example.com/" = "https://example.com/".
Proof. vm_compute. repeat split. Qed.

(** ** The rest of the background script, the pages and the content script *)

(** *** [unsuspendAllTabs] *)

Lemma registryIds_elem (r : Registry) id : id ∈ registryIds r <-> is_Some (r !! id).
Proof.
  unfold registryIds. rewrite merge_sort_Permutation, list_elem_of_fmap. split.
  - intros ([k v] & -> & H). apply elem_of_map_to_list in H. cbn. eauto.
  - intros [v H]. exists (id, v). split; [reflexivity|]. now apply elem_of_map_to_list.
Qed.

Lemma registryIds_NoDup (r : Registry) : NoDup (registryIds r).
Proof.
  unfold registryIds. rewrite merge_sort_Permutation. apply NoDup_fst_map_to_list.
Qed.

Lemma registryIds_length (r : Registry) : length (registryIds r) = size r.
Proof.
  unfold registryIds. rewrite merge_sort_Permutation, length_fmap.
  apply length_map_to_list.
Qed.

Lemma lookup_foldr_delete (r : Registry) ids k :
  foldr delete r ids !! k = if decide (k ∈ ids) then None else r !! k.
Proof.
  induction ids as [|id ids IH]; cbn.
  - rewrite decide_False; [reflexivity|]. intros H. inversion H.
  - destruct (decide (k = id)) as [->|Hne].
    + rewrite lookup_delete_eq, decide_True; [reflexivity|left].
    + rewrite lookup_delete_ne, IH by congruence.
      destruct (decide (k ∈ ids)) as [H|H].
      * rewrite decide_True; [reflexivity|now right].
      * rewrite decide_False; [reflexivity|].
        intros H'. apply elem_of_cons in H' as [?|?]; congruence.
Qed.

Lemma foldr_delete_all (r : Registry) : foldr delete r (registryIds r) = ∅.
Proof.
  apply map_eq. intros k. rewrite lookup_foldr_delete, lookup_empty.
  destruct (r !! k) eqn:Hk.
  - rewrite decide_True; [reflexivity|]. apply registryIds_elem. eauto.
  - destruct (decide _); reflexivity.
Qed.

(** Which tabs are open decides whether a navigation call goes through. *)
Lemma findTab_None_ids id ts : Chrome.findTab id ts = None <-> id ∉ tab_id <$> ts.
Proof.
  unfold Chrome.findTab. induction ts as [|t ts IH]; cbn.
  - split; [intros _ H; inversion H|reflexivity].
  - destruct (Z.eqb_spec (tab_id t) id) as [->|Hne].
    + split; [discriminate|]. intros H. exfalso. apply H. left.
    + rewrite IH, not_elem_of_cons. split; [intros H; split; [congruence|exact H]|tauto].
Qed.

Lemma findTab_ids_ext id ts ts' :
  tab_id <$> ts' = tab_id <$> ts ->
  match Chrome.findTab id ts' with Some _ => false | None => true end
  = match Chrome.findTab id ts with Some _ => false | None => true end.
Proof.
  intros Hids.
  destruct (Chrome.findTab id ts') eqn:H', (Chrome.findTab id ts) eqn:H; try reflexivity.
  - apply findTab_None_ids in H. rewrite <- Hids in H. apply findTab_None_ids in H. congruence.
  - apply findTab_None_ids in H'. rewrite Hids in H'. apply findTab_None_ids in H'. congruence.
Qed.

Lemma updateThrows_ext w w' id :
  rejects (host w') = rejects (host w) ->
  tab_id <$> tabs (host w') = tab_id <$> tabs (host w) ->
  updateThrows w' id = updateThrows w id.
Proof.
  intros Hr Hids. unfold updateThrows. rewrite Hr. f_equal. now apply findTab_ids_ext.
Qed.

Lemma ids_map (f : Tab -> Tab) ts :
  (forall t, tab_id (f t) = tab_id t) -> tab_id <$> List.map f ts = tab_id <$> ts.
Proof.
  intros Hf. induction ts as [|t ts IH]; [reflexivity|]. cbn. now rewrite Hf, IH.
Qed.

Lemma ids_afterUpdate id p ts : tab_id <$> afterUpdate id p ts = tab_id <$> ts.
Proof.
  unfold afterUpdate, Chrome.replaceTab.
  rewrite ids_map by (intros u; destruct (tab_id u =? id); reflexivity).
  destruct (Chrome.update_active p) as [[|]|]; try reflexivity.
  destruct (Chrome.findTab id ts); [|reflexivity].
  unfold Chrome.unfocusWindow. apply ids_map.
  intros u. destruct (tab_windowId u =? _); reflexivity.
Qed.

(** Navigating one tab leaves the address of every other tab alone. *)
Lemma findTab_afterUpdate_other id id' p ts t :
  id <> id' ->
  Chrome.findTab id ts = Some t ->
  exists t', Chrome.findTab id (afterUpdate id' p ts) = Some t' /\ tab_url t' = tab_url t.
Proof.
  intros Hne Hf. pose proof (findTab_id _ _ _ Hf) as Hid. unfold afterUpdate.
  rewrite findTab_replaceTab by reflexivity.
  assert (Hun : forall win, exists t', Chrome.findTab id (Chrome.unfocusWindow win ts) = Some t'
                      /\ tab_url t' = tab_url t /\ tab_id t' = id).
  { intros win. rewrite findTab_unfocusWindow, Hf. cbn.
    destruct (tab_windowId t =? win); eexists; repeat split; exact Hid. }
  assert (Hgoal : forall ts0 t0, Chrome.findTab id ts0 = Some t0 -> tab_url t0 = tab_url t ->
            tab_id t0 = id ->
            exists t', (fun t1 => if tab_id t1 =? id' then Chrome.applyUpdate p t1 else t1)
                         <$> Chrome.findTab id ts0 = Some t' /\ tab_url t' = tab_url t).
  { intros ts0 t0 H0 Hu Hi. rewrite H0. cbn.
    destruct (Z.eqb_spec (tab_id t0) id'); [congruence|]. eauto. }
  destruct (Chrome.update_active p) as [[|]|]; [|eapply Hgoal; eauto..].
  destruct (Chrome.findTab id' ts) as [t0|]; [|eapply Hgoal; eauto].
  destruct (Hun (tab_windowId t0)) as (t' & H1 & H2 & H3). eapply Hgoal; eauto.
Qed.

Lemma afterDelete_cache id w :
  suspendedTabsCache (globals (afterDelete id w)) = delete id (suspendedTabsCache (globals w)).
Proof. unfold afterDelete. now rewrite afterPersist_globals. Qed.

Lemma afterDelete_tabs id w : tabs (host (afterDelete id w)) = tabs (host w).
Proof. unfold afterDelete. now rewrite afterPersist_tabs. Qed.

Lemma afterDelete_rejects id w : rejects (host (afterDelete id w)) = rejects (host w).
Proof. unfold afterDelete. now rewrite afterPersist_rejects. Qed.

Lemma afterDelete_storedTabs id w :
  storedTabs (host (afterDelete id w))
  = if rejects (host w) (StorageSet SUSPENDED_TABS) then storedTabs (host w)
    else Some (delete id (suspendedTabsCache (globals w))).
Proof. unfold afterDelete, afterPersist. cbn. destruct (rejects _ _); reflexivity. Qed.

(** One turn of the loop on an id that has a record. *)
Lemma unsuspendCounting_step id rec c w :
  suspendedTabsCache (globals w) !! id = Some rec ->
  exists w',
    tryCatch (unsuspendCounting id c) (fun _ => ret c) w
      = Ok (c + (if updateThrows w id then 0 else 1)) w' /\
    suspendedTabsCache (globals w') = delete id (suspendedTabsCache (globals w)) /\
    rejects (host w') = rejects (host w) /\
    tab_id <$> tabs (host w') = tab_id <$> tabs (host w) /\
    storedTabs (host w')
      = (if rejects (host w) (StorageSet SUSPENDED_TABS) then storedTabs (host w)
         else Some (delete id (suspendedTabsCache (globals w)))) /\
    (forall id' url, id' <> id -> tabShows id' url w -> tabShows id' url w') /\
    (updateThrows w id = false -> tabShows id (rec_url rec) w').
Proof.
  intros Hrec. unfold unsuspendCounting, tryCatch, bind.
  rewrite (unsuspendTab_run id rec w Hrec). cbn.
  destruct (updateThrows w id) eqn:Hthrows; cbn.
  - eexists. split; [unfold bump; cbn; f_equal; lia|].
    cbn. rewrite afterDelete_cache, afterDelete_rejects, afterDelete_tabs, afterDelete_storedTabs.
    repeat split; try discriminate.
    intros id' url _ H. unfold tabShows in *. cbn. now rewrite afterDelete_tabs.
  - eexists. split; [unfold bump; cbn; destruct (rec_strategy rec); reflexivity|].
    cbn. rewrite afterDelete_cache, afterDelete_rejects, afterDelete_storedTabs, ids_afterUpdate.
    repeat split.
    + intros id' url Hne (t & Ht & Hu). unfold tabShows. cbn.
      destruct (findTab_afterUpdate_other id' id (restoreProperties rec) _ t Hne Ht)
        as (t' & Ht' & Hu').
      exists t'. split; [exact Ht'|congruence].
    + intros _. unfold tabShows. cbn.
      unfold updateThrows in Hthrows. apply orb_false_iff in Hthrows as [_ Hfind].
      destruct (Chrome.findTab id (tabs (host w))) as [t|] eqn:Ht; [|discriminate].
      destruct (findTab_afterUpdate id (restoreProperties rec) _ t Ht) as (t' & Ht' & Hu' & _).
      exists t'. split; [exact Ht'|]. rewrite Hu'. unfold restoreProperties.
      destruct (rec_strategy rec); reflexivity.
Qed.

Lemma unsuspendEach_spec ids :
  NoDup ids ->
  forall c w,
    (forall id, id ∈ ids -> is_Some (suspendedTabsCache (globals w) !! id)) ->
    exists w',
      forEachCounting unsuspendCounting ids c w
        = Ok (c + Z.of_nat (length (List.filter (fun id => negb (updateThrows w id)) ids))) w' /\
      suspendedTabsCache (globals w') = foldr delete (suspendedTabsCache (globals w)) (reverse ids) /\
      rejects (host w') = rejects (host w) /\
      tab_id <$> tabs (host w') = tab_id <$> tabs (host w) /\
      storedTabs (host w')
        = (match ids with
           | [] => storedTabs (host w)
           | _ :: _ =>
               if rejects (host w) (StorageSet SUSPENDED_TABS) then storedTabs (host w)
               else Some (suspendedTabsCache (globals w'))
           end) /\
      (forall id url, id ∉ ids -> tabShows id url w -> tabShows id url w') /\
      (forall id rec, id ∈ ids -> suspendedTabsCache (globals w) !! id = Some rec ->
         updateThrows w id = false -> tabShows id (rec_url rec) w').
Proof.
  induction ids as [|id ids IH]; intros Hnd c w Hall.
  { eexists. split; [cbn; unfold ret; f_equal; lia|]. repeat split; auto.
    intros id rec H. inversion H. }
  apply NoDup_cons in Hnd as [Hnotin Hnd].
  destruct (Hall id) as [rec Hrec]; [left|].
  destruct (unsuspendCounting_step id rec c w Hrec) as (w1 & Hrun & C1 & R1 & I1 & S1 & K1 & U1).
  cbn [forEachCounting]. unfold bind at 1. rewrite Hrun.
  destruct (IH Hnd (c + (if updateThrows w id then 0 else 1)) w1)
    as (w' & Hloop & C & R & I & S & K & U).
  { intros k Hk. rewrite C1, lookup_delete_ne by (intros ->; contradiction).
    apply Hall. now right. }
  exists w'. split.
  { rewrite Hloop. f_equal. cbn [List.filter].
    rewrite (List.filter_ext (fun k => negb (updateThrows w1 k)) (fun k => negb (updateThrows w k)))
      by (intros k; now rewrite (updateThrows_ext w w1)).
    destruct (updateThrows w id); cbn [negb length]; lia. }
  split. { rewrite C, C1, reverse_cons, foldr_app. reflexivity. }
  split; [congruence|]. split; [congruence|].
  split.
  { rewrite S, R1. destruct ids as [|k ids].
    - rewrite S1. cbn in C. rewrite C, C1. reflexivity.
    - destruct (rejects (host w) (StorageSet SUSPENDED_TABS)); [exact S1|reflexivity]. }
  split.
  { intros k url Hk H. apply not_elem_of_cons in Hk as [Hne Hk]. apply K; [exact Hk|].
    now apply K1. }
  intros k rec' Hk Hrec' Hok. apply elem_of_cons in Hk as [->|Hk].
  - apply K; [exact Hnotin|]. assert (rec' = rec) by congruence. subst. now apply U1.
  - apply (U k rec' Hk).
    + rewrite C1, lookup_delete_ne by (intros ->; contradiction). exact Hrec'.
    + now rewrite (updateThrows_ext w w1).
Qed.

Lemma foldr_delete_reverse (r : Registry) ids :
  foldr delete r (reverse ids) = foldr delete r ids.
Proof.
  apply map_eq. intros k. rewrite !lookup_foldr_delete.
  destruct (decide (k ∈ ids)) as [H|H].
  - rewrite decide_True; [reflexivity|now apply elem_of_reverse].
  - rewrite decide_False; [reflexivity|now rewrite elem_of_reverse].
Qed.

Lemma unsuspendAllTabs_run w :
  exists w',
    unsuspendAllTabs w = Ok (mkBulkReply true (restorable w)) w' /\
    suspendedTabsCache (globals w') = ∅ /\
    tab_id <$> tabs (host w') = tab_id <$> tabs (host w) /\
    storedTabs (host w')
      = (if decide (suspendedTabsCache (globals w) = ∅) then storedTabs (host w)
         else if rejects (host w) (StorageSet SUSPENDED_TABS) then storedTabs (host w)
         else Some ∅) /\
    (forall id rec, suspendedTabsCache (globals w) !! id = Some rec ->
       updateThrows w id = false -> tabShows id (rec_url rec) w').
Proof.
  unfold unsuspendAllTabs. unfold bind at 1. unfold getCache, inspect.
  destruct (unsuspendEach_spec (registryIds (suspendedTabsCache (globals w)))
              (registryIds_NoDup _) 0 w) as (w' & Hloop & C & R & I & S & K & U).
  { intros id. apply registryIds_elem. }
  fold unsuspendCounting. unfold bind at 1.
  change (fun id restored => do res <- unsuspendTab id; ret (bump res restored))
    with unsuspendCounting.
  rewrite Hloop. cbn. exists w'.
  rewrite foldr_delete_reverse, foldr_delete_all in C.
  split; [reflexivity|]. split; [exact C|]. split; [exact I|]. split.
  - rewrite S, C. destruct (decide (suspendedTabsCache (globals w) = ∅)) as [He|Hne].
    + rewrite He. reflexivity.
    + destruct (registryIds (suspendedTabsCache (globals w))) as [|k ks] eqn:Hids; [|reflexivity].
      exfalso. apply Hne. apply map_empty. intros k.
      destruct (suspendedTabsCache (globals w) !! k) eqn:Hk; [|reflexivity].
      assert (k ∈ registryIds (suspendedTabsCache (globals w))) as Hin
        by (apply registryIds_elem; eauto).
      rewrite Hids in Hin. inversion Hin.
  - intros id rec Hrec Hok. apply (U id rec); [|exact Hrec|exact Hok].
    apply registryIds_elem. eauto.
Qed.

Lemma restorable_bounds w :
  0 <= restorable w <= Z.of_nat (size (suspendedTabsCache (globals w))).
Proof.
  unfold restorable. rewrite <- registryIds_length.
  pose proof (List.filter_length_le (fun id => negb (updateThrows w id))
                (registryIds (suspendedTabsCache (globals w)))). lia.
Qed.

(** Property X1. Whatever the host refuses, [unsuspendAllTabs] ends with
    an empty registry and answers [{ success: true, count }], where
    [count] is the number of records whose tab could be navigated (at
    most the number of records); it opens and closes no tab, and the
    registry in storage is empty as well as soon as one record was there
    and storage takes the write. *)
Theorem unsuspendAllTabs_empties_registry (w : World) :
  exists w',
    unsuspendAllTabs w = Ok (mkBulkReply true (restorable w)) w' /\
    suspendedTabsCache (globals w') = ∅ /\
    0 <= restorable w <= Z.of_nat (size (suspendedTabsCache (globals w))) /\
    tab_id <$> tabs (host w') = tab_id <$> tabs (host w) /\
    storedTabs (host w')
      = (if decide (suspendedTabsCache (globals w) = ∅) then storedTabs (host w)
         else if rejects (host w) (StorageSet SUSPENDED_TABS) then storedTabs (host w)
         else Some ∅).
Proof.
  destruct (unsuspendAllTabs_run w) as (w' & Hrun & C & I & S & _).
  exists w'. split; [exact Hrun|]. split; [exact C|].
  split; [apply restorable_bounds|]. split; [exact I|exact S].
Qed.

(** Property X2. Every tab that has a record and that the host lets the
    script navigate shows the address of its record after
    [unsuspendAllTabs]. *)
Theorem unsuspendAllTabs_restores_each (w : World) (id : Z) (rec : TabRecord) :
  suspendedTabsCache (globals w) !! id = Some rec ->
  updateThrows w id = false ->
  exists reply w',
    unsuspendAllTabs w = Ok reply w' /\
    tabShows id (rec_url rec) w' /\
    suspendedTabsCache (globals w') !! id = None.
Proof.
  intros Hrec Hok. destruct (unsuspendAllTabs_run w) as (w' & Hrun & C & _ & _ & U).
  exists (mkBulkReply true (restorable w)), w'. split; [exact Hrun|].
  split; [now apply (U id rec)|]. now rewrite C.
Qed.

Lemma unsuspendAllTabs_restores_each_witness :
  suspendedTabsCache (globals afterReplace) !! 3 = Some pageRecord /\
  updateThrows afterReplace 3 = false /\
  exists reply w',
    unsuspendAllTabs afterReplace = Ok reply w' /\
    tabShows 3 "https://mail.example.com/inbox" w' /\
    suspendedTabsCache (globals w') !! 3 = None.
Proof.
  assert (H1 : suspendedTabsCache (globals afterReplace) !! 3 = Some pageRecord)
    by (vm_compute; reflexivity).
  assert (H2 : updateThrows afterReplace 3 = false) by (vm_compute; reflexivity).
  split; [exact H1|]. split; [exact H2|].
  exact (unsuspendAllTabs_restores_each afterReplace 3 pageRecord H1 H2).
Defined.

(** *** The address of the suspended page, written and read back *)

Section QueryRoundTrip.

Import UrlSearchParams FormDecode.

Lemma append_String c (s t : string) : String c s +:+ t = String c (s +:+ t).
Proof. reflexivity. Qed.

Lemma append_assoc' (a b c : string) : (a +:+ b) +:+ c = a +:+ (b +:+ c).
Proof.
  induction a as [|x a IH]; [reflexivity|]. rewrite !append_String. now rewrite IH.
Qed.

Lemma replacePlus_app s t : replacePlus (s +:+ t) = replacePlus s +:+ replacePlus t.
Proof.
  induction s as [|c s IH]; [reflexivity|]. rewrite append_String. cbn [replacePlus].
  now rewrite IH.
Qed.

Lemma bytesOf_app s t : bytesOf (s +:+ t) = bytesOf s ++ bytesOf t.
Proof.
  induction s as [|c s IH]; [reflexivity|]. rewrite append_String. cbn [bytesOf].
  now rewrite IH, app_assoc.
Qed.

(** What the serializer writes for one code unit is read back as the
    UTF-8 bytes of that code unit. *)
Lemma percentDecode_encodeUnit c rest :
  percentDecode (bytesOf (replacePlus (encodeUnit c)) ++ rest) = utf8 c ++ percentDecode rest.
Proof. destruct c as [[] [] [] [] [] [] [] []]; reflexivity. Qed.

Lemma utf8Decode_utf8 c rest :
  utf8Decode (utf8 c ++ rest) = String c <$> utf8Decode rest.
Proof. destruct c as [[] [] [] [] [] [] [] []]; reflexivity. Qed.

Lemma percentDecode_encode s :
  percentDecode (bytesOf (replacePlus (encode s))) = bytesOf s.
Proof.
  induction s as [|c s IH]; [reflexivity|]. cbn [encode bytesOf].
  now rewrite replacePlus_app, bytesOf_app, percentDecode_encodeUnit, IH.
Qed.

Lemma utf8Decode_bytesOf s : utf8Decode (bytesOf s) = Some s.
Proof.
  induction s as [|c s IH]; [reflexivity|]. cbn [bytesOf].
  now rewrite utf8Decode_utf8, IH.
Qed.

Lemma decodeComponent_encode s : decodeComponent (encode s) = Some s.
Proof. unfold decodeComponent. now rewrite percentDecode_encode, utf8Decode_bytesOf. Qed.

Lemma allChars_app f s t : allChars f (s +:+ t) = allChars f s && allChars f t.
Proof.
  induction s as [|c s IH]; [reflexivity|]. rewrite append_String. cbn [allChars].
  now rewrite IH, andb_assoc.
Qed.

Lemma queryChar_encodeUnit c : allChars queryChar (encodeUnit c) = true.
Proof. destruct c as [[] [] [] [] [] [] [] []]; reflexivity. Qed.

Lemma queryChar_encode s : allChars queryChar (encode s) = true.
Proof.
  induction s as [|c s IH]; [reflexivity|]. cbn [encode].
  now rewrite allChars_app, queryChar_encodeUnit, IH.
Qed.

Lemma allChars_weaken (f g : ascii -> bool) s :
  (forall c, f c = true -> g c = true) -> allChars f s = true -> allChars g s = true.
Proof.
  intros Hfg. induction s as [|c s IH]; [reflexivity|]. cbn.
  intros [Hc Hs]%andb_true_iff. rewrite (Hfg _ Hc). now apply IH.
Qed.

Lemma queryChar_cases c :
  queryChar c = true -> isNot "&" c = true /\ isNot "=" c = true /\ isNot "#" c = true.
Proof.
  unfold queryChar. intros [[H1 H2]%andb_true_iff H3]%andb_true_iff. auto.
Qed.

Lemma isNot_false sep c : isNot sep c = true -> ascii_eqb c sep = false.
Proof. unfold isNot. now rewrite negb_true_iff. Qed.

Lemma splitAtFirst_pair name value :
  allChars (isNot "=") name = true ->
  splitAtFirst "=" (name +:+ String "=" value) = (name, value).
Proof.
  induction name as [|c name IH]; intros H; [reflexivity|].
  cbn [allChars] in H. apply andb_true_iff in H as [Hc H].
  apply isNot_false in Hc.
  rewrite append_String. cbn [splitAtFirst]. now rewrite Hc, IH.
Qed.

Lemma encode_isNot sep s :
  queryChar sep = false -> allChars (isNot sep) (encode s) = true.
Proof.
  intros Hsep. apply (allChars_weaken queryChar); [|apply queryChar_encode].
  intros c Hc. unfold isNot. apply negb_true_iff.
  destruct (ascii_eqb c sep) eqn:E; [|reflexivity].
  unfold ascii_eqb in E. apply Ascii.eqb_eq in E. congruence.
Qed.

Lemma parsePair_written p : parsePair (written p) = Some p.
Proof.
  destruct p as [name value]. unfold parsePair, written. cbn [fst snd].
  rewrite splitAtFirst_pair by (now apply encode_isNot).
  now rewrite !decodeComponent_encode.
Qed.

Lemma written_isNot sep p :
  queryChar sep = false -> isNot sep "=" = true -> allChars (isNot sep) (written p) = true.
Proof.
  intros Hsep Heq. unfold written. rewrite allChars_app. cbn [allChars].
  now rewrite !encode_isNot, Heq.
Qed.

Lemma nonEmpty_written p : nonEmpty (written p) = true.
Proof. unfold written. destruct (encode (fst p)); reflexivity. Qed.

Lemma splitChar_go_last sep cur s :
  allChars (isNot sep) s = true ->
  splitChar_go sep cur s = [String.rev cur +:+ s].
Proof.
  revert cur. induction s as [|c s IH]; intros cur H; cbn [splitChar_go].
  - now rewrite append_empty.
  - cbn [allChars] in H. apply andb_true_iff in H as [Hc H].
    apply isNot_false in Hc. rewrite Hc, IH by exact H.
    now rewrite rev_cons_append.
Qed.

Lemma splitChar_go_piece sep cur s rest :
  allChars (isNot sep) s = true ->
  splitChar_go sep cur (s +:+ String sep rest)
  = (String.rev cur +:+ s) :: splitChar_go sep EmptyString rest.
Proof.
  revert cur. induction s as [|c s IH]; intros cur H.
  - change (EmptyString +:+ String sep rest) with (String sep rest).
    cbn [splitChar_go]. unfold ascii_eqb. rewrite Ascii.eqb_refl.
    now rewrite append_empty.
  - cbn [allChars] in H. apply andb_true_iff in H as [Hc H].
    apply isNot_false in Hc.
    rewrite append_String. cbn [splitChar_go]. rewrite Hc, IH by exact H.
    now rewrite rev_cons_append.
Qed.

Lemma toString_cons p ps :
  ps <> [] -> toString (p :: ps) = written p +:+ String "&" (toString ps).
Proof.
  destruct p as [k v], ps as [|q ps]; [congruence|]. intros _. cbn [toString].
  unfold written. cbn [fst snd]. now rewrite !append_assoc'.
Qed.

Lemma toString_single p : toString [p] = written p.
Proof. destruct p as [k v]. reflexivity. Qed.

(** Whatever pairs the serializer wrote, the parser reads them back. *)
Lemma parseUrlencoded_toString params : parseUrlencoded (toString params) = Some params.
Proof.
  unfold parseUrlencoded, splitChar. induction params as [|p ps IH]; [reflexivity|].
  destruct ps as [|q ps].
  - rewrite toString_single, splitChar_go_last by (now apply written_isNot).
    change (String.rev EmptyString +:+ written p) with (written p).
    cbn [parsePairs]. now rewrite nonEmpty_written, parsePair_written.
  - rewrite toString_cons by discriminate.
    rewrite splitChar_go_piece by (now apply written_isNot).
    change (String.rev EmptyString +:+ written p) with (written p).
    cbn [parsePairs]. now rewrite nonEmpty_written, parsePair_written, IH.
Qed.

Lemma toString_isNot sep params :
  queryChar sep = false -> isNot sep "=" = true -> isNot sep "&" = true ->
  allChars (isNot sep) (toString params) = true.
Proof.
  intros Hsep Heq Hamp. induction params as [|p ps IH]; [reflexivity|].
  destruct ps as [|q ps].
  - rewrite toString_single. now apply written_isNot.
  - rewrite toString_cons by discriminate. rewrite allChars_app. cbn [allChars].
    now rewrite written_isNot, Hamp, IH.
Qed.

Lemma beforeHash_none s : allChars (isNot "#") s = true -> beforeHash s = s.
Proof.
  induction s as [|c s IH]; [reflexivity|]. cbn [allChars beforeHash].
  intros [Hc H]%andb_true_iff. apply isNot_false in Hc. now rewrite Hc, IH.
Qed.

Lemma locationSearch_query page query :
  allChars pathChar page = true ->
  allChars (isNot "#") query = true ->
  nonEmpty query = true ->
  locationSearch (page +:+ String "?" query) = String "?" query.
Proof.
  intros Hpage Hq Hne. induction page as [|c page IH].
  - change (EmptyString +:+ String "?" query) with (String "?" query).
    cbn [locationSearch]. unfold ascii_eqb at 1. rewrite Ascii.eqb_refl.
    rewrite beforeHash_none by exact Hq. destruct query; [discriminate|reflexivity].
  - cbn [allChars] in Hpage. apply andb_true_iff in Hpage as [Hc Hpage].
    unfold pathChar in Hc. apply andb_true_iff in Hc as [H1 H2].
    apply negb_true_iff in H1, H2.
    rewrite append_String. cbn [locationSearch]. rewrite H1, H2. now apply IH.
Qed.

Lemma getSuspendedUrl_query extId originalUrl title :
  getSuspendedUrl extId originalUrl title
  = suspendedPage extId +:+ String "?" (toString (suspendedParams originalUrl title)).
Proof. reflexivity. Qed.

Lemma pathChar_suspendedPage extId :
  allChars pathChar extId = true -> allChars pathChar (suspendedPage extId) = true.
Proof.
  intros H. unfold suspendedPage, Chrome.runtime_getURL.
  rewrite !allChars_app, H. reflexivity.
Qed.

Lemma nonEmpty_toString p ps : nonEmpty (toString (p :: ps)) = true.
Proof.
  destruct ps as [|q ps].
  - rewrite toString_single. apply nonEmpty_written.
  - rewrite toString_cons by discriminate.
    pose proof (nonEmpty_written p). destruct (written p); [discriminate|reflexivity].
Qed.

Lemma suspended_page_params extId originalUrl title :
  allChars pathChar extId = true ->
  SuspendedPage.params (locationSearch (getSuspendedUrl extId originalUrl title))
  = Some (suspendedParams originalUrl title).
Proof.
  intros Hid. rewrite getSuspendedUrl_query.
  rewrite locationSearch_query.
  - unfold SuspendedPage.params, fromString. apply parseUrlencoded_toString.
  - now apply pathChar_suspendedPage.
  - now apply toString_isNot.
  - apply nonEmpty_toString.
Qed.

Lemma get_url_suspendedParams originalUrl title :
  get "url" (suspendedParams originalUrl title) = Some originalUrl.
Proof. reflexivity. Qed.

End QueryRoundTrip.

(** Property X3. The suspended page reads back from its own address
    exactly the address that [getSuspendedUrl] was given, and the title
    when one was given (a missing or empty title reads as [null]). The
    id of the extension holds neither a question mark nor a hash. *)
Theorem suspended_page_recovers_address (extId originalUrl : string) (title : option string) :
  allChars pathChar extId = true ->
  let search := locationSearch (getSuspendedUrl extId originalUrl title) in
  SuspendedPage.url search = Some (Some originalUrl) /\
  SuspendedPage.title search = Some (if isTruthyString title then title else None).
Proof.
  intros Hid search. unfold SuspendedPage.url, SuspendedPage.title. subst search.
  rewrite suspended_page_params by exact Hid. unfold suspendedParams.
  split; [reflexivity|].
  destruct title as [t|]; [|reflexivity]. cbn [isTruthyString].
  destruct (nonEmpty t); reflexivity.
Qed.

Lemma suspended_page_recovers_address_witness :
  allChars pathChar extId = true /\
  SuspendedPage.url (locationSearch (getSuspendedUrl extId "https://example.org/a b?q=1&r=2#top"
                                                     (Some "Caf+ 100%")))
    = Some (Some "https://example.org/a b?q=1&r=2#top") /\
  SuspendedPage.title (locationSearch (getSuspendedUrl extId "https://example.org/a b?q=1&r=2#top"
                                                       (Some "Caf+ 100%")))
    = Some (Some "Caf+ 100%").
Proof.
  split; [reflexivity|].
  exact (suspended_page_recovers_address extId "https://example.org/a b?q=1&r=2#top"
           (Some "Caf+ 100%") eq_refl).
Defined.

Local Arguments loadSettings : simpl never.
Local Arguments loadSuspendedCache : simpl never.
(** *** Loading the registry and starting up *)

Lemma validEntry_storedRecord r : validEntry (storedRecord r) = true.
Proof. reflexivity. Qed.

Lemma filter_valid (r : Registry) :
  filter (fun entry => validEntry (storedRecord entry.2) = true) r = r.
Proof. apply map_filter_id. intros i x _. apply validEntry_storedRecord. Qed.

Lemma loadSuspendedCache_run w :
  loadSuspendedCache w =
  Ok tt (with_globals (set_suspendedTabsCache (loadedRegistry w))
           (with_host (log_call (StorageGet SUSPENDED_TABS)) w)).
Proof.
  unfold loadSuspendedCache, storage_get_tabs, Chrome.hostCall, loadedRegistry.
  unfold_m. cbn. destruct (rejects _ _); cbn; [reflexivity|].
  now rewrite filter_valid.
Qed.

(** Property X4. What [persistSuspendedCache] wrote, [loadSuspendedCache]
    brings back after a restart of the service worker: the registry is
    the one before the restart, every record of it having passed the
    check of its shape. Storage takes the write and answers the read. *)
Theorem registry_survives_restart (w : World) :
  rejects (host w) (StorageSet SUSPENDED_TABS) = false ->
  rejects (host w) (StorageGet SUSPENDED_TABS) = false ->
  exists w',
    (persistSuspendedCache ;;; restartRegistry) w = Ok tt w' /\
    suspendedTabsCache (globals w') = suspendedTabsCache (globals w) /\
    storedTabs (host w') = Some (suspendedTabsCache (globals w)).
Proof.
  intros Hset Hget. unfold restartRegistry.
  unfold bind at 1. rewrite persistSuspendedCache_run.
  unfold bind at 1. rewrite setCache_run. rewrite loadSuspendedCache_run.
  eexists. split; [reflexivity|]. cbn. unfold loadedRegistry. cbn.
  rewrite afterPersist_rejects, Hget, afterPersist_storedTabs by exact Hset.
  split; reflexivity.
Qed.

Lemma registry_survives_restart_witness :
  rejects (host afterReplace) (StorageSet SUSPENDED_TABS) = false /\
  rejects (host afterReplace) (StorageGet SUSPENDED_TABS) = false /\
  exists w',
    (persistSuspendedCache ;;; restartRegistry) afterReplace = Ok tt w' /\
    suspendedTabsCache (globals w') = suspendedTabsCache (globals afterReplace) /\
    storedTabs (host w') = Some (suspendedTabsCache (globals afterReplace)).
Proof.
  split; [reflexivity|]. split; [reflexivity|].
  exact (registry_survives_restart afterReplace eq_refl eq_refl).
Defined.

Lemma thresholdMs_number h (s : Settings) n :
  s !! "autoSuspendTime" = Some (JNum n) -> thresholdMs h s = Some (n * 60 * 1000).
Proof. intros H. unfold thresholdMs, toNumber. now rewrite H. Qed.

(** The world right after a call of the scan took off. *)
Lemma runInactivityScan_takes_off_run w t :
  flagsClear w ->
  truthy (currentSettings (globals w) !! "autoSuspend") = true ->
  thresholdMs (host w) (currentSettings (globals w)) = Some t ->
  t <> 0 ->
  runInactivityScan w =
  Ok tt (set_scans (scans w ++ [mkScanFrame t (clock (host w))])
           (with_host (fun h => set_alarm None (log_call AlarmsClear h))
              (count_scan (with_globals (set_scanRunning true) w)))).
Proof.
  intros [Hrun Hre] Hauto Ht Hnz.
  unfold runInactivityScan.
  change (runInactivityScan_upto 2) with (scanCall (runInactivityScan_upto 1)).
  unfold scanCall. unfold_m. cbn. rewrite Hrun. cbn. rewrite Hauto. cbn.
  rewrite (thresholdMs_ext _ (host w)) by reflexivity.
  rewrite Ht. destruct (Z.eqb_spec t 0); [contradiction|]. reflexivity.
Qed.

(** [configureAlarm] with a positive timeout in the settings: the alarm is
    cleared, and with auto-suspend on a scan is in flight afterwards, the
    one that was already or a new one. *)
Lemma configureAlarm_spec w n :
  SchedInv w ->
  currentSettings (globals w) !! "autoSuspendTime" = Some (JNum n) -> 0 < n ->
  exists w',
    configureAlarm w = Ok tt w' /\ dataOf w' = dataOf w /\
    alarm (host w') = None /\ SchedInv w' /\
    scanRunning (globals w')
      = truthy (currentSettings (globals w) !! "autoSuspend") || scanRunning (globals w).
Proof.
  intros [Hbusy Hidle] Htime Hpos. unfold configureAlarm. unfold_m. cbn.
  destruct (truthy (currentSettings (globals w) !! "autoSuspend")) eqn:Hauto; cbn.
  2:{ eexists. split; [reflexivity|]. split; [reflexivity|]. split; [reflexivity|].
      split; [|reflexivity]. split; [exact Hbusy|exact Hidle]. }
  set (wc := with_host _ w).
  destruct (scanRunning (globals w)) eqn:Hr.
  - rewrite (runInactivityScan_busy wc) by exact Hr.
    eexists. split; [reflexivity|]. split; [reflexivity|]. split; [reflexivity|].
    split; [|exact Hr]. split; cbn; [intros _; now apply Hbusy|congruence].
  - destruct (Hidle eq_refl) as [Hs Hre].
    rewrite (runInactivityScan_takes_off_run wc (n * 60 * 1000)).
    + eexists. split; [reflexivity|]. cbn. rewrite Hs.
      split; [reflexivity|]. split; [reflexivity|]. split; [|reflexivity].
      split; cbn; [eauto|discriminate].
    + split; assumption.
    + exact Hauto.
    + now apply thresholdMs_number.
    + lia.
Qed.

Lemma SchedInv_ext w w' :
  scanRunning (globals w') = scanRunning (globals w) ->
  scanRerunRequested (globals w') = scanRerunRequested (globals w) ->
  scans w' = scans w ->
  SchedInv w -> SchedInv w'.
Proof. unfold SchedInv. intros -> -> ->. auto. Qed.

Lemma loadedSettings_time stored :
  exists n, loadedSettings stored !! "autoSuspendTime" = Some (JNum n) /\ 0 < n.
Proof.
  unfold loadedSettings. cbn zeta. destruct (invalidSuspendTime _) eqn:Hinv.
  - rewrite lookup_insert_eq. exists 30. split; [reflexivity|lia].
  - destruct (_ !! "autoSuspendTime") as [[| |n|]|]; try discriminate.
    exists n. split; [reflexivity|]. cbn in Hinv. lia.
Qed.

Lemma loadSettings_spec w :
  SchedInv w ->
  exists w',
    loadSettings w = Ok tt w' /\ SchedInv w' /\
    (exists n, currentSettings (globals w') !! "autoSuspendTime" = Some (JNum n) /\ 0 < n) /\
    rejects (host w') = rejects (host w) /\
    storedTabs (host w') = storedTabs (host w) /\
    scanRunning (globals w')
      = (negb (rejects (host w) (StorageGet SETTINGS))
         && truthy (currentSettings (globals w') !! "autoSuspend"))
        || scanRunning (globals w).
Proof.
  intros Hinv. unfold loadSettings, Chrome.storage_get_settings, Chrome.hostCall.
  unfold_m. cbn. destruct (rejects (host w) (StorageGet SETTINGS)) eqn:Hget; cbn.
  { eexists. split; [reflexivity|]. cbn.
    split; [exact Hinv|]. split; [exists 30; split; [reflexivity|lia]|]. auto. }
  destruct (loadedSettings_time (storedSettings (host w))) as (n & Hn & Hpos).
  unfold loadedSettings in Hn. cbn zeta in Hn.
  destruct (invalidSuspendTime _) eqn:Hbad; cbn;
    match goal with |- context [configureAlarm ?v] =>
      destruct (configureAlarm_spec v n) as (w' & Hrun & Hd & _ & Hinv' & Hr);
        [revert Hinv; apply SchedInv_ext; reflexivity|exact Hn|exact Hpos|]
    end;
    rewrite Hrun; exists w'; (split; [reflexivity|]); (split; [exact Hinv'|]);
    unfold dataOf in Hd; injection Hd as Hs _ _ _ _ Hst Hrej _ _ _;
    rewrite Hs; (split; [exists n; split; [exact Hn|exact Hpos]|]);
    (split; [exact Hrej|]); (split; [exact Hst|exact Hr]).
Qed.

(** Property X5. Starting up never throws. Afterwards the timeout of the
    settings is a positive number, the registry is the stored one (empty
    when storage has none or refuses the read), no alarm is armed and at
    most one scan is in flight: with auto-suspend on one is in flight,
    with auto-suspend off none was started. The scheduler was between
    two events when [init] was called. *)
Theorem init_leaves_one_scan (w : World) :
  SchedInv w ->
  exists w',
    init w = Ok tt w' /\
    SchedInv w' /\
    positiveNumber (currentSettings (globals w') !! "autoSuspendTime") /\
    suspendedTabsCache (globals w') = loadedRegistry w /\
    alarm (host w') = None /\
    scanRunning (globals w')
      = truthy (currentSettings (globals w') !! "autoSuspend") || scanRunning (globals w).
Proof.
  intros Hinv. unfold init, tryCatch.
  destruct (loadSettings_spec w Hinv) as (w1 & H1 & Hinv1 & (n & Hn & Hpos) & Hrej & Hst & Hr1).
  unfold bind at 1. rewrite H1. unfold bind at 1. rewrite loadSuspendedCache_run.
  set (w2 := with_globals _ _).
  destruct (configureAlarm_spec w2 n) as (w' & Hrun & Hd & Halarm & Hinv' & Hr).
  { revert Hinv1. apply SchedInv_ext; reflexivity. }
  { exact Hn. }
  { exact Hpos. }
  rewrite Hrun. exists w'. split; [reflexivity|]. split; [exact Hinv'|].
  unfold dataOf in Hd. injection Hd as Hs Hc _ _ _ _ _ _ _ _.
  rewrite Hs, Hc. cbn.
  split; [exists n; split; [exact Hn|exact Hpos]|].
  split; [unfold loadedRegistry; now rewrite Hrej, Hst|].
  split; [exact Halarm|].
  rewrite Hr. cbn. rewrite Hr1.
  destruct (truthy (currentSettings (globals w1) !! "autoSuspend")),
    (rejects (host w) (StorageGet SETTINGS)), (scanRunning (globals w)); reflexivity.
Qed.

Lemma init_leaves_one_scan_witness :
  SchedInv world /\
  exists w',
    init world = Ok tt w' /\
    SchedInv w' /\
    positiveNumber (currentSettings (globals w') !! "autoSuspendTime") /\
    suspendedTabsCache (globals w') = loadedRegistry world /\
    alarm (host w') = None /\
    scanRunning (globals w')
      = truthy (currentSettings (globals w') !! "autoSuspend") || scanRunning (globals world).
Proof.
  assert (H : SchedInv world) by (apply SchedInv_initial; [split|]; reflexivity).
  split; [exact H|]. exact (init_leaves_one_scan world H).
Defined.

(** *** Invariants of a computation *)

Section Upholds.

Context (I : World -> Prop).

Lemma upholds_ret {A} (Q : A -> Prop) (a : A) : Q a -> upholds I Q (ret a).
Proof. intros HQ w HI. now split. Qed.

Lemma upholds_ret_any {A} (a : A) : upholds I anyValue (ret a).
Proof. now apply upholds_ret. Qed.

Lemma upholds_throw {A} (Q : A -> Prop) e : upholds I Q (throw e).
Proof. intros w HI. exact HI. Qed.

Lemma upholds_bind {A B} (Q : A -> Prop) (Q' : B -> Prop) (m : M A) (k : A -> M B) :
  upholds I Q m -> (forall a, Q a -> upholds I Q' (k a)) -> upholds I Q' (bind m k).
Proof.
  intros Hm Hk w HI. unfold bind. specialize (Hm w HI).
  destruct (m w) as [a w1|e w1|]; [|exact Hm|exact Logic.I].
  destruct Hm as [HI1 HQ]. exact (Hk a HQ w1 HI1).
Qed.

Lemma upholds_tryCatch {A} (Q : A -> Prop) (m : M A) (h : Exn -> M A) :
  upholds I Q m -> (forall e, upholds I Q (h e)) -> upholds I Q (tryCatch m h).
Proof.
  intros Hm Hh w HI. unfold tryCatch. specialize (Hm w HI).
  destruct (m w) as [a w1|e w1|]; [exact Hm| |exact Logic.I].
  exact (Hh e w1 Hm).
Qed.

Lemma upholds_tryFinally {A} (Q : A -> Prop) (m : M A) (f : M unit) :
  upholds I Q m -> upholds I anyValue f -> upholds I Q (tryFinally m f).
Proof.
  intros Hm Hf w HI. unfold tryFinally. specialize (Hm w HI).
  destruct (m w) as [a w1|e w1|]; [| |exact Logic.I].
  - destruct Hm as [HI1 HQ]. unfold bind. specialize (Hf w1 HI1).
    destruct (f w1) as [[] w2|e w2|]; [|exact Hf|exact Logic.I].
    split; [apply Hf|exact HQ].
  - unfold bind. specialize (Hf w1 Hm).
    destruct (f w1) as [[] w2|e' w2|]; [apply Hf|exact Hf|exact Logic.I].
Qed.

Lemma upholds_weaken {A} (Q Q' : A -> Prop) (m : M A) :
  upholds I Q m -> (forall a, Q a -> Q' a) -> upholds I Q' m.
Proof.
  intros Hm HQ w HI. specialize (Hm w HI).
  destruct (m w) as [a w1|e w1|]; [|exact Hm|exact Logic.I].
  split; [apply Hm|apply HQ, Hm].
Qed.

Lemma upholds_inspect {A} (f : World -> A) : upholds I anyValue (inspect f).
Proof. intros w HI. now split. Qed.

Lemma upholds_liftR {A} (r : Result A) : upholds I (fun a => r = RVal a) (liftR r).
Proof. intros w HI. unfold liftR. destruct r; [now split|exact HI|exact Logic.I]. Qed.

Lemma upholds_modify (f : World -> World) :
  (forall w, I w -> I (f w)) -> upholds I anyValue (modify f).
Proof. intros Hf w HI. split; [now apply Hf|exact Logic.I]. Qed.

(** An invariant that does not look at the call log is kept by a host
    call, and so by the lookup of a tab. *)
Hypothesis log_blind : forall c w, I w -> I (with_host (log_call c) w).

Lemma upholds_hostCall c : upholds I anyValue (Chrome.hostCall c).
Proof.
  intros w HI. unfold Chrome.hostCall. destruct (rejects (host w) c).
  - now apply log_blind.
  - split; [now apply log_blind|exact Logic.I].
Qed.

Lemma upholds_tabs_get id : upholds I (fun tab => tab_id tab = id) (Chrome.tabs_get id).
Proof.
  intros w HI. rewrite tabs_get_run. cbn.
  destruct (rejects (host w) (TabsGet id)); [now apply log_blind|].
  destruct (Chrome.findTab id (tabs (host w))) as [t|] eqn:Hf; [|now apply log_blind].
  split; [now apply log_blind|]. now apply findTab_id in Hf.
Qed.

Lemma upholds_tabs_query p : upholds I anyValue (Chrome.tabs_query p).
Proof.
  unfold Chrome.tabs_query. eapply upholds_bind; [apply upholds_hostCall|].
  intros _ _. apply upholds_inspect.
Qed.

(** A tab operation: [I] has to survive the change of the tab list. *)
Lemma upholds_onExistingTab c id f :
  (forall w, I w -> I (with_host (set_tabs (f (tabs (host w)))) w)) ->
  upholds I anyValue (Chrome.onExistingTab c id f).
Proof.
  intros Hf w HI. unfold Chrome.onExistingTab, Chrome.hostCall, bind.
  destruct (rejects (host w) c); [now apply log_blind|].
  change (tabs (host (with_host (log_call c) w))) with (tabs (host w)).
  destruct (Chrome.findTab id (tabs (host w))); [|now apply log_blind].
  split; [|exact Logic.I].
  apply (Hf (with_host (log_call c) w)). now apply log_blind.
Qed.

Hypothesis storage_blind : forall r w, I w -> I (with_host (set_storedTabs r) w).

Lemma upholds_persist : upholds I anyValue persistSuspendedCache.
Proof.
  intros w HI. rewrite persistSuspendedCache_run. split; [|exact Logic.I].
  unfold afterPersist. destruct (rejects _ _); [now apply log_blind|].
  now apply storage_blind, log_blind.
Qed.

End Upholds.

(** *** What [suspendTab] upholds *)

Section SuspendTabUpholds.

Context (I : World -> Prop) (id0 : Z) (fresh : Z -> Prop) (placeholder : string -> Prop).

Hypothesis log_blind : forall c w, I w -> I (with_host (log_call c) w).
Hypothesis storage_blind : forall r w, I w -> I (with_host (set_storedTabs r) w).
Hypothesis url_kept : forall w, I w ->
  forall url title, placeholder (getSuspendedUrl (extensionId (host w)) url title).
Hypothesis create_kept : forall (p : Chrome.CreateProperties) w,
  placeholder (Chrome.create_url p) -> I w ->
  let ts := tabs (host w) in
  let t := mkTab (Chrome.freshTabId ts) (Some (Chrome.create_url p)) None None
                 (Chrome.create_windowId p) (Chrome.create_index p)
                 (Chrome.create_pinned p) false (Chrome.create_active p)
                 (Some (-1)) (Some (clock (host w))) in
  let ts' := if Chrome.create_active p
             then Chrome.unfocusWindow (Chrome.create_windowId p) ts else ts in
  I (with_host (set_tabs (ts' ++ [t])) w) /\ fresh (Chrome.freshTabId ts).
Hypothesis move_kept : forall i index w, fresh i -> I w ->
  I (with_host (set_tabs (Chrome.replaceTab i (Chrome.setIndex index) (tabs (host w)))) w).
Hypothesis group_kept : forall i g w, fresh i -> I w ->
  I (with_host (set_tabs (Chrome.replaceTab i (Chrome.setGroupId g) (tabs (host w)))) w).
Hypothesis remove_kept : forall w, I w ->
  I (with_host (set_tabs (Chrome.withoutTab id0 (tabs (host w)))) w).
Hypothesis update_kept : forall p w, placeholder (Chrome.update_url p) -> I w ->
  I (with_host (set_tabs (afterUpdate id0 p (tabs (host w)))) w).
Hypothesis insert_kept : forall i r w, fresh i \/ i = id0 -> I w ->
  I (with_globals (fun g => set_suspendedTabsCache (<[i := r]> (suspendedTabsCache g)) g) w).

Lemma upholds_getExtensionId :
  upholds I (fun extId => forall url title, placeholder (getSuspendedUrl extId url title))
          getExtensionId.
Proof. intros w HI. split; [exact HI|now apply url_kept]. Qed.

Lemma upholds_tabs_create p :
  placeholder (Chrome.create_url p) ->
  upholds I (fun t => fresh (tab_id t)) (Chrome.tabs_create p).
Proof.
  intros Hurl w HI. unfold Chrome.tabs_create, Chrome.hostCall, bind.
  destruct (rejects (host w) TabsCreate); [now apply log_blind|].
  destruct (create_kept p (with_host (log_call TabsCreate) w) Hurl) as [H1 H2];
    [now apply log_blind|].
  split; [exact H1|exact H2].
Qed.

Lemma upholds_swallow (m : M unit) :
  upholds I anyValue m -> upholds I anyValue (swallow m).
Proof.
  intros Hm. apply upholds_tryCatch; [exact Hm|]. intros e. apply upholds_ret_any.
Qed.

Lemma upholds_replaceStrategy tab reason now :
  tab_id tab = id0 -> upholds I anyValue (replaceStrategy tab reason now).
Proof.
  intros Hid. unfold replaceStrategy.
  eapply upholds_bind; [apply upholds_getExtensionId|]. intros extId Hurl.
  eapply upholds_bind; [apply upholds_tabs_create, Hurl|]. intros newTab Hnew.
  eapply upholds_bind.
  { apply upholds_swallow. destruct (negb _); [|apply upholds_ret_any].
    apply upholds_onExistingTab; [exact log_blind|]. intros w. now apply move_kept. }
  intros _ _. eapply upholds_bind.
  { destruct (tab_groupId tab) as [g|]; [|apply upholds_ret_any].
    destruct (0 <=? g); [|apply upholds_ret_any].
    apply upholds_swallow, upholds_onExistingTab; [exact log_blind|].
    intros w. now apply group_kept. }
  intros _ _. eapply upholds_bind.
  { apply upholds_modify. intros w. apply insert_kept. now left. }
  intros _ _. eapply upholds_bind; [now apply upholds_persist|].
  intros _ _. eapply upholds_bind.
  { apply upholds_swallow, upholds_onExistingTab; [exact log_blind|].
    rewrite Hid. exact remove_kept. }
  intros _ _. apply upholds_ret_any.
Qed.

Lemma upholds_navigateStrategy tab reason now :
  upholds I anyValue (navigateStrategy id0 tab reason now).
Proof.
  unfold navigateStrategy.
  eapply upholds_bind.
  { apply upholds_modify. intros w. apply insert_kept. now right. }
  intros _ _. eapply upholds_bind; [now apply upholds_persist|].
  intros _ _. eapply upholds_bind; [apply upholds_getExtensionId|]. intros extId Hurl.
  eapply upholds_bind.
  { apply upholds_onExistingTab; [exact log_blind|]. intros w. apply update_kept, Hurl. }
  intros _ _. apply upholds_ret_any.
Qed.

(** [suspendTab] never throws; it upholds what its host calls and its
    writes to the registry uphold. *)
Lemma upholds_suspendTab reason : upholds I anyValue (suspendTab id0 reason).
Proof.
  unfold suspendTab. apply upholds_tryCatch; [|intros e; apply upholds_ret_any].
  eapply upholds_bind; [now apply upholds_tabs_get|]. intros tab Hid.
  eapply upholds_bind; [apply upholds_inspect|]. intros s _.
  eapply upholds_bind; [apply upholds_inspect|]. intros extId _.
  eapply upholds_bind; [apply upholds_liftR|]. intros eligible _.
  destruct (negb eligible); [apply upholds_ret_any|].
  destruct (isExtensionSuspendedPage _ _); [apply upholds_ret_any|].
  eapply upholds_bind; [apply upholds_inspect|]. intros cache _.
  destruct (cache !! id0); [apply upholds_ret_any|].
  eapply upholds_bind; [apply upholds_inspect|]. intros now _.
  eapply upholds_bind.
  { apply (upholds_tryCatch I anyValue); [|intros e; apply upholds_ret_any].
    eapply upholds_bind; [now apply upholds_replaceStrategy|].
    intros resp _. apply upholds_ret_any. }
  intros [resp|] _; [apply upholds_ret_any|apply upholds_navigateStrategy].
Qed.

End SuspendTabUpholds.

(** *** The alarm *)

Lemma alarm_suspendTab a0 id reason : upholds (alarmIs a0) anyValue (suspendTab id reason).
Proof.
  apply (upholds_suspendTab (alarmIs a0) id (fun _ => True) (fun _ => True));
    intros; auto; now split.
Qed.

(** *** A tab that a suspension is not about *)

Lemma setActive_idem b t : Chrome.setActive false (Chrome.setActive b t) = Chrome.setActive false t.
Proof. reflexivity. Qed.

Lemma findTab_app id ts ts' :
  Chrome.findTab id (ts ++ ts') =
  match Chrome.findTab id ts with
  | Some t => Some t
  | None => Chrome.findTab id ts'
  end.
Proof.
  unfold Chrome.findTab. induction ts as [|t ts IH]; [reflexivity|]. cbn.
  destruct (tab_id t =? id); [reflexivity|exact IH].
Qed.

Lemma tabKept_map t0 (f : Tab -> Tab) w :
  (forall t, tab_id (f t) = tab_id t) ->
  (forall t, tab_id t = tab_id t0 -> Chrome.setActive false (f t) = Chrome.setActive false t) ->
  tabKept t0 w -> tabKept t0 (with_host (set_tabs (List.map f (tabs (host w)))) w).
Proof.
  intros Hid Hf (t & Ht & Hsame). exists (f t). cbn.
  rewrite findTab_map, Ht by exact Hid. split; [reflexivity|].
  rewrite Hf; [exact Hsame|]. now apply findTab_id in Ht.
Qed.

Lemma tabKept_unfocusWindow t0 win w :
  tabKept t0 w -> tabKept t0 (with_host (set_tabs (Chrome.unfocusWindow win (tabs (host w)))) w).
Proof.
  apply tabKept_map; intros t; destruct (tab_windowId t =? win); reflexivity.
Qed.

Lemma tabKept_replaceTab t0 i f w :
  (forall t, tab_id (f t) = tab_id t) -> i <> tab_id t0 ->
  tabKept t0 w -> tabKept t0 (with_host (set_tabs (Chrome.replaceTab i f (tabs (host w)))) w).
Proof.
  intros Hid Hne. apply tabKept_map.
  - intros t. destruct (tab_id t =? i); [apply Hid|reflexivity].
  - intros t Ht. destruct (Z.eqb_spec (tab_id t) i); [congruence|reflexivity].
Qed.

Lemma tabKept_tabs t0 w w' :
  tabs (host w') = tabs (host w) -> tabKept t0 w -> tabKept t0 w'.
Proof. unfold tabKept. now intros ->. Qed.

Lemma tabKept_afterUpdate t0 id p w :
  id <> tab_id t0 ->
  tabKept t0 w -> tabKept t0 (with_host (set_tabs (afterUpdate id p (tabs (host w)))) w).
Proof.
  intros Hne H. unfold afterUpdate.
  assert (Hrep : forall v, tabs (host v) = tabs (host w) \/
                           (exists win, tabs (host v) = Chrome.unfocusWindow win (tabs (host w))) ->
                 tabKept t0 v).
  { intros v [Hv|[win Hv]].
    - now apply (tabKept_tabs t0 w).
    - apply (tabKept_tabs t0 (with_host (set_tabs (Chrome.unfocusWindow win (tabs (host w)))) w));
        [exact Hv|]. now apply tabKept_unfocusWindow. }
  set (ts' := match Chrome.update_active p, Chrome.findTab id (tabs (host w)) with
              | Some true, Some t => Chrome.unfocusWindow (tab_windowId t) (tabs (host w))
              | _, _ => tabs (host w)
              end).
  assert (H' : tabKept t0 (with_host (set_tabs ts') w)).
  { apply Hrep. subst ts'. cbn.
    destruct (Chrome.update_active p) as [[|]|]; [|now left..].
    destruct (Chrome.findTab id (tabs (host w))); [right; eauto|now left]. }
  apply (tabKept_replaceTab t0 id (Chrome.applyUpdate p)) in H'; [exact H'|reflexivity|exact Hne].
Qed.

Lemma tabKept_present t0 w : tabKept t0 w -> tab_id t0 <> Chrome.freshTabId (tabs (host w)).
Proof.
  intros (t & Ht & _) Heq. rewrite Heq in Ht. now rewrite findTab_fresh in Ht.
Qed.

(** A suspension of the tab [id] leaves every other open tab alone. *)
Lemma leftAlone_suspendTab t0 r0 id reason :
  id <> tab_id t0 -> upholds (leftAlone t0 r0) anyValue (suspendTab id reason).
Proof.
  intros Hne.
  apply (upholds_suspendTab (leftAlone t0 r0) id (fun i => i <> tab_id t0) (fun _ => True)).
  - intros c w H. exact H.
  - intros r w H. exact H.
  - intros w H url title. exact Logic.I.
  - intros p w _ [Hk Hr]. cbn zeta. split; [|intros Heq; now apply (tabKept_present t0 w)].
    split; [|exact Hr].
    assert (Hk' : tabKept t0 (with_host (set_tabs
                (if Chrome.create_active p
                 then Chrome.unfocusWindow (Chrome.create_windowId p) (tabs (host w))
                 else tabs (host w))) w)).
    { destruct (Chrome.create_active p); [now apply tabKept_unfocusWindow|].
      now apply (tabKept_tabs t0 w). }
    destruct Hk' as (t & Ht & Hsame). exists t. cbn in *. now rewrite findTab_app, Ht.
  - intros i index w Hi [Hk Hr]. split; [|exact Hr]. now apply tabKept_replaceTab.
  - intros i g w Hi [Hk Hr]. split; [|exact Hr]. now apply tabKept_replaceTab.
  - intros w [(t & Ht & Hsame) Hr]. split; [|exact Hr]. exists t. cbn.
    rewrite findTab_withoutTab by congruence. now split.
  - intros p w _ [Hk Hr]. split; [|exact Hr]. now apply tabKept_afterUpdate.
  - intros i r w Hi [Hk Hr]. split; [exact Hk|]. cbn.
    rewrite lookup_insert_ne; [exact Hr|]. destruct Hi; congruence.
Qed.

(** *** The counting loop *)

Lemma upholds_forEachCounting {A} (I : World -> Prop) (body : A -> Z -> M Z) (xs : list A) :
  (forall x c, In x xs -> upholds I anyValue (body x c)) ->
  forall c, upholds I anyValue (forEachCounting body xs c).
Proof.
  induction xs as [|x xs IH]; intros Hbody c; [apply upholds_ret_any|].
  cbn [forEachCounting]. eapply upholds_bind.
  - apply upholds_tryCatch; [apply Hbody; now left|]. intros e. apply upholds_ret_any.
  - intros c' _. apply IH. intros y d Hy. apply Hbody. now right.
Qed.

(** *** [suspendOtherTabs] *)

Lemma findTab_NoDup ts a :
  NoDup (tab_id <$> ts) -> In a ts -> Chrome.findTab (tab_id a) ts = Some a.
Proof.
  unfold Chrome.findTab. induction ts as [|t ts IH]; intros Hnd Hin; [contradiction|].
  cbn in Hnd. apply NoDup_cons in Hnd as [Hnotin Hnd]. cbn.
  destruct Hin as [->|Hin]; [now rewrite Z.eqb_refl|].
  destruct (Z.eqb_spec (tab_id t) (tab_id a)) as [Heq|Hne]; [|now apply IH].
  exfalso. apply Hnotin. rewrite Heq. apply list_elem_of_fmap. exists a.
  split; [reflexivity|]. now apply list_elem_of_In.
Qed.

Lemma head_In {A} (l : list A) a : head l = Some a -> In a l.
Proof. destruct l; [discriminate|]. intros [= ->]. now left. Qed.

Lemma suspendOtherTabs_queries w :
  rejects (host w) TabsQuery = false ->
  suspendOtherTabs w =
  (do count <- forEachCounting
       (fun tab count =>
          match head (activeTabs w) with
          | None => throw TypeError
          | Some a =>
              if tab_id tab =? tab_id a then ret count
              else do res <- suspendTab (tab_id tab) Manual ; ret (bump res count)
          end)
       (List.filter (fun t => tab_windowId t =? currentWindow (host w)) (tabs (host w))) 0 ;
   ret (mkBulkReply true count)) (afterTwoQueries w).
Proof.
  intros Hq. unfold suspendOtherTabs, queryActive, queryCurrentWindow,
    Chrome.tabs_query, Chrome.hostCall.
  unfold bind at 1. unfold bind at 1. unfold bind at 1. unfold inspect at 1.
  cbn. rewrite Hq. cbn.
  unfold bind at 1. unfold bind at 1. unfold bind at 1. unfold inspect at 1. cbn.
  rewrite Hq. reflexivity.
Qed.

(** Property X6. [suspendOtherTabs] leaves the active tab of the current
    window alone: the tab stays open as it was, and the registry holds
    for its id what it held. Tab ids are distinct. *)
Theorem suspendOtherTabs_spares_active_tab (w w' : World) (a : Tab) (reply : BulkReply) :
  NoDup (tab_id <$> tabs (host w)) ->
  head (activeTabs w) = Some a ->
  suspendOtherTabs w = Ok reply w' ->
  tabKept a w' /\
  suspendedTabsCache (globals w') !! tab_id a = suspendedTabsCache (globals w) !! tab_id a.
Proof.
  intros Hnd Ha Hrun.
  destruct (rejects (host w) TabsQuery) eqn:Hq.
  { unfold suspendOtherTabs, queryActive, Chrome.tabs_query, Chrome.hostCall in Hrun.
    unfold bind at 1 in Hrun. unfold bind at 1 in Hrun. unfold bind at 1 in Hrun.
    unfold inspect at 1 in Hrun. cbn in Hrun. rewrite Hq in Hrun. discriminate. }
  rewrite suspendOtherTabs_queries in Hrun by exact Hq. rewrite Ha in Hrun.
  set (I0 := leftAlone a (suspendedTabsCache (globals w) !! tab_id a)).
  assert (H0 : I0 (afterTwoQueries w)).
  { split; [|reflexivity]. exists a. split; [|reflexivity]. cbn.
    apply findTab_NoDup; [exact Hnd|].
    apply head_In in Ha. unfold activeTabs in Ha. now apply filter_In in Ha. }
  match type of Hrun with bind ?m ?k _ = _ =>
    assert (Hup : upholds I0 anyValue (bind m k)) end.
  { eapply upholds_bind; [|intros c _; apply upholds_ret_any].
    apply upholds_forEachCounting. intros tab c _.
    destruct (Z.eqb_spec (tab_id tab) (tab_id a)); [apply upholds_ret_any|].
    eapply upholds_bind; [now apply leftAlone_suspendTab|].
    intros res _. apply upholds_ret_any. }
  specialize (Hup _ H0). rewrite Hrun in Hup. apply Hup.
Qed.

(** Property X7. When the current window has no active tab,
    [suspendOtherTabs] suspends nothing: reading [active.id] throws in
    every turn of its loop, which swallows it; the answer is
    [{ success: true, count: 0 }] and only the two queries are made. *)
Theorem suspendOtherTabs_without_active_tab (w : World) :
  rejects (host w) TabsQuery = false ->
  activeTabs w = [] ->
  suspendOtherTabs w = Ok (mkBulkReply true 0) (afterTwoQueries w).
Proof.
  intros Hq Hnone. rewrite suspendOtherTabs_queries by exact Hq. rewrite Hnone. cbn [head].
  generalize (afterTwoQueries w). intros v.
  induction (List.filter _ (tabs (host w))) as [|t ts IH]; [reflexivity|].
  cbn [forEachCounting]. unfold bind in *. cbn. exact IH.
Qed.

(** *** The scan and the tabs that are not due *)

Lemma awaitsTurn_suspendTab t0 r0 a0 id reason :
  id <> tab_id t0 -> upholds (awaitsTurn t0 r0 a0) anyValue (suspendTab id reason).
Proof.
  intros Hne w [HL HA].
  pose proof (leftAlone_suspendTab t0 r0 id reason Hne w HL) as H1.
  pose proof (suspendTab_frame id reason w) as H2.
  destruct (suspendTab id reason w) as [r w'|e w'|]; [|contradiction|exact I].
  destruct H1 as [H1 _]. split; [|exact I]. split; [exact H1|].
  destruct H2 as (_ & _ & _ & _ & _ & -> & _). exact HA.
Qed.

Lemma leftAlone_globals t0 r0 w f :
  (forall g, suspendedTabsCache (f g) = suspendedTabsCache g) ->
  leftAlone t0 r0 w -> leftAlone t0 r0 (with_globals f w).
Proof. intros Hf [Hk Hr]. split; [exact Hk|]. cbn. now rewrite Hf. Qed.

(** A turn of the loop upholds what the suspension of its tab and the
    seeding of its activity entry uphold. *)
Section ScanTabUpholds.

Context (I : World -> Prop) (tab : Tab).

Hypothesis seed_kept : forall v w, I w ->
  I (with_globals (fun g => set_lastActivityMap (<[tab_id tab := v]> (lastActivityMap g)) g) w).
Hypothesis suspend_kept : upholds I anyValue (suspendTab (tab_id tab) Auto).

Lemma upholds_scanTab fr d : upholds I anyValue (scanTab fr d tab).
Proof.
  unfold scanTab.
  destruct (tab_id tab =? 0); [apply upholds_ret_any|].
  eapply upholds_bind; [apply upholds_inspect|]. intros extId _.
  destruct (isExtensionSuspendedPage _ _); [apply upholds_ret_any|].
  eapply upholds_bind; [apply upholds_inspect|]. intros seen _.
  eapply upholds_bind.
  { destruct (_ && _); [|apply upholds_ret_any].
    apply upholds_modify. intros w. apply seed_kept. }
  intros _ _. eapply upholds_bind; [apply upholds_inspect|]. intros activity _.
  destruct (negb _); [apply upholds_ret_any|].
  destruct (_ <=? _); [|apply upholds_ret_any].
  eapply upholds_bind; [apply upholds_inspect|]. intros s _.
  eapply upholds_bind; [apply upholds_liftR|]. intros eligible _.
  destruct eligible; [|apply upholds_ret_any].
  eapply upholds_bind; [|intros _ _; apply upholds_ret_any].
  apply upholds_tryCatch; [|intros e; apply upholds_ret_any].
  eapply upholds_bind; [exact suspend_kept|].
  intros r _. apply upholds_ret_any.
Qed.

End ScanTabUpholds.

Lemma upholds_scanTabs (I : World -> Prop) fr ts :
  (forall t d, In t ts -> upholds I anyValue (scanTab fr d t)) ->
  forall d, upholds I anyValue (scanTabs fr d ts).
Proof.
  induction ts as [|t ts IH]; intros Hstep d; [apply upholds_ret_any|].
  change (scanTabs fr d (t :: ts)) with (do d1 <- scanTab fr d t ; scanTabs fr d1 ts).
  eapply upholds_bind.
  - apply Hstep. now left.
  - intros d1 _. apply IH. intros u d2 Hu. apply Hstep. now right.
Qed.

(** A turn of the loop on another tab. *)
Lemma awaitsTurn_scanTab t0 r0 a0 fr d tab :
  tab_id tab <> tab_id t0 -> upholds (awaitsTurn t0 r0 a0) anyValue (scanTab fr d tab).
Proof.
  intros Hne. apply upholds_scanTab.
  - intros v w [HL HA]. split.
    + now apply leftAlone_globals.
    + cbn. now rewrite lookup_insert_ne.
  - now apply awaitsTurn_suspendTab.
Qed.

Lemma leftAlone_scanTab t0 r0 fr d tab :
  tab_id tab <> tab_id t0 -> upholds (leftAlone t0 r0) anyValue (scanTab fr d tab).
Proof.
  intros Hne w HL.
  pose proof (awaitsTurn_scanTab t0 r0 (lastActivityMap (globals w) !! tab_id t0) fr d tab
                Hne w (conj HL eq_refl)) as H.
  destruct (scanTab fr d tab w) as [d' w'|e w'|]; [|apply H|exact I].
  split; [apply H|exact I].
Qed.

(** The turn of the loop on a tab that is not due: the tab is only
    looked at. *)
Lemma scanTab_notDue fr d t0 w :
  notDue fr (lastActivityMap (globals w)) t0 ->
  exists d' w',
    scanTab fr d t0 w = Ok d' w' /\
    tabs (host w') = tabs (host w) /\
    suspendedTabsCache (globals w') = suspendedTabsCache (globals w).
Proof.
  intros (last & Hlast & Hnz & Hlt). unfold scanTab.
  destruct (tab_id t0 =? 0). { do 2 eexists. split; [reflexivity|]. now split. }
  step_refl.
  destruct (isExtensionSuspendedPage _ _). { do 2 eexists. split; [reflexivity|]. now split. }
  step_refl.
  set (ws := with_globals
               (fun g => set_lastActivityMap (seed (lastActivityMap g) t0) g) w).
  assert (Hseed :
    (if negb (truthyNumber (lastActivityMap (globals w) !! tab_id t0))
        && truthyNumber (tab_lastAccessed t0)
     then setActivity (insert (tab_id t0) (default 0 (tab_lastAccessed t0)))
     else ret tt) w = Ok tt ws).
  { subst ws. unfold seed, setActivity, modify, with_globals, ret.
    destruct w as [h [s c a r rr] sc st]. cbn.
    destruct (_ && _); reflexivity. }
  step_by Hseed. step_refl.
  change (lastActivityMap (globals ws)) with (seed (lastActivityMap (globals w)) t0).
  rewrite lastSeen_seed, Hlast. cbn.
  destruct (Z.eqb_spec last 0); [contradiction|]. cbn.
  destruct (Z.leb_spec (frame_thresholdMs fr) (frame_now fr - last)); [lia|].
  do 2 eexists. split; [reflexivity|]. now split.
Qed.

Lemma leftAlone_ext t0 r0 w w' :
  tabs (host w') = tabs (host w) ->
  suspendedTabsCache (globals w') = suspendedTabsCache (globals w) ->
  leftAlone t0 r0 w -> leftAlone t0 r0 w'.
Proof. intros Ht Hc [Hk Hr]. split; [now apply (tabKept_tabs t0 w)|now rewrite Hc]. Qed.

Lemma scanTabs_after t0 r0 fr ts :
  (forall t, In t ts -> tab_id t <> tab_id t0) ->
  forall d, upholds (leftAlone t0 r0) anyValue (scanTabs fr d ts).
Proof.
  intros Hne. apply upholds_scanTabs. intros t d Ht. apply leftAlone_scanTab. now apply Hne.
Qed.

Lemma scanTabs_spares t0 r0 fr ts :
  NoDup (tab_id <$> ts) -> In t0 ts ->
  forall d w,
    leftAlone t0 r0 w ->
    notDue fr (lastActivityMap (globals w)) t0 ->
    match scanTabs fr d ts w with
    | Ok _ w' | Throw _ w' => leftAlone t0 r0 w'
    | Unmodelled => True
    end.
Proof.
  induction ts as [|t ts IH]; intros Hnd Hin d w HL Hdue; [contradiction|].
  cbn in Hnd. apply NoDup_cons in Hnd as [Hnotin Hnd].
  change (scanTabs fr d (t :: ts)) with (do d1 <- scanTab fr d t ; scanTabs fr d1 ts).
  unfold bind. destruct Hin as [->|Hin].
  - destruct (scanTab_notDue fr d t0 w Hdue) as (d' & w1 & -> & Ht & Hc).
    assert (H1 : leftAlone t0 r0 w1) by (now apply (leftAlone_ext t0 r0 w)).
    assert (Hup : upholds (leftAlone t0 r0) anyValue (scanTabs fr d' ts)).
    { apply scanTabs_after. intros u Hu Heq. apply Hnotin. rewrite <- Heq.
      apply list_elem_of_fmap. exists u. split; [reflexivity|now apply list_elem_of_In]. }
    specialize (Hup w1 H1). destruct (scanTabs fr d' ts w1); [apply Hup|exact Hup|exact I].
  - assert (Hne : tab_id t <> tab_id t0).
    { intros Heq. apply Hnotin. rewrite Heq. apply list_elem_of_fmap. exists t0.
      split; [reflexivity|now apply list_elem_of_In]. }
    pose proof (awaitsTurn_scanTab t0 r0 (lastActivityMap (globals w) !! tab_id t0) fr d t
                  Hne w (conj HL eq_refl)) as H.
    destruct (scanTab fr d t w) as [d1 w1|e w1|]; [|apply H|exact I].
    destruct H as [[HL1 HA1] _]. apply IH; [exact Hnd|exact Hin|exact HL1|].
    destruct Hdue as (last & Hlast & Hrest). exists last. split; [|exact Hrest].
    unfold lastSeen in *. now rewrite HA1.
Qed.

Lemma scanBody_spares t0 r0 fr w :
  NoDup (tab_id <$> tabs (host w)) ->
  In t0 (tabs (host w)) ->
  leftAlone t0 r0 w ->
  notDue fr (lastActivityMap (globals w)) t0 ->
  match scanBody fr w with
  | Ok _ w' | Throw _ w' => leftAlone t0 r0 w'
  | Unmodelled => True
  end.
Proof.
  intros Hnd Hin H0 Hdue.
  unfold scanBody, Chrome.tabs_query, Chrome.hostCall.
  unfold bind at 1. unfold bind at 1.
  destruct (rejects (host w) TabsQuery). { exact H0. }
  unfold inspect. rewrite filter_all.
  set (w0 := with_host (log_call TabsQuery) w).
  change (tabs (host w0)) with (tabs (host w)).
  unfold bind at 1.
  pose proof (scanTabs_spares t0 r0 fr (tabs (host w)) Hnd Hin None w0 H0 Hdue) as Hloop.
  destruct (scanTabs fr None (tabs (host w)) w0) as [d w1|e w1|]; [|exact Hloop|exact I].
  unfold_m. cbn. exact Hloop.
Qed.

Lemma leftAlone_initial t0 w :
  NoDup (tab_id <$> tabs (host w)) -> In t0 (tabs (host w)) ->
  leftAlone t0 (suspendedTabsCache (globals w) !! tab_id t0) w.
Proof.
  intros Hnd Hin. split; [|reflexivity]. exists t0. split; [|reflexivity].
  now apply findTab_NoDup.
Qed.

(** Property X8. A tab that was used less than a threshold ago is never
    suspended by the scan: however the scan ends, the tab is open as it
    was and the registry holds for its id what it held. Tab ids are
    distinct. *)
Theorem scan_spares_tabs_not_due (w : World) (fr : ScanFrame) (t0 : Tab) :
  NoDup (tab_id <$> tabs (host w)) ->
  In t0 (tabs (host w)) ->
  notDue fr (lastActivityMap (globals w)) t0 ->
  match scanBody fr w with
  | Ok _ w' | Throw _ w' =>
      tabKept t0 w' /\
      suspendedTabsCache (globals w') !! tab_id t0
        = suspendedTabsCache (globals w) !! tab_id t0
  | Unmodelled => True
  end.
Proof.
  intros Hnd Hin Hdue.
  exact (scanBody_spares t0 _ fr w Hnd Hin (leftAlone_initial t0 w Hnd Hin) Hdue).
Qed.

(** *** A scan that throws *)

Lemma alarm_scanTabs a0 fr ts d : upholds (alarmIs a0) anyValue (scanTabs fr d ts).
Proof.
  apply upholds_scanTabs. intros t d' _. apply upholds_scanTab.
  - intros v w H. exact H.
  - apply alarm_suspendTab.
Qed.

(** The alarm is armed by the last statement of the body: a body that
    throws has not touched it. *)
Lemma scanBody_throws_alarm fr w :
  match scanBody fr w with
  | Throw _ w' => alarm (host w') = alarm (host w)
  | _ => True
  end.
Proof.
  unfold scanBody, Chrome.tabs_query, Chrome.hostCall.
  unfold bind at 1. unfold bind at 1.
  destruct (rejects (host w) TabsQuery). { reflexivity. }
  unfold inspect. set (w0 := with_host (log_call TabsQuery) w).
  unfold bind at 1.
  pose proof (alarm_scanTabs (alarm (host w)) fr
                (List.filter (fun _ => true) (tabs (host w0))) None w0 eq_refl) as Hloop.
  destruct (scanTabs fr None _ w0) as [d w1|e w1|]; [|exact Hloop|exact I].
  unfold_m. cbn. exact I.
Qed.

(** Property X9. When the body of a scan throws (the tab query is
    refused, or the policy throws on a tab that is due) and no rerun was
    requested, the scan ends without arming the alarm: nothing is in
    flight, the guard is released and no alarm is set, so that no scan
    follows until a tab is activated or the settings change. The alarm
    was cleared when the scan took off. *)
Theorem scan_that_throws_arms_no_alarm (w w' : World) (fr : ScanFrame) (e : Exn) :
  scans w = [fr] ->
  scanRerunRequested (globals w) = false ->
  alarm (host w) = None ->
  resumeScan w = Throw e w' ->
  alarm (host w') = None /\
  scans w' = [] /\
  scanRunning (globals w') = false /\
  scanRerunRequested (globals w') = false.
Proof.
  intros Hs Hre Halarm Hrun. unfold resumeScan in Hrun.
  unfold bind at 1 in Hrun. unfold inspect at 1 in Hrun. rewrite Hs in Hrun.
  unfold bind at 1 in Hrun. cbn in Hrun. unfold tryFinally in Hrun.
  set (v := set_scans [] w) in *.
  pose proof (scanBody_keeps fr v) as Hkeep.
  pose proof (scanBody_throws_alarm fr v) as Hal.
  destruct (scanBody fr v) as [[] v'|e' v'|]; [| |discriminate].
  - unfold schedulerOf in Hkeep. injection Hkeep as _ Hre' _ _. cbn in Hre'.
    rewrite (bind_ok _ _ _ tt (with_globals (set_scanRunning false) v')) in Hrun
      by (apply scanFinally_idle; congruence).
    discriminate.
  - unfold schedulerOf in Hkeep. injection Hkeep as _ Hre' Hs' _. cbn in Hre', Hs'.
    rewrite (bind_ok _ _ _ tt (with_globals (set_scanRunning false) v')) in Hrun
      by (apply scanFinally_idle; congruence).
    injection Hrun as <- <-. cbn.
    split; [rewrite Hal; exact Halarm|]. split; [exact Hs'|]. split; [reflexivity|congruence].
Qed.

(** *** The desk *)

Lemma desk_tab_ids : NoDup (tab_id <$> tabs (host Desk.desk)).
Proof. vm_compute. repeat constructor; rewrite ?list_elem_of_In; cbn; intuition lia. Qed.

Lemma suspendOtherTabs_spares_active_tab_witness :
  NoDup (tab_id <$> tabs (host Desk.desk)) /\
  head (activeTabs Desk.desk) = Some Desk.reading /\
  suspendOtherTabs Desk.desk
    = Ok (mkBulkReply true 1) (worldOf (suspendOtherTabs Desk.desk)) /\
  tabKept Desk.reading (worldOf (suspendOtherTabs Desk.desk)) /\
  suspendedTabsCache (globals (worldOf (suspendOtherTabs Desk.desk))) !! 1 = None.
Proof.
  assert (Hact : head (activeTabs Desk.desk) = Some Desk.reading) by reflexivity.
  assert (Hrun : suspendOtherTabs Desk.desk
                 = Ok (mkBulkReply true 1) (worldOf (suspendOtherTabs Desk.desk))).
  { vm_compute. reflexivity. }
  split; [exact desk_tab_ids|]. split; [exact Hact|]. split; [exact Hrun|].
  exact (suspendOtherTabs_spares_active_tab Desk.desk _ Desk.reading _
           desk_tab_ids Hact Hrun).
Defined.

Lemma suspendOtherTabs_without_active_tab_witness :
  rejects (host Desk.unfocused) TabsQuery = false /\
  activeTabs Desk.unfocused = [] /\
  suspendOtherTabs Desk.unfocused
    = Ok (mkBulkReply true 0) (afterTwoQueries Desk.unfocused).
Proof.
  split; [reflexivity|]. split; [reflexivity|].
  exact (suspendOtherTabs_without_active_tab Desk.unfocused eq_refl eq_refl).
Defined.

Lemma scan_spares_tabs_not_due_witness :
  NoDup (tab_id <$> tabs (host Desk.desk)) /\
  In Desk.reading (tabs (host Desk.desk)) /\
  notDue thirtyMinutes (lastActivityMap (globals Desk.desk)) Desk.reading /\
  scanBody thirtyMinutes Desk.desk = Ok tt (worldOf (scanBody thirtyMinutes Desk.desk)) /\
  tabKept Desk.reading (worldOf (scanBody thirtyMinutes Desk.desk)) /\
  suspendedTabsCache (globals (worldOf (scanBody thirtyMinutes Desk.desk))) !! 1 = None /\
  Chrome.findTab 2 (tabs (host (worldOf (scanBody thirtyMinutes Desk.desk)))) = None.
Proof.
  assert (Hin : In Desk.reading (tabs (host Desk.desk))) by (now left).
  assert (Hdue : notDue thirtyMinutes (lastActivityMap (globals Desk.desk)) Desk.reading).
  { exists 4900000. split; [reflexivity|]. split; [discriminate|reflexivity]. }
  assert (Hrun : scanBody thirtyMinutes Desk.desk
                 = Ok tt (worldOf (scanBody thirtyMinutes Desk.desk))).
  { vm_compute. reflexivity. }
  pose proof (scan_spares_tabs_not_due Desk.desk thirtyMinutes Desk.reading
                desk_tab_ids Hin Hdue) as H.
  rewrite Hrun in H.
  split; [exact desk_tab_ids|]. split; [exact Hin|]. split; [exact Hdue|].
  split; [exact Hrun|]. split; [apply H|]. split; [apply H|].
  vm_compute. reflexivity.
Defined.

Lemma scan_that_throws_arms_no_alarm_witness :
  scans Desk.brokenInFlight = [thirtyMinutes] /\
  scanRerunRequested (globals Desk.brokenInFlight) = false /\
  alarm (host Desk.brokenInFlight) = None /\
  resumeScan Desk.brokenInFlight
    = Throw SyntaxError (worldOf (resumeScan Desk.brokenInFlight)) /\
  alarm (host (worldOf (resumeScan Desk.brokenInFlight))) = None /\
  scans (worldOf (resumeScan Desk.brokenInFlight)) = [] /\
  scanRunning (globals (worldOf (resumeScan Desk.brokenInFlight))) = false /\
  scanRerunRequested (globals (worldOf (resumeScan Desk.brokenInFlight))) = false.
Proof.
  assert (H1 : scans Desk.brokenInFlight = [thirtyMinutes]) by (vm_compute; reflexivity).
  assert (H2 : scanRerunRequested (globals Desk.brokenInFlight) = false)
    by (vm_compute; reflexivity).
  assert (H3 : alarm (host Desk.brokenInFlight) = None) by (vm_compute; reflexivity).
  assert (H4 : resumeScan Desk.brokenInFlight
               = Throw SyntaxError (worldOf (resumeScan Desk.brokenInFlight))).
  { vm_compute. reflexivity. }
  split; [exact H1|]. split; [exact H2|]. split; [exact H3|]. split; [exact H4|].
  exact (scan_that_throws_arms_no_alarm Desk.brokenInFlight _ thirtyMinutes SyntaxError
           H1 H2 H3 H4).
Defined.

(** *** Settings that stop the scheduler *)

Lemma runInactivityScan_dormant w :
  flagsClear w ->
  dormant (host w) (currentSettings (globals w)) = true ->
  runInactivityScan w =
  Ok tt (with_globals (set_scanRunning false)
           (with_host (fun h => set_alarm None (log_call AlarmsClear h))
              (count_scan (with_globals (set_scanRunning true) w)))).
Proof.
  intros [Hrun Hre] Hd. unfold dormant in Hd.
  unfold runInactivityScan.
  change (runInactivityScan_upto 2) with (scanCall (runInactivityScan_upto 1)).
  unfold scanCall. unfold_m. cbn. rewrite Hrun. cbn.
  destruct (truthy _); cbn in *.
  - rewrite (thresholdMs_ext _ (host w)) by reflexivity.
    destruct (thresholdMs _ _) as [t|]; cbn in *.
    + rewrite Hd. now rewrite scanFinally_idle.
    + now rewrite scanFinally_idle.
  - now rewrite scanFinally_idle.
Qed.

(** Property X10. Saving settings that switch auto-suspend off, or a
    timeout of zero (or one that is not a number), stops the scheduler:
    the alarm is cleared and no scan is started, so no tab is suspended
    automatically from then on. No scan was running when the settings
    were saved, and storage took the write. *)
Theorem saveSettings_can_stop_the_scheduler (w : World) (partial : Settings) :
  flagsClear w -> scans w = [] ->
  rejects (host w) (StorageSet SETTINGS) = false ->
  dormant (host w) (spread (currentSettings (globals w)) partial) = true ->
  exists w',
    saveSettings partial w = Ok true w' /\
    currentSettings (globals w') = spread (currentSettings (globals w)) partial /\
    alarm (host w') = None /\
    scans w' = [] /\
    scanRunning (globals w') = false.
Proof.
  intros Hflags Hs Hset Hd.
  unfold saveSettings, Chrome.storage_set_settings, Chrome.hostCall. unfold_m. cbn.
  rewrite Hset. cbn. unfold configureAlarm. unfold_m. cbn.
  destruct (truthy (spread (currentSettings (globals w)) partial !! "autoSuspend")) eqn:Hauto; cbn.
  2:{ eexists. split; [reflexivity|]. cbn. destruct Hflags as [Hr _]. auto. }
  rewrite runInactivityScan_dormant.
  - eexists. split; [reflexivity|]. cbn. auto.
  - exact Hflags.
  - cbn. unfold dormant in *. rewrite (thresholdMs_ext _ (host w)) by reflexivity. exact Hd.
Qed.

Lemma saveSettings_can_stop_the_scheduler_witness :
  flagsClear world /\ scans world = [] /\
  rejects (host world) (StorageSet SETTINGS) = false /\
  dormant (host world)
    (spread (currentSettings (globals world)) (<["autoSuspendTime" := JNum 0]> ∅)) = true /\
  exists w',
    saveSettings (<["autoSuspendTime" := JNum 0]> ∅) world = Ok true w' /\
    currentSettings (globals w')
      = spread (currentSettings (globals world)) (<["autoSuspendTime" := JNum 0]> ∅) /\
    alarm (host w') = None /\
    scans w' = [] /\
    scanRunning (globals w') = false.
Proof.
  assert (H1 : flagsClear world) by (split; reflexivity).
  assert (H4 : dormant (host world)
            (spread (currentSettings (globals world)) (<["autoSuspendTime" := JNum 0]> ∅)) = true)
    by (vm_compute; reflexivity).
  split; [exact H1|]. split; [reflexivity|]. split; [reflexivity|]. split; [exact H4|].
  exact (saveSettings_can_stop_the_scheduler world _ H1 eq_refl eq_refl H4).
Defined.

(** *** A whitelist without entries *)

Lemma trim_blank s : allChars isTrimmable s = true -> trim s = EmptyString.
Proof.
  unfold trim. induction s as [|c s IH]; [reflexivity|]. cbn [allChars trimStart].
  intros [Hc Hs]%andb_true_iff. rewrite Hc. now apply IH.
Qed.

Ltac blank_turn IH Hcur Hs Hlen :=
  cbn [splitEntries_go];
  first
    [ (* the character is kept in the piece *)
      apply IH; [cbn in Hlen |- *; lia|cbn [allChars]; now rewrite Hcur|exact Hs]
    | (* the character ends the piece *)
      constructor; [now rewrite allChars_rev|];
      apply IH; [cbn in Hlen |- *; lia|reflexivity|exact Hs] ].

Lemma splitEntries_go_blank n : forall s cur,
  (String.length s <= n)%nat ->
  allChars isTrimmable cur = true ->
  allChars blank s = true ->
  Forall (fun piece => allChars isTrimmable piece = true) (splitEntries_go cur s).
Proof.
  induction n as [|n IH]; intros s cur Hlen Hcur Hs.
  { destruct s; [|cbn in Hlen; lia]. constructor; [now rewrite allChars_rev|constructor]. }
  destruct s as [|c s].
  { constructor; [now rewrite allChars_rev|constructor]. }
  cbn [allChars] in Hs. apply andb_true_iff in Hs as [Hc Hs].
  destruct c as [[] [] [] [] [] [] [] []]; try discriminate Hc;
    try (blank_turn IH Hcur Hs Hlen; fail).
  (* a carriage return: the next character decides *)
  destruct s as [|d s].
  { cbn [splitEntries_go]. constructor; [now rewrite allChars_rev|constructor]. }
  cbn [allChars] in Hs. apply andb_true_iff in Hs as [Hd Hs'].
  destruct d as [[] [] [] [] [] [] [] []]; try discriminate Hd;
    match goal with
    | |- Forall _ (splitEntries_go ?cur (String ?c (String ?d ?s))) =>
        first
          [ change (splitEntries_go cur (String c (String d s)))
              with (splitEntries_go (String c cur) (String d s));
            apply IH; [cbn in Hlen |- *; lia|cbn [allChars]; now rewrite Hcur|
                       cbn [allChars]; now rewrite Hs']
          | cbn [splitEntries_go]; constructor; [now rewrite allChars_rev|];
            apply IH; [cbn in Hlen |- *; lia|reflexivity|exact Hs'] ]
    end.
Qed.

Lemma whitelistEntries_blank (s : Settings) :
  blankWhitelist (s !! "urlWhitelist") = true -> whitelistEntries s = Some [].
Proof.
  unfold blankWhitelist, whitelistEntries. cbn zeta.
  destruct (s !! "urlWhitelist") as [[|b|n|text]|] eqn:Hv; cbn [truthy].
  - reflexivity.
  - destruct b; [discriminate|reflexivity].
  - destruct (n =? 0); [reflexivity|discriminate].
  - intros Hblank.
    assert (Hpieces : List.filter nonEmpty (List.map trim (splitEntries text)) = []).
    { unfold splitEntries.
      pose proof (splitEntries_go_blank (String.length text) text EmptyString
                    (le_n _) eq_refl Hblank) as Hall.
      induction Hall as [|piece pieces Hp _ IH]; [reflexivity|].
      cbn. now rewrite trim_blank. }
    destruct (nonEmpty text); cbn; now rewrite ?Hpieces.
  - reflexivity.
Qed.

(** Property X11. A whitelist without entries (a missing or falsy
    setting, or a text made of white space, line breaks and commas)
    whitelists no address. *)
Theorem blank_whitelist_exempts_nothing (s : Settings) (url : string) :
  blankWhitelist (s !! "urlWhitelist") = true ->
  isWhitelisted s url = RVal false.
Proof.
  intros H. unfold isWhitelisted. now rewrite whitelistEntries_blank.
Qed.

Lemma blank_whitelist_exempts_nothing_witness :
  blankWhitelist (withWhitelist " ,  , " !! "urlWhitelist") = true /\
  isWhitelisted (withWhitelist " ,  , ") "https://news.example.com/" = RVal false.
Proof.
  split; [reflexivity|].
  exact (blank_whitelist_exempts_nothing (withWhitelist " ,  , ")
           "https://news.example.com/" eq_refl).
Defined.

(** Property X12. On a whitelist whose entries use no character with a
    meaning in a regular expression but the star, and an address without
    line breaks, [isWhitelisted] is the matching that the settings page
    describes: an entry matches when the whole address is the entry with
    some text for every star. *)
Theorem plain_whitelist_is_wildcard_matching (s : Settings) (wl : list string) (url : string) :
  whitelistEntries s = Some wl ->
  Forall (fun p => plainPattern p = true) wl ->
  singleLine url = true ->
  isWhitelisted s url = RVal (existsb (fun p => globMatch p url) wl).
Proof. apply isWhitelisted_plain. Qed.

Lemma plain_whitelist_is_wildcard_matching_witness :
  whitelistEntries (withWhitelist "https://docs/*, *example/inbox")
    = Some ["https://docs/*"; "*example/inbox"] /\
  Forall (fun p => plainPattern p = true) ["https://docs/*"; "*example/inbox"] /\
  singleLine "https://mail-example/inbox" = true /\
  isWhitelisted (withWhitelist "https://docs/*, *example/inbox") "https://mail-example/inbox"
    = RVal true.
Proof.
  assert (H2 : Forall (fun p => plainPattern p = true) ["https://docs/*"; "*example/inbox"])
    by (repeat constructor).
  split; [reflexivity|]. split; [exact H2|]. split; [reflexivity|].
  exact (plain_whitelist_is_wildcard_matching
           (withWhitelist "https://docs/*, *example/inbox")
           ["https://docs/*"; "*example/inbox"] "https://mail-example/inbox"
           eq_refl H2 eq_refl).
Defined.

(** *** A suspension that fails half-way *)

Lemma suspendTab_already w tabId reason tab rec :
  Chrome.findTab tabId (tabs (host w)) = Some tab ->
  rejects (host w) (TabsGet tabId) = false ->
  eligibleForSuspend (currentSettings (globals w)) (extensionId (host w)) tab reason
    = RVal true ->
  suspendedTabsCache (globals w) !! tabId = Some rec ->
  suspendTab tabId reason w = Ok alreadySuspended (with_host (log_call (TabsGet tabId)) w).
Proof.
  intros Hfind Hget Hel Hrec.
  unfold suspendTab, tryCatch. unfold bind at 1. rewrite tabs_get_run. cbn.
  rewrite Hget, Hfind. repeat step_refl. unfold bind at 1, liftR. cbn. rewrite Hel. cbn.
  destruct (eligible_has_url _ _ _ _ Hel) as (u & _ & Hpage). rewrite Hpage.
  step_refl. cbn. now rewrite Hrec.
Qed.

(** Property X13. When the host refuses both to open the placeholder and
    to navigate the tab, [suspendTab] answers [{ success: false, error }]
    but has put a record in the registry, which it leaves there: the tab
    still shows its page, and from then on a suspension of that tab
    answers [{ success: false, already: true }]. *)
Theorem failed_suspension_leaves_a_record
  (w : World) (tabId : Z) (reason : Reason) (tab : Tab) :
  Chrome.findTab tabId (tabs (host w)) = Some tab ->
  eligibleForSuspend (currentSettings (globals w)) (extensionId (host w)) tab reason
    = RVal true ->
  suspendedTabsCache (globals w) !! tabId = None ->
  rejects (host w) (TabsGet tabId) = false ->
  rejects (host w) TabsCreate = true ->
  rejects (host w) (TabsUpdate tabId) = true ->
  exists w1 w2,
    suspendTab tabId reason w = Ok (failedWith (HostError (TabsUpdate tabId))) w1 /\
    suspendedTabsCache (globals w1) !! tabId
      = Some (baseRecord tab reason (clock (host w)) Navigate None) /\
    tabs (host w1) = tabs (host w) /\
    suspendTab tabId reason w1 = Ok alreadySuspended w2.
Proof.
  intros Hfind Hel Hrec Hget Hcreate Hupdate.
  assert (Hrun : exists w1,
    suspendTab tabId reason w = Ok (failedWith (HostError (TabsUpdate tabId))) w1 /\
    hostFrame w w1 /\
    suspendedTabsCache (globals w1)
      = <[tabId := baseRecord tab reason (clock (host w)) Navigate None]>
          (suspendedTabsCache (globals w)) /\
    tabs (host w1) = tabs (host w)).
  { unfold suspendTab, tryCatch. unfold bind at 1. rewrite tabs_get_run. cbn.
    rewrite Hget, Hfind. set (w0 := with_host _ w).
    repeat step_refl. unfold bind at 1, liftR. cbn. rewrite Hel. cbn.
    destruct (eligible_has_url _ _ _ _ Hel) as (u & _ & Hpage). rewrite Hpage.
    step_refl. cbn. rewrite Hrec. cbn. unfold bind. cbn.
    rewrite replaceStrategy_throws by exact Hcreate. cbn.
    set (w1 := with_host _ w0).
    destruct (navigateStrategy_run tabId tab reason (clock (host w)) w1)
      as (w' & Hnav & F & C & T).
    assert (U : updateThrows w1 tabId = true).
    { unfold updateThrows. cbn. now rewrite Hupdate. }
    rewrite U in Hnav, T. rewrite Hnav. exists w'. split; [reflexivity|].
    split; [|split; [exact C|exact T]].
    eapply hostFrame_trans; [|exact F]. repeat split. }
  destruct Hrun as (w1 & Hrun & F & C & T).
  exists w1, (with_host (log_call (TabsGet tabId)) w1).
  split; [exact Hrun|]. split; [rewrite C; apply lookup_insert_eq|]. split; [exact T|].
  destruct F as (Hrej & Hext & _ & _ & Hset & _).
  apply (suspendTab_already w1 tabId reason tab
           (baseRecord tab reason (clock (host w)) Navigate None)).
  - now rewrite T.
  - now rewrite Hrej.
  - now rewrite Hset, Hext.
  - rewrite C. apply lookup_insert_eq.
Qed.

(** *** What the popup shows *)

Lemma suspendTab_response w tabId reason :
  match suspendTab tabId reason w with
  | Ok resp _ =>
      ignored resp = None /\
      (already resp = Some true ->
       exists tab rec,
         Chrome.findTab tabId (tabs (host w)) = Some tab /\
         isExtensionSuspendedPage (extensionId (host w)) (tab_url tab) = false /\
         suspendedTabsCache (globals w) !! tabId = Some rec)
  | Throw _ _ => False
  | Unmodelled => True
  end.
Proof.
  destruct (suspendTab_outcome w tabId reason)
    as [ | | | |tab rec Hfind Hel Hrec|tab resp w' Hfind Hel Hrec F S| ];
    try (split; [reflexivity|discriminate]); try exact I.
  - split; [reflexivity|]. intros _. exists tab, rec.
    destruct (eligible_has_url _ _ _ _ Hel) as (u & _ & Hpage). auto.
  - destruct S as (rec & _ & _ & _ & [(-> & _)|(-> & _)] & _);
      (split; [reflexivity|discriminate]).
Qed.

Lemma queryActive_run w :
  queryActive w =
  if rejects (host w) TabsQuery
  then Throw (HostError TabsQuery) (with_host (log_call TabsQuery) w)
  else Ok (activeTabs w) (with_host (log_call TabsQuery) w).
Proof.
  unfold queryActive, Chrome.tabs_query, Chrome.hostCall. unfold_m. cbn.
  destruct (rejects _ _); reflexivity.
Qed.

Lemma resolveTabId_current w :
  resolveTabId None None w =
  if rejects (host w) TabsQuery
  then Throw (HostError TabsQuery) (with_host (log_call TabsQuery) w)
  else Ok (tab_id <$> head (activeTabs w)) (with_host (log_call TabsQuery) w).
Proof.
  unfold resolveTabId, Chrome.tabs_query, Chrome.hostCall. unfold_m. cbn.
  destruct (rejects _ _); reflexivity.
Qed.

(** Property X14. Whatever answer the popup gets to its request to
    suspend the current tab, it never shows [Ignored by rules]: no answer
    of the background script has the key [ignored]. It shows
    [Already suspended] only for a tab that does not show the suspended
    page and for whose id the registry has a record all the same. *)
Theorem popup_never_shows_ignored (w w' : World) (reply : Reply) :
  onMessage (SuspendTab None) None w = Ok reply w' ->
  exists resp,
    reply = ReplyResponse resp /\
    Popup.feedback resp <> Popup.ShowIgnoredByRules /\
    (Popup.feedback resp = Popup.ShowAlreadySuspended ->
     exists id tab rec,
       Chrome.findTab id (tabs (host w)) = Some tab /\
       isExtensionSuspendedPage (extensionId (host w)) (tab_url tab) = false /\
       suspendedTabsCache (globals w) !! id = Some rec).
Proof.
  unfold onMessage. unfold bind at 1. rewrite resolveTabId_current.
  destruct (rejects (host w) TabsQuery); [discriminate|].
  destruct (head (activeTabs w)) as [a|] eqn:Ha; cbn [fmap option_fmap option_map].
  2:{ intros [= <- <-]. exists plainFailure. split; [reflexivity|].
      split; discriminate. }
  set (w0 := with_host (log_call TabsQuery) w). unfold bind.
  pose proof (suspendTab_response w0 (tab_id a) Manual) as Hresp.
  destruct (suspendTab (tab_id a) Manual w0) as [resp w1|e w1|]; [|contradiction|discriminate].
  intros [= <- <-]. exists resp. split; [reflexivity|].
  destruct Hresp as [Hign Halr]. unfold Popup.feedback. rewrite Hign. cbn [Popup.flag].
  split.
  - destruct (success resp); [discriminate|]. destruct (Popup.flag _); discriminate.
  - destruct (success resp); [discriminate|].
    destruct (already resp) as [[|]|] eqn:Hal; cbn [Popup.flag]; try discriminate.
    intros _. destruct (Halr eq_refl) as (tab & rec & Hfind & Hpage & Hrec).
    exists (tab_id a), tab, rec. auto.
Qed.

Lemma popup_never_shows_ignored_witness :
  onMessage (SuspendTab None) None stubbornWorld
    = Ok (ReplyResponse replacedOk) (worldOf (onMessage (SuspendTab None) None stubbornWorld)) /\
  exists resp,
    ReplyResponse replacedOk = ReplyResponse resp /\
    Popup.feedback resp <> Popup.ShowIgnoredByRules /\
    (Popup.feedback resp = Popup.ShowAlreadySuspended ->
     exists id tab rec,
       Chrome.findTab id (tabs (host stubbornWorld)) = Some tab /\
       isExtensionSuspendedPage (extensionId (host stubbornWorld)) (tab_url tab) = false /\
       suspendedTabsCache (globals stubbornWorld) !! id = Some rec).
Proof.
  assert (Hrun : onMessage (SuspendTab None) None stubbornWorld
    = Ok (ReplyResponse replacedOk)
         (worldOf (onMessage (SuspendTab None) None stubbornWorld))).
  { vm_compute. reflexivity. }
  split; [exact Hrun|].
  exact (popup_never_shows_ignored stubbornWorld _ _ Hrun).
Defined.

Lemma failed_suspension_leaves_a_record_witness :
  Chrome.findTab 2 (tabs (host Desk.stuckDesk)) = Some Desk.news /\
  eligibleForSuspend (currentSettings (globals Desk.stuckDesk))
    (extensionId (host Desk.stuckDesk)) Desk.news Manual = RVal true /\
  suspendedTabsCache (globals Desk.stuckDesk) !! 2 = None /\
  rejects (host Desk.stuckDesk) (TabsGet 2) = false /\
  rejects (host Desk.stuckDesk) TabsCreate = true /\
  rejects (host Desk.stuckDesk) (TabsUpdate 2) = true /\
  exists w1 w2,
    suspendTab 2 Manual Desk.stuckDesk = Ok (failedWith (HostError (TabsUpdate 2))) w1 /\
    suspendedTabsCache (globals w1) !! 2
      = Some (baseRecord Desk.news Manual (clock (host Desk.stuckDesk)) Navigate None) /\
    tabs (host w1) = tabs (host Desk.stuckDesk) /\
    suspendTab 2 Manual w1 = Ok alreadySuspended w2.
Proof.
  assert (H1 : Chrome.findTab 2 (tabs (host Desk.stuckDesk)) = Some Desk.news)
    by reflexivity.
  assert (H2 : eligibleForSuspend (currentSettings (globals Desk.stuckDesk))
    (extensionId (host Desk.stuckDesk)) Desk.news Manual = RVal true)
    by (vm_compute; reflexivity).
  split; [exact H1|]. split; [exact H2|]. do 4 (split; [reflexivity|]).
  exact (failed_suspension_leaves_a_record Desk.stuckDesk 2 Manual Desk.news
           H1 H2 eq_refl eq_refl eq_refl eq_refl).
Defined.

(** *** Restoring from the suspended page *)

(** Property X15. A suspended page whose record is lost still restores
    its tab: the page reads the original address back from its own
    address and sends it with [restoreTab], and the router, finding no
    record for the sender, navigates the tab to that address. The id of
    the extension holds neither a question mark nor a hash, the original
    address is not empty, and the host carries out the navigation. *)
Theorem lost_record_still_restores
  (w : World) (id : Z) (originalUrl : string) (title : option string) :
  allChars pathChar (extensionId (host w)) = true ->
  nonEmpty originalUrl = true ->
  id <> 0 ->
  tabShows id (getSuspendedUrl (extensionId (host w)) originalUrl title) w ->
  suspendedTabsCache (globals w) !! id = None ->
  rejects (host w) (TabsUpdate id) = false ->
  exists w',
    SuspendedPage.restoreMessage
      (locationSearch (getSuspendedUrl (extensionId (host w)) originalUrl title))
      = Some (Some (RestoreTab (Some originalUrl))) /\
    onMessage (RestoreTab (Some originalUrl)) (Some id) w = Ok (ReplyRestore true true) w' /\
    tabShows id originalUrl w' /\
    suspendedTabsCache (globals w') = suspendedTabsCache (globals w).
Proof.
  intros Hext Hne Hid (t & Ht & Hu) Hrec Hacc.
  unfold SuspendedPage.restoreMessage, SuspendedPage.url.
  rewrite suspended_page_params by exact Hext. cbn [fmap option_fmap option_map].
  rewrite get_url_suspendedParams.
  cbn [isTruthyString]. rewrite Hne.
  unfold onMessage. step_refl. cbn [truthyNumber].
  destruct (Z.eqb_spec id 0) as [|_]; [contradiction|]. rewrite Hrec.
  cbn [negb andb isTruthyString default]. rewrite bool_decide_eq_false_2 by (intros [? ?]; discriminate).
  cbn [andb]. rewrite Hne.
  unfold bind. rewrite tabs_update_run. cbn zeta.
  assert (Hthrows : updateThrows w id = false).
  { unfold updateThrows. now rewrite Hacc, Ht. }
  rewrite Hthrows. eexists. split; [reflexivity|]. split; [reflexivity|].
  split; [|reflexivity].
  destruct (findTab_afterUpdate id (Chrome.mkUpdate originalUrl None None) _ t Ht)
    as (t' & Ht' & Hu' & _).
  exists t'. split; [exact Ht'|exact Hu'].
Qed.

Lemma lost_record_still_restores_witness :
  allChars pathChar (extensionId (host Desk.lostRecord)) = true /\
  nonEmpty "https://mail.example.com/inbox" = true /\
  3 <> 0 /\
  tabShows 3 (getSuspendedUrl (extensionId (host Desk.lostRecord))
                "https://mail.example.com/inbox" (Some "Inbox")) Desk.lostRecord /\
  suspendedTabsCache (globals Desk.lostRecord) !! 3 = None /\
  rejects (host Desk.lostRecord) (TabsUpdate 3) = false /\
  exists w',
    SuspendedPage.restoreMessage
      (locationSearch (getSuspendedUrl (extensionId (host Desk.lostRecord))
                         "https://mail.example.com/inbox" (Some "Inbox")))
      = Some (Some (RestoreTab (Some "https://mail.example.com/inbox"))) /\
    onMessage (RestoreTab (Some "https://mail.example.com/inbox")) (Some 3) Desk.lostRecord
      = Ok (ReplyRestore true true) w' /\
    tabShows 3 "https://mail.example.com/inbox" w' /\
    suspendedTabsCache (globals w') = suspendedTabsCache (globals Desk.lostRecord).
Proof.
  assert (H1 : allChars pathChar (extensionId (host Desk.lostRecord)) = true)
    by (vm_compute; reflexivity).
  assert (H3 : 3 <> 0) by discriminate.
  assert (H4 : tabShows 3 (getSuspendedUrl (extensionId (host Desk.lostRecord))
                "https://mail.example.com/inbox" (Some "Inbox")) Desk.lostRecord).
  { eexists. split; vm_compute; reflexivity. }
  assert (H5 : suspendedTabsCache (globals Desk.lostRecord) !! 3 = None)
    by (vm_compute; reflexivity).
  assert (H6 : rejects (host Desk.lostRecord) (TabsUpdate 3) = false)
    by (vm_compute; reflexivity).
  split; [exact H1|]. split; [reflexivity|]. split; [exact H3|]. split; [exact H4|].
  split; [exact H5|]. split; [exact H6|].
  exact (lost_record_still_restores Desk.lostRecord 3 "https://mail.example.com/inbox"
           (Some "Inbox") H1 eq_refl H3 H4 H5 H6).
Defined.

(** *** The keyboard shortcuts *)

Lemma suspendTab_no_throw tabId reason w e w' : suspendTab tabId reason w <> Throw e w'.
Proof.
  intros H. pose proof (suspendTab_frame tabId reason w) as F. now rewrite H in F.
Qed.

Lemma unsuspendTab_no_throw tabId w e w' : unsuspendTab tabId w <> Throw e w'.
Proof.
  destruct (suspendedTabsCache (globals w) !! tabId) as [rec|] eqn:Hrec.
  - rewrite (unsuspendTab_run tabId rec w Hrec). cbn zeta.
    destruct (updateThrows w tabId); discriminate.
  - rewrite unsuspendTab_absent by exact Hrec. discriminate.
Qed.

Lemma bind_run {A B} (m : M A) (k : A -> M B) w :
  bind m k w =
  match m w with
  | Ok a w' => k a w'
  | Throw e w' => Throw e w'
  | Unmodelled => Unmodelled
  end.
Proof. reflexivity. Qed.

(** Property X16. The shortcuts [suspend-tab] and [unsuspend-tab] do what
    the requests [suspendCurrentTab] and [unsuspendTab] of the popup do:
    the same call on the active tab of the current window, ending in the
    same world. The tab query is answered, and the active tab, if there
    is one, has an id. *)
Theorem shortcuts_act_as_popup_requests (w : World) :
  rejects (host w) TabsQuery = false ->
  (forall a, head (activeTabs w) = Some a -> tab_id a <> 0) ->
  onCommand "suspend-tab" w
    = (do _ <- onMessage (SuspendTab None) None ; ret tt) w /\
  onCommand "unsuspend-tab" w
    = (do _ <- onMessage (UnsuspendTab None) None ; ret tt) w.
Proof.
  intros Hq Hid.
  assert (Hqa : queryActive w = Ok (activeTabs w) (with_host (log_call TabsQuery) w))
    by (rewrite queryActive_run; now rewrite Hq).
  assert (Hres : resolveTabId None None w
                 = Ok (tab_id <$> head (activeTabs w)) (with_host (log_call TabsQuery) w))
    by (rewrite resolveTabId_current; now rewrite Hq).
  set (w0 := with_host (log_call TabsQuery) w) in *.
  split.
  - rewrite (bind_run (onMessage (SuspendTab None) None)).
    unfold onMessage. rewrite (bind_ok _ _ _ _ _ Hres).
    unfold onCommand, tryCatch. rewrite (bind_ok _ _ _ _ _ Hqa).
    destruct (head (activeTabs w)) as [a|] eqn:Ha; cbn [fmap option_fmap option_map];
      [|reflexivity].
    specialize (Hid a eq_refl). cbn [truthyNumber default].
    destruct (Z.eqb_spec (tab_id a) 0) as [|_]; [contradiction|]. cbn.
    unfold bind.
    pose proof (suspendTab_no_throw (tab_id a) Manual w0) as Hn.
    destruct (suspendTab (tab_id a) Manual w0) as [r w1|e w1|]; try reflexivity.
    now destruct (Hn e w1).
  - rewrite (bind_run (onMessage (UnsuspendTab None) None)).
    unfold onMessage. rewrite (bind_ok _ _ _ _ _ Hres).
    unfold onCommand, tryCatch. rewrite (bind_ok _ _ _ _ _ Hqa).
    destruct (head (activeTabs w)) as [a|] eqn:Ha; cbn [fmap option_fmap option_map];
      [|reflexivity].
    specialize (Hid a eq_refl). cbn [truthyNumber default].
    destruct (Z.eqb_spec (tab_id a) 0) as [|_]; [contradiction|]. cbn.
    unfold bind.
    pose proof (unsuspendTab_no_throw (tab_id a) w0) as Hn.
    destruct (unsuspendTab (tab_id a) w0) as [r w1|e w1|]; try reflexivity.
    now destruct (Hn e w1).
Qed.

Lemma shortcuts_act_as_popup_requests_witness :
  rejects (host Desk.desk) TabsQuery = false /\
  (forall a, head (activeTabs Desk.desk) = Some a -> tab_id a <> 0) /\
  onCommand "suspend-tab" Desk.desk
    = (do _ <- onMessage (SuspendTab None) None ; ret tt) Desk.desk /\
  onCommand "unsuspend-tab" Desk.desk
    = (do _ <- onMessage (UnsuspendTab None) None ; ret tt) Desk.desk.
Proof.
  assert (H2 : forall a, head (activeTabs Desk.desk) = Some a -> tab_id a <> 0).
  { intros a [= <-]. discriminate. }
  split; [reflexivity|]. split; [exact H2|].
  exact (shortcuts_act_as_popup_requests Desk.desk eq_refl H2).
Defined.

(** *** The pings of the content script *)

Section Pings.

Import ContentScript.

Lemma pingsInv_step now st ev :
  pingsInv now st -> now <= time ev -> pingsInv (time ev) (step st ev).
Proof.
  intros (Hsp & Hnow & Hdue) Hle. destruct ev as [t|t]; cbn [time] in *; cbn [step].
  - unfold updateActivity. split; [exact Hsp|]. cbn [pings timer]. split.
    + intros p Hp. specialize (Hnow p Hp). lia.
    + intros p due Hp Ht. destruct (timer st) as [d|] eqn:Hd.
      * injection Ht as <-. now apply (Hdue p d).
      * injection Ht as <-. specialize (Hnow p Hp). lia.
  - destruct (timer st) as [d|] eqn:Hd.
    2:{ split; [exact Hsp|]. split.
        - intros p Hp. specialize (Hnow p Hp). lia.
        - intros p due _ H. rewrite Hd in H. discriminate. }
    destruct (Z.leb_spec d t) as [Hfire|Hwait].
    + unfold timerFired. split; [|split]; cbn [pings timer head].
      * destruct (pings st) as [|p ps] eqn:Hps; [exact I|].
        split; [|exact Hsp]. specialize (Hdue p d eq_refl eq_refl). lia.
      * intros p [= <-]. lia.
      * intros p due _ H. discriminate.
    + split; [exact Hsp|]. split.
      * intros p Hp. specialize (Hnow p Hp). lia.
      * intros p due Hp H. rewrite Hd in H. injection H as <-. now apply (Hdue p d).
Qed.

Lemma pingsInv_run evs : forall now st,
  pingsInv now st -> inOrder now evs -> spaced 1500 (pings (run st evs)).
Proof.
  induction evs as [|ev evs IH]; intros now st Hinv Hord; [now destruct Hinv|].
  destruct Hord as [Hle Hord]. cbn [run fold_left]. apply (IH (time ev)); [|exact Hord].
  now apply (pingsInv_step now).
Qed.

End Pings.

(** Property X17. However the user moves about the page, two pings of
    the content script are at least 1500 ms apart: a ping is sent by a
    timer only, and a new timer is set only when none is pending. Time
    does not go back, and a timer runs no sooner than it is due. *)
Theorem pings_are_spaced (loaded : Z) (evs : list ContentScript.Event) :
  inOrder loaded evs ->
  spaced 1500 (ContentScript.pings (ContentScript.run (ContentScript.load loaded) evs)).
Proof.
  apply (pingsInv_run evs loaded). split; [exact I|]. split; intros; discriminate.
Qed.

Lemma pings_are_spaced_witness :
  inOrder 0 [ContentScript.Activity 10; ContentScript.Activity 900; ContentScript.Tick 1510;
             ContentScript.Activity 1600; ContentScript.Tick 2000; ContentScript.Tick 3200] /\
  ContentScript.pings
    (ContentScript.run (ContentScript.load 0)
       [ContentScript.Activity 10; ContentScript.Activity 900; ContentScript.Tick 1510;
        ContentScript.Activity 1600; ContentScript.Tick 2000; ContentScript.Tick 3200])
    = [3200; 1510] /\
  spaced 1500
    (ContentScript.pings
       (ContentScript.run (ContentScript.load 0)
          [ContentScript.Activity 10; ContentScript.Activity 900; ContentScript.Tick 1510;
           ContentScript.Activity 1600; ContentScript.Tick 2000; ContentScript.Tick 3200])).
Proof.
  assert (H : inOrder 0 [ContentScript.Activity 10; ContentScript.Activity 900;
                         ContentScript.Tick 1510; ContentScript.Activity 1600;
                         ContentScript.Tick 2000; ContentScript.Tick 3200]).
  { cbn. lia. }
  split; [exact H|]. split; [reflexivity|].
  exact (pings_are_spaced 0 _ H).
Defined.

(** *** A tab that was just used *)

(** The scheduler's own steps uphold what depends on the tabs and on the
    registry only. *)
Section SchedulerUpholds.

Context (I : World -> Prop).

Hypothesis tabs_and_registry : forall w w',
  tabs (host w') = tabs (host w) ->
  suspendedTabsCache (globals w') = suspendedTabsCache (globals w) ->
  I w -> I w'.

Lemma upholds_step (f : World -> World) :
  (forall w, tabs (host (f w)) = tabs (host w)) ->
  (forall w, suspendedTabsCache (globals (f w)) = suspendedTabsCache (globals w)) ->
  upholds I anyValue (modify f).
Proof.
  intros Ht Hc. apply upholds_modify. intros w. now apply tabs_and_registry.
Qed.

Lemma upholds_scanFinally again :
  upholds I anyValue again -> upholds I anyValue (scanFinally again).
Proof.
  intros Hagain. unfold scanFinally.
  eapply upholds_bind; [now apply upholds_step|]. intros _ _.
  eapply upholds_bind; [apply upholds_inspect|]. intros g _.
  destruct (scanRerunRequested g); [|apply upholds_ret_any].
  eapply upholds_bind; [now apply upholds_step|]. intros _ _.
  apply upholds_tryCatch; [exact Hagain|]. intros e. apply upholds_ret_any.
Qed.

Lemma upholds_scanCall again :
  upholds I anyValue again -> upholds I anyValue (scanCall again).
Proof.
  intros Hagain. unfold scanCall.
  eapply upholds_bind; [apply upholds_inspect|]. intros g _.
  destruct (scanRunning g); [now apply upholds_step|].
  eapply upholds_bind; [now apply upholds_step|]. intros _ _.
  eapply upholds_bind; [now apply upholds_step|]. intros _ _.
  eapply upholds_bind; [now apply upholds_step|]. intros _ _.
  eapply upholds_bind; [apply upholds_inspect|]. intros s _.
  destruct (negb _); [now apply upholds_scanFinally|].
  eapply upholds_bind; [apply upholds_inspect|]. intros h _.
  destruct (thresholdMs h s) as [t|]; [|now apply upholds_scanFinally].
  destruct (t =? 0); [now apply upholds_scanFinally|].
  eapply upholds_bind; [apply upholds_inspect|]. intros now _.
  now apply upholds_step.
Qed.

Lemma upholds_runInactivityScan_upto n : upholds I anyValue (runInactivityScan_upto n).
Proof.
  induction n as [|n IH]; [intros w _; exact Logic.I|].
  change (runInactivityScan_upto (S n)) with (scanCall (runInactivityScan_upto n)).
  now apply upholds_scanCall.
Qed.

Lemma upholds_runInactivityScan : upholds I anyValue runInactivityScan.
Proof. apply upholds_runInactivityScan_upto. Qed.

End SchedulerUpholds.

Lemma leftAlone_runInactivityScan t0 r0 : upholds (leftAlone t0 r0) anyValue runInactivityScan.
Proof. apply upholds_runInactivityScan. intros w w'. apply leftAlone_ext. Qed.

(** The rest of a scan whose frame finds the tab not due. *)
Lemma resumeScan_spares t0 r0 fr w :
  NoDup (tab_id <$> tabs (host w)) ->
  In t0 (tabs (host w)) ->
  leftAlone t0 r0 w ->
  scans w = [fr] ->
  notDue fr (lastActivityMap (globals w)) t0 ->
  match resumeScan w with
  | Ok _ w' | Throw _ w' => leftAlone t0 r0 w'
  | Unmodelled => True
  end.
Proof.
  intros Hnd Hin H0 Hs Hdue. unfold resumeScan. step_refl. rewrite Hs.
  unfold bind at 1. cbn. unfold tryFinally.
  set (v := set_scans [] w).
  pose proof (scanBody_spares t0 r0 fr v Hnd Hin H0 Hdue) as Hbody.
  pose proof (upholds_scanFinally (leftAlone t0 r0)
                ltac:(intros x y; apply leftAlone_ext) runInactivityScan
                (leftAlone_runInactivityScan t0 r0)) as Hfin.
  destruct (scanBody fr v) as [[] v'|e v'|]; [| |exact I].
  - specialize (Hfin v' Hbody). unfold bind.
    destruct (scanFinally runInactivityScan v') as [[] w'|e w'|]; [apply Hfin|exact Hfin|exact I].
  - specialize (Hfin v' Hbody). unfold bind.
    destruct (scanFinally runInactivityScan v') as [[] w'|e' w'|]; [apply Hfin|exact Hfin|exact I].
Qed.

(** Property X18. The tab that the user has just switched to survives
    the scan that its activation starts: [onActivated] stamps the tab
    with the current time, and the scan that takes off finds it used less
    than a threshold ago. No scan was running, auto-suspend is on with a
    positive threshold, and tab ids are distinct. *)
Theorem activated_tab_survives_its_scan (w : World) (t0 : Tab) (threshold : Z) :
  NoDup (tab_id <$> tabs (host w)) ->
  In t0 (tabs (host w)) ->
  flagsClear w -> scans w = [] ->
  truthy (currentSettings (globals w) !! "autoSuspend") = true ->
  thresholdMs (host w) (currentSettings (globals w)) = Some threshold ->
  0 < threshold ->
  clock (host w) <> 0 ->
  match (onActivated (tab_id t0) ;;; resumeScan) w with
  | Ok _ w' | Throw _ w' =>
      tabKept t0 w' /\
      suspendedTabsCache (globals w') !! tab_id t0
        = suspendedTabsCache (globals w) !! tab_id t0
  | Unmodelled => True
  end.
Proof.
  intros Hnd Hin Hflags Hs Hauto Hth Hpos Hclock.
  set (wa := with_globals (fun g => set_lastActivityMap
                 (<[tab_id t0 := clock (host w)]> (lastActivityMap g)) g) w).
  assert (Hact : onActivated (tab_id t0) w =
                 Ok tt (set_scans [mkScanFrame threshold (clock (host w))]
                          (with_host (fun h => set_alarm None (log_call AlarmsClear h))
                             (count_scan (with_globals (set_scanRunning true) wa))))).
  { unfold onActivated. unfold_m. cbn. fold wa. rewrite Hauto.
    rewrite (runInactivityScan_takes_off_run wa threshold); try assumption.
    - cbn. now rewrite Hs.
    - lia. }
  unfold bind. rewrite Hact.
  apply (resumeScan_spares t0 _ (mkScanFrame threshold (clock (host w)))); try assumption.
  - apply (leftAlone_ext t0 _ w); [reflexivity|reflexivity|].
    now apply leftAlone_initial.
  - reflexivity.
  - exists (clock (host w)). cbn. unfold lastSeen, orElse. rewrite lookup_insert_eq. cbn.
    destruct (Z.eqb_spec (clock (host w)) 0); [contradiction|].
    split; [reflexivity|]. split; [exact Hclock|lia].
Qed.

Lemma activated_tab_survives_its_scan_witness :
  NoDup (tab_id <$> tabs (host Desk.desk)) /\
  In Desk.news (tabs (host Desk.desk)) /\
  flagsClear Desk.desk /\ scans Desk.desk = [] /\
  truthy (currentSettings (globals Desk.desk) !! "autoSuspend") = true /\
  thresholdMs (host Desk.desk) (currentSettings (globals Desk.desk)) = Some 1800000 /\
  0 < 1800000 /\
  clock (host Desk.desk) <> 0 /\
  (onActivated 2 ;;; resumeScan) Desk.desk
    = Ok tt (worldOf ((onActivated 2 ;;; resumeScan) Desk.desk)) /\
  tabKept Desk.news (worldOf ((onActivated 2 ;;; resumeScan) Desk.desk)) /\
  suspendedTabsCache (globals (worldOf ((onActivated 2 ;;; resumeScan) Desk.desk))) !! 2 = None.
Proof.
  assert (Hin : In Desk.news (tabs (host Desk.desk))) by (right; now left).
  assert (Hf : flagsClear Desk.desk) by (split; reflexivity).
  assert (Hc : clock (host Desk.desk) <> 0) by discriminate.
  assert (Hrun : (onActivated 2 ;;; resumeScan) Desk.desk
                 = Ok tt (worldOf ((onActivated 2 ;;; resumeScan) Desk.desk))).
  { vm_compute. reflexivity. }
  pose proof (activated_tab_survives_its_scan Desk.desk Desk.news 1800000
                desk_tab_ids Hin Hf eq_refl eq_refl eq_refl eq_refl Hc) as H.
  change (tab_id Desk.news) with 2 in H. rewrite Hrun in H.
  split; [exact desk_tab_ids|]. split; [exact Hin|]. split; [exact Hf|].
  split; [reflexivity|]. split; [reflexivity|]. split; [reflexivity|]. split; [reflexivity|].
  split; [exact Hc|]. split; [exact Hrun|]. exact H.
Defined.

(** Property X19. A tab whose content script has just sent a ping is
    spared by every scan that starts less than a threshold later: the
    router stamps the sender with the current time, and the scan finds
    the tab not due. Tab ids are distinct, and the sender has an id. *)
Theorem pinged_tab_is_spared (w : World) (fr : ScanFrame) (t0 : Tab) :
  NoDup (tab_id <$> tabs (host w)) ->
  In t0 (tabs (host w)) ->
  tab_id t0 <> 0 ->
  clock (host w) <> 0 ->
  frame_now fr - clock (host w) < frame_thresholdMs fr ->
  match (do _ <- onMessage ActivityPing (Some (tab_id t0)) ; scanBody fr) w with
  | Ok _ w' | Throw _ w' =>
      tabKept t0 w' /\
      suspendedTabsCache (globals w') !! tab_id t0
        = suspendedTabsCache (globals w) !! tab_id t0
  | Unmodelled => True
  end.
Proof.
  intros Hnd Hin Hid Hclock Hlt.
  set (wa := with_globals (fun g => set_lastActivityMap
                 (<[tab_id t0 := clock (host w)]> (lastActivityMap g)) g) w).
  assert (Hping : onMessage ActivityPing (Some (tab_id t0)) w = Ok ReplyPing wa).
  { unfold onMessage. unfold_m. cbn.
    destruct (Z.eqb_spec (tab_id t0) 0); [contradiction|]. reflexivity. }
  rewrite (bind_ok _ _ _ _ _ Hping).
  apply scanBody_spares; try assumption.
  - apply (leftAlone_ext t0 _ w); [reflexivity|reflexivity|].
    now apply leftAlone_initial.
  - exists (clock (host w)). cbn. unfold lastSeen, orElse. rewrite lookup_insert_eq. cbn.
    destruct (Z.eqb_spec (clock (host w)) 0); [contradiction|].
    split; [reflexivity|]. split; [exact Hclock|exact Hlt].
Qed.

Lemma pinged_tab_is_spared_witness :
  NoDup (tab_id <$> tabs (host Desk.desk)) /\
  In Desk.news (tabs (host Desk.desk)) /\
  tab_id Desk.news <> 0 /\
  clock (host Desk.desk) <> 0 /\
  frame_now thirtyMinutes - clock (host Desk.desk) < frame_thresholdMs thirtyMinutes /\
  (do _ <- onMessage ActivityPing (Some 2) ; scanBody thirtyMinutes) Desk.desk
    = Ok tt (worldOf ((do _ <- onMessage ActivityPing (Some 2) ; scanBody thirtyMinutes)
                        Desk.desk)) /\
  tabKept Desk.news
    (worldOf ((do _ <- onMessage ActivityPing (Some 2) ; scanBody thirtyMinutes) Desk.desk)) /\
  suspendedTabsCache
    (globals (worldOf ((do _ <- onMessage ActivityPing (Some 2) ; scanBody thirtyMinutes)
                         Desk.desk))) !! 2 = None.
Proof.
  assert (Hin : In Desk.news (tabs (host Desk.desk))) by (right; now left).
  assert (Hid : tab_id Desk.news <> 0) by discriminate.
  assert (Hc : clock (host Desk.desk) <> 0) by discriminate.
  assert (Hlt : frame_now thirtyMinutes - clock (host Desk.desk)
                < frame_thresholdMs thirtyMinutes) by reflexivity.
  assert (Hrun : (do _ <- onMessage ActivityPing (Some 2) ; scanBody thirtyMinutes) Desk.desk
    = Ok tt (worldOf ((do _ <- onMessage ActivityPing (Some 2) ; scanBody thirtyMinutes)
                        Desk.desk))).
  { vm_compute. reflexivity. }
  pose proof (pinged_tab_is_spared Desk.desk thirtyMinutes Desk.news
                desk_tab_ids Hin Hid Hc Hlt) as H.
  change (tab_id Desk.news) with 2 in H. rewrite Hrun in H.
  split; [exact desk_tab_ids|]. split; [exact Hin|]. split; [exact Hid|].
  split; [exact Hc|]. split; [exact Hlt|]. split; [exact Hrun|]. exact H.
Defined.

(** *** [suspendAllTabs] *)

Lemma upholds_conj {A} (I1 I2 : World -> Prop) (Q : A -> Prop) (m : M A) :
  upholds I1 Q m -> upholds I2 anyValue m -> upholds (fun w => I1 w /\ I2 w) Q m.
Proof.
  intros H1 H2 w [HI1 HI2]. specialize (H1 w HI1). specialize (H2 w HI2).
  destruct (m w) as [a w1|e w1|]; [|now split|exact Logic.I].
  split; [split; [apply H1|apply H2]|apply H1].
Qed.

Lemma hostFrame_suspendTab w0 id reason :
  upholds (hostFrame w0) anyValue (suspendTab id reason).
Proof.
  intros w H. pose proof (suspendTab_frame id reason w) as F.
  destruct (suspendTab id reason w) as [resp w1|e w1|]; [|contradiction|exact Logic.I].
  split; [|exact Logic.I]. eapply hostFrame_trans; eauto.
Qed.

Lemma samePolicy_refl t : samePolicy t t.
Proof. repeat split. Qed.

Lemma samePolicy_trans t1 t2 t3 : samePolicy t1 t2 -> samePolicy t2 t3 -> samePolicy t1 t3.
Proof. unfold samePolicy. intros (-> & -> & -> & ->) (-> & -> & -> & ->). repeat split. Qed.

Lemma samePolicy_setActive t t' :
  Chrome.setActive false t' = Chrome.setActive false t -> samePolicy t t'.
Proof.
  intros H. repeat split.
  - exact (f_equal tab_id H).
  - exact (f_equal tab_url H).
  - exact (f_equal tab_pinned H).
  - exact (f_equal tab_audible H).
Qed.

(** A manual suspension does not look at the focus, the position or the
    group of the tab. *)
Lemma eligible_manual_samePolicy s extId t t' :
  samePolicy t t' ->
  eligibleForSuspend s extId t' Manual = eligibleForSuspend s extId t Manual.
Proof.
  intros (Hid & Hurl & Hpin & Haud). unfold eligibleForSuspend.
  rewrite Hid, Hurl, Hpin, Haud.
  rewrite (bool_decide_eq_false_2 (Manual = Auto)) by discriminate.
  now rewrite !andb_false_r.
Qed.

Lemma descend_map ts0 extId keep (f : Tab -> Tab) ts :
  (forall t, samePolicy t (f t) \/ isExtensionSuspendedPage extId (tab_url (f t)) = true) ->
  descend ts0 extId keep ts -> descend ts0 extId keep (List.map f ts).
Proof.
  intros Hf H t' Hin. apply in_map_iff in Hin as (t1 & <- & Hin).
  destruct (Hf t1) as [Hs|Hp]; [|now left].
  destruct (H t1 Hin) as [Hp|(t & Ht & Hs' & Hk)].
  - left. destruct Hs as (_ & -> & _). exact Hp.
  - right. exists t. split; [exact Ht|]. split; [|exact Hk].
    now apply (samePolicy_trans t t1).
Qed.

Lemma descend_sub ts0 extId keep ts ts' :
  (forall t, In t ts' -> In t ts) ->
  descend ts0 extId keep ts -> descend ts0 extId keep ts'.
Proof. intros Hsub H t' Hin. apply H, Hsub, Hin. Qed.

Lemma descend_unfocusWindow ts0 extId keep win ts :
  descend ts0 extId keep ts -> descend ts0 extId keep (Chrome.unfocusWindow win ts).
Proof.
  apply descend_map. intros t. left. destruct (tab_windowId t =? win); repeat split.
Qed.

Lemma descend_replaceTab ts0 extId keep i f ts :
  (forall t, samePolicy t (f t) \/ isExtensionSuspendedPage extId (tab_url (f t)) = true) ->
  descend ts0 extId keep ts -> descend ts0 extId keep (Chrome.replaceTab i f ts).
Proof.
  intros Hf. apply descend_map. intros t.
  destruct (tab_id t =? i); [apply Hf|left; apply samePolicy_refl].
Qed.

(** A suspension opens placeholders only, and changes of an open tab
    nothing that the policy looks at unless it turns the tab into a
    placeholder. *)
Lemma tabsFrom_suspendTab ts0 extId keep id reason :
  upholds (tabsFrom ts0 extId keep) anyValue (suspendTab id reason).
Proof.
  apply (upholds_suspendTab (tabsFrom ts0 extId keep) id (fun _ => True)
           (fun url => isExtensionSuspendedPage extId (Some url) = true)).
  - intros c w H. exact H.
  - intros r w H. exact H.
  - intros w [He _] url title. rewrite He. apply isExtensionSuspendedPage_getSuspendedUrl.
  - intros p w Hurl [He H]. cbn zeta. split; [|exact Logic.I]. split; [exact He|].
    cbn. intros t' Hin. apply in_app_or in Hin as [Hin|[<-|[]]]; [|left; exact Hurl].
    revert t' Hin. destruct (Chrome.create_active p); [|exact H].
    now apply descend_unfocusWindow.
  - intros i index w _ [He H]. split; [exact He|]. cbn.
    apply descend_replaceTab; [|exact H]. intros t. left. repeat split.
  - intros i g w _ [He H]. split; [exact He|]. cbn.
    apply descend_replaceTab; [|exact H]. intros t. left. repeat split.
  - intros w [He H]. split; [exact He|]. cbn.
    apply (descend_sub _ _ _ (tabs (host w))); [|exact H].
    intros t Hin. unfold Chrome.withoutTab in Hin. now apply filter_In in Hin.
  - intros p w Hurl [He H]. split; [exact He|]. cbn. unfold afterUpdate.
    apply descend_replaceTab; [intros t; right; exact Hurl|].
    destruct (Chrome.update_active p) as [[|]|]; [|exact H..].
    destruct (Chrome.findTab id (tabs (host w))); [|exact H].
    now apply descend_unfocusWindow.
  - intros i r w _ H. exact H.
Qed.

(** *** The replace strategy closes the original *)

Lemma bind_Ok_inv {A B} (m : M A) (k : A -> M B) w b w' :
  bind m k w = Ok b w' -> exists a w1, m w = Ok a w1 /\ k a w1 = Ok b w'.
Proof.
  unfold bind. destruct (m w) as [a w1|e w1|]; [|discriminate..]. eauto.
Qed.

Lemma swallow_tabs_remove_gone id w w' :
  swallow (Chrome.tabs_remove id) w = Ok tt w' ->
  rejects (host w') (TabsRemove id) = false ->
  forall t', In t' (tabs (host w')) -> tab_id t' <> id.
Proof.
  unfold Chrome.tabs_remove, Chrome.onExistingTab, Chrome.hostCall. unfold_m. cbn.
  destruct (rejects (host w) (TabsRemove id)) eqn:Hrej; cbn.
  { intros [= <-]. cbn. congruence. }
  destruct (Chrome.findTab id (tabs (host w))) eqn:Hfind; cbn.
  - intros [= <-] _ t' Hin. cbn in Hin. unfold Chrome.withoutTab in Hin.
    apply filter_In in Hin as [_ Hne]. apply negb_true_iff in Hne. lia.
  - intros [= <-] _ t' Hin Heq. cbn in Hin.
    apply findTab_None_ids in Hfind. apply Hfind.
    apply list_elem_of_fmap. exists t'. split; [now symmetry|]. now apply list_elem_of_In.
Qed.

Lemma replaceStrategy_removes tab reason now w resp w' :
  replaceStrategy tab reason now w = Ok resp w' ->
  rejects (host w') (TabsRemove (tab_id tab)) = false ->
  forall t', In t' (tabs (host w')) -> tab_id t' <> tab_id tab.
Proof.
  unfold replaceStrategy. intros Hrun.
  do 6 (apply bind_Ok_inv in Hrun as (? & ? & _ & Hrun); cbn beta zeta in Hrun).
  apply bind_Ok_inv in Hrun as ([] & w7 & Hrem & Hret).
  injection Hret as _ <-. now apply (swallow_tabs_remove_gone _ _ _ Hrem).
Qed.

(** A tab that the policy accepts and that has no record, on a host that
    looks the tab up, opens the placeholder and closes the original. *)
Lemma suspendTab_replaces w tabId reason tab :
  Chrome.findTab tabId (tabs (host w)) = Some tab ->
  eligibleForSuspend (currentSettings (globals w)) (extensionId (host w)) tab reason
    = RVal true ->
  suspendedTabsCache (globals w) !! tabId = None ->
  rejects (host w) (TabsGet tabId) = false ->
  rejects (host w) TabsCreate = false ->
  rejects (host w) (TabsRemove tabId) = false ->
  exists w',
    suspendTab tabId reason w = Ok replacedOk w' /\
    forall t', In t' (tabs (host w')) -> tab_id t' <> tabId.
Proof.
  intros Hfind Hel Hrec Hget Hcreate Hremove.
  unfold suspendTab, tryCatch. unfold bind at 1. rewrite tabs_get_run. cbn.
  rewrite Hget, Hfind. set (w0 := with_host _ w).
  repeat step_refl. unfold bind at 1, liftR. cbn. rewrite Hel. cbn.
  pose proof (eligible_has_url _ _ _ _ Hel) as (u & Hu & Hpage).
  rewrite Hpage. step_refl. cbn. rewrite Hrec. cbn. unfold bind. cbn.
  destruct (replaceStrategy_replaces tab reason (clock (host w)) w0)
    as (w' & Hrep & F & _).
  { exact Hcreate. }
  { cbn. eapply findTab_In; eauto. }
  rewrite Hrep. cbn. exists w'. split; [reflexivity|].
  pose proof (findTab_id _ _ _ Hfind) as Hid. rewrite <- Hid.
  apply (replaceStrategy_removes tab reason (clock (host w)) w0 replacedOk); [exact Hrep|].
  destruct F as (-> & _). cbn. now rewrite Hid.
Qed.

(** A tab that the policy does not accept: nothing but the call log
    changes. *)
Lemma suspendTab_not_eligible w tabId reason tab :
  Chrome.findTab tabId (tabs (host w)) = Some tab ->
  rejects (host w) (TabsGet tabId) = false ->
  eligibleForSuspend (currentSettings (globals w)) (extensionId (host w)) tab reason
    <> RVal true ->
  eligibleForSuspend (currentSettings (globals w)) (extensionId (host w)) tab reason
    <> RUnmodelled ->
  exists resp,
    suspendTab tabId reason w = Ok resp (with_host (log_call (TabsGet tabId)) w) /\
    success resp = false.
Proof.
  intros Hfind Hget Hel Hmod.
  unfold suspendTab, tryCatch. unfold bind at 1. rewrite tabs_get_run. cbn.
  rewrite Hget, Hfind. repeat step_refl. unfold bind at 1, liftR. cbn.
  destruct (eligibleForSuspend _ _ tab reason) as [[|]|e|]; cbn; try congruence; eauto.
Qed.

(** *** The loop of [suspendAllTabs] *)

Section SuspendAll.

Variable w0 : World.

Hypothesis get_accepted : forall id, rejects (host w0) (TabsGet id) = false.
Hypothesis create_accepted : rejects (host w0) TabsCreate = false.
Hypothesis remove_accepted : forall id, rejects (host w0) (TabsRemove id) = false.
Hypothesis no_record : forall t,
  In t (tabs (host w0)) -> manualEligible w0 t = true ->
  suspendedTabsCache (globals w0) !! tab_id t = None.
Hypothesis modelled : forall t,
  In t (tabs (host w0)) ->
  eligibleForSuspend (currentSettings (globals w0)) (extensionId (host w0)) t Manual
    <> RUnmodelled.

(** One turn, on a tab that is as the query reported it. *)
Lemma suspendCounting_turn t w :
  In t (tabs (host w0)) ->
  hostFrame w0 w ->
  leftAlone t (suspendedTabsCache (globals w0) !! tab_id t) w ->
  exists resp w1,
    suspendTab (tab_id t) Manual w = Ok resp w1 /\
    success resp = manualEligible w0 t /\
    (manualEligible w0 t = true ->
     forall t', In t' (tabs (host w1)) -> tab_id t' <> tab_id t).
Proof.
  intros Hin F [(tk & Hfind & Hsame) Hrec].
  pose proof F as (Hrej & Hext & _ & _ & Hset & _).
  assert (Hel : eligibleForSuspend (currentSettings (globals w)) (extensionId (host w))
                  tk Manual
                = eligibleForSuspend (currentSettings (globals w0)) (extensionId (host w0))
                    t Manual).
  { rewrite Hset, Hext. now apply eligible_manual_samePolicy, samePolicy_setActive. }
  unfold manualEligible.
  destruct (eligibleForSuspend (currentSettings (globals w0)) (extensionId (host w0))
              t Manual) as [[|]|e|] eqn:Hel0.
  - destruct (suspendTab_replaces w (tab_id t) Manual tk) as (w1 & Hrun & Hgone);
      try (rewrite Hrej; auto); [exact Hfind|exact Hel| |].
    + rewrite Hrec. apply no_record; [exact Hin|]. unfold manualEligible. now rewrite Hel0.
    + exists replacedOk, w1. split; [exact Hrun|]. split; [reflexivity|]. intros _. exact Hgone.
  - destruct (suspendTab_not_eligible w (tab_id t) Manual tk) as (resp & Hrun & Hfail);
      try (rewrite Hel; discriminate); [exact Hfind|rewrite Hrej; auto|].
    exists resp, (with_host (log_call (TabsGet (tab_id t))) w).
    split; [exact Hrun|]. split; [exact Hfail|]. discriminate.
  - destruct (suspendTab_not_eligible w (tab_id t) Manual tk) as (resp & Hrun & Hfail);
      try (rewrite Hel; discriminate); [exact Hfind|rewrite Hrej; auto|].
    exists resp, (with_host (log_call (TabsGet (tab_id t))) w).
    split; [exact Hrun|]. split; [exact Hfail|]. discriminate.
  - now apply modelled in Hin.
Qed.

Lemma suspendEach_all rest : forall w count,
  NoDup (tab_id <$> rest) ->
  (forall t, In t rest -> In t (tabs (host w0))) ->
  hostFrame w0 w ->
  tabsFrom (tabs (host w0)) (extensionId (host w0)) (toCome w0 rest) w ->
  (forall t, In t rest -> leftAlone t (suspendedTabsCache (globals w0) !! tab_id t) w) ->
  exists w',
    forEachCounting (suspendCounting true) rest count w
      = Ok (count + Z.of_nat (length (List.filter (manualEligible w0) rest))) w' /\
    hostFrame w0 w' /\
    tabsFrom (tabs (host w0)) (extensionId (host w0)) (toCome w0 []) w'.
Proof.
  induction rest as [|t rest IH]; intros w count Hnd Hsub F Hfrom Hleft.
  { exists w. cbn. rewrite Z.add_0_r. auto. }
  cbn in Hnd. apply NoDup_cons in Hnd as [Hnotin Hnd].
  destruct (suspendCounting_turn t w) as (resp & w1 & Hrun & Hsucc & Hgone);
    [apply Hsub; now left|exact F|apply Hleft; now left|].
  assert (F1 : hostFrame w0 w1).
  { pose proof (hostFrame_suspendTab w0 (tab_id t) Manual w F) as H.
    rewrite Hrun in H. apply H. }
  assert (Hfrom1 : tabsFrom (tabs (host w0)) (extensionId (host w0)) (toCome w0 rest) w1).
  { pose proof (tabsFrom_suspendTab _ _ _ (tab_id t) Manual w Hfrom) as H.
    rewrite Hrun in H. destruct H as [[He H] _]. split; [exact He|].
    intros t' Hin'. destruct (H t' Hin') as [Hp|(t2 & Ht2 & Hs & Hk)]; [now left|].
    right. exists t2. split; [exact Ht2|]. split; [exact Hs|].
    intros Hel2. destruct (Hk Hel2) as [<-|Hrest]; [|exact Hrest].
    exfalso. apply (Hgone Hel2 t' Hin'). apply Hs. }
  assert (Hleft1 : forall u, In u rest ->
            leftAlone u (suspendedTabsCache (globals w0) !! tab_id u) w1).
  { intros u Hu.
    assert (Hne : tab_id t <> tab_id u).
    { intros Heq. apply Hnotin. rewrite Heq. apply list_elem_of_fmap. exists u.
      split; [reflexivity|]. now apply list_elem_of_In. }
    pose proof (leftAlone_suspendTab u _ (tab_id t) Manual Hne w (Hleft u (or_intror Hu))) as H.
    rewrite Hrun in H. apply H. }
  destruct (IH w1 (bump resp count) Hnd (fun u Hu => Hsub u (or_intror Hu)) F1 Hfrom1 Hleft1)
    as (w' & Hloop & F' & Hfrom').
  exists w'. split; [|split; [exact F'|exact Hfrom']].
  cbn [forEachCounting]. unfold suspendCounting at 1. cbn [negb andb].
  unfold bind at 1. unfold tryCatch. rewrite (bind_ok _ _ _ _ _ Hrun). cbn [ret].
  rewrite Hloop. f_equal. unfold bump. rewrite Hsucc. cbn [List.filter].
  destruct (manualEligible w0 t); cbn [length]; lia.
Qed.

End SuspendAll.

Lemma suspendAllTabs_loop includeActive :
  suspendAllTabs includeActive =
  (do ts <- Chrome.tabs_query (fun _ => true) ;
   do count <- forEachCounting (suspendCounting includeActive) ts 0 ;
   ret (mkBulkReply true count)).
Proof. reflexivity. Qed.

Lemma leftAlone_open t w v :
  NoDup (tab_id <$> tabs (host w)) -> In t (tabs (host w)) ->
  tabs (host v) = tabs (host w) -> globals v = globals w ->
  leftAlone t (suspendedTabsCache (globals w) !! tab_id t) v.
Proof.
  intros Hnd Hin Ht Hg. split; [|now rewrite Hg]. exists t. rewrite Ht.
  split; [now apply findTab_NoDup|reflexivity].
Qed.

(** Property X20. On a host that looks up, opens and closes tabs as
    asked, [suspendAllTabs] leaves no tab that the user could suspend:
    afterwards the policy rejects every open tab, and the count of the
    answer is the number of tabs that the policy accepted. Tab ids are
    distinct, no tab that the policy accepts has a record already, and
    the whitelist is one that the model of regular expressions covers. *)
Theorem suspendAllTabs_leaves_nothing_eligible (w : World) :
  rejects (host w) TabsQuery = false ->
  rejects (host w) TabsCreate = false ->
  (forall id, rejects (host w) (TabsGet id) = false) ->
  (forall id, rejects (host w) (TabsRemove id) = false) ->
  NoDup (tab_id <$> tabs (host w)) ->
  (forall t, In t (tabs (host w)) -> manualEligible w t = true ->
             suspendedTabsCache (globals w) !! tab_id t = None) ->
  (forall t, In t (tabs (host w)) ->
             eligibleForSuspend (currentSettings (globals w)) (extensionId (host w)) t Manual
               <> RUnmodelled) ->
  exists w',
    suspendAllTabs true w
      = Ok (mkBulkReply true
              (Z.of_nat (length (List.filter (manualEligible w) (tabs (host w)))))) w' /\
    forall t', In t' (tabs (host w')) -> manualEligible w' t' = false.
Proof.
  intros Hquery Hcreate Hget Hremove Hnd Hrec Hmod.
  set (wq := with_host (log_call TabsQuery) w).
  destruct (suspendEach_all w Hget Hcreate Hremove Hrec Hmod (tabs (host w)) wq 0)
    as (w' & Hloop & F & [He Hfrom]).
  - exact Hnd.
  - auto.
  - apply hostFrame_log.
  - split; [reflexivity|]. intros t' Hin. right. exists t'.
    split; [exact Hin|]. split; [apply samePolicy_refl|]. intros _. exact Hin.
  - intros t Hin. now apply leftAlone_open.
  - exists w'. split.
    + rewrite suspendAllTabs_loop. unfold Chrome.tabs_query, Chrome.hostCall.
      unfold bind at 1. unfold bind at 1. rewrite Hquery. unfold inspect.
      change (tabs (host (with_host (log_call TabsQuery) w))) with (tabs (host w)).
      rewrite filter_all by reflexivity. fold wq.
      rewrite (bind_ok _ _ _ _ _ Hloop). reflexivity.
    + intros t' Hin. destruct F as (_ & Hext & _ & _ & Hset & _).
      unfold manualEligible. rewrite Hset, Hext.
      destruct (Hfrom t' Hin) as [Hp|(t & Ht & Hs & Hk)].
      * now rewrite (eligible_not_suspended_page _ _ _ _ Hp).
      * rewrite (eligible_manual_samePolicy _ _ _ _ Hs).
        unfold toCome, manualEligible in Hk.
        destruct (eligibleForSuspend _ _ t Manual) as [[|]|e|]; try reflexivity.
        now destruct Hk.
Qed.

(** Property X21. [suspendAllTabs] leaves alone every tab that the policy
    rejects (a pinned tab, a tab that plays sound, a whitelisted page, a
    page that is neither http nor file): the tab stays open as it was,
    and the registry holds for its id what it held. Tab ids are
    distinct. *)
Theorem suspendAllTabs_spares_exempt_tabs
  (w w' : World) (includeActive : bool) (t0 : Tab) (reply : BulkReply) :
  NoDup (tab_id <$> tabs (host w)) ->
  In t0 (tabs (host w)) ->
  manualEligible w t0 = false ->
  suspendAllTabs includeActive w = Ok reply w' ->
  tabKept t0 w' /\
  suspendedTabsCache (globals w') !! tab_id t0 = suspendedTabsCache (globals w) !! tab_id t0.
Proof.
  intros Hnd Hin Hex Hrun.
  set (r0 := suspendedTabsCache (globals w) !! tab_id t0).
  set (I0 := fun v => leftAlone t0 r0 v /\ hostFrame w v).
  assert (Hown : upholds I0 anyValue (suspendTab (tab_id t0) Manual)).
  { intros v [[(tk & Hfind & Hsame) Hr] F].
    pose proof F as (_ & Hext & _ & _ & Hset & _).
    assert (Hel : eligibleForSuspend (currentSettings (globals v)) (extensionId (host v))
                    tk Manual <> RVal true).
    { rewrite Hset, Hext, (eligible_manual_samePolicy _ _ t0 tk)
        by now apply samePolicy_setActive.
      unfold manualEligible in Hex. intros Heq. now rewrite Heq in Hex. }
    assert (Hkeep : I0 (with_host (log_call (TabsGet (tab_id t0))) v)).
    { split; [split; [exists tk; now split|exact Hr]|].
      eapply hostFrame_trans; [exact F|apply hostFrame_log]. }
    destruct (suspendTab_outcome v (tab_id t0) Manual); try (now split); try exact Logic.I;
      congruence. }
  assert (Hup : upholds I0 anyValue (suspendAllTabs includeActive)).
  { rewrite suspendAllTabs_loop.
    eapply upholds_bind.
    { apply upholds_tabs_query. intros c v H. exact H. }
    intros ts _. eapply upholds_bind; [|intros c _; apply upholds_ret_any].
    apply upholds_forEachCounting. intros tab c _. unfold suspendCounting.
    destruct (negb includeActive && tab_active tab); [apply upholds_ret_any|].
    eapply upholds_bind; [|intros res _; apply upholds_ret_any].
    destruct (Z.eq_dec (tab_id tab) (tab_id t0)) as [->|Hne]; [exact Hown|].
    apply upholds_conj; [now apply leftAlone_suspendTab|apply hostFrame_suspendTab]. }
  assert (H0 : I0 w).
  { split; [now apply leftAlone_open|apply hostFrame_refl]. }
  specialize (Hup w H0). rewrite Hrun in Hup. apply Hup.
Qed.

Lemma desk_is_modelled t :
  In t (tabs (host Desk.desk)) ->
  eligibleForSuspend (currentSettings (globals Desk.desk)) (extensionId (host Desk.desk))
    t Manual <> RUnmodelled.
Proof.
  intros [<-|[<-|[<-|[<-|[]]]]]; vm_compute; discriminate.
Qed.

Lemma suspendAllTabs_leaves_nothing_eligible_witness :
  NoDup (tab_id <$> tabs (host Desk.desk)) /\
  exists w',
    suspendAllTabs true Desk.desk = Ok (mkBulkReply true 3) w' /\
    forall t', In t' (tabs (host w')) -> manualEligible w' t' = false.
Proof.
  split; [exact desk_tab_ids|].
  exact (suspendAllTabs_leaves_nothing_eligible Desk.desk eq_refl eq_refl
           (fun _ => eq_refl) (fun _ => eq_refl) desk_tab_ids
           (fun t _ _ => lookup_empty (tab_id t)) desk_is_modelled).
Defined.

Lemma suspendAllTabs_spares_exempt_tabs_witness :
  In Desk.radio (tabs (host Desk.desk)) /\
  manualEligible Desk.desk Desk.radio = false /\
  suspendAllTabs true Desk.desk
    = Ok (mkBulkReply true 3) (worldOf (suspendAllTabs true Desk.desk)) /\
  tabKept Desk.radio (worldOf (suspendAllTabs true Desk.desk)) /\
  suspendedTabsCache (globals (worldOf (suspendAllTabs true Desk.desk))) !! 3 = None.
Proof.
  assert (Hin : In Desk.radio (tabs (host Desk.desk))) by (right; right; now left).
  assert (Hex : manualEligible Desk.desk Desk.radio = false) by (vm_compute; reflexivity).
  assert (Hrun : suspendAllTabs true Desk.desk
                 = Ok (mkBulkReply true 3) (worldOf (suspendAllTabs true Desk.desk))).
  { vm_compute. reflexivity. }
  split; [exact Hin|]. split; [exact Hex|]. split; [exact Hrun|].
  exact (suspendAllTabs_spares_exempt_tabs Desk.desk _ true Desk.radio _
           desk_tab_ids Hin Hex Hrun).
Defined.

(** *** The placeholder and the update hook *)

(** Property X22. The update hook keeps the record of a tab that
    navigates to the suspended page, as the tab of a suspension by
    navigation does: for the address that [getSuspendedUrl] builds,
    [onUpdated] changes nothing, whatever the registry holds. *)
Theorem onUpdated_keeps_placeholder (w : World) (tabId : Z) (url : string) (title : option string) :
  onUpdated tabId (Some (getSuspendedUrl (extensionId (host w)) url title)) w = Ok tt w.
Proof.
  unfold onUpdated. step_refl.
  destruct (isTruthyString _ && bool_decide _); [|reflexivity].
  unfold swallow, tryCatch. step_refl.
  now rewrite isExtensionSuspendedPage_getSuspendedUrl.
Qed.
